(** * A shallow embedding of the prompt-canvas markdown parser and serializer

    The modelled code is the heading-based (v2.0) version of
    [src/lib/parser.ts]: [promoteContentHeadings], [demoteContentHeadings],
    [parse], [detectV20Format], [parseV20Format], [parseV11Format],
    [savePrompt], [parseV10Format] and [serialize].

    JavaScript strings are sequences of UTF-16 code units; they are modelled
    as [list N].  The regular expressions of the source are modelled by
    matchers that follow the ECMAScript backtracking semantics of each
    pattern (greedy and lazy quantifiers, [^] and [$] with and without the
    [m] flag, [.] not matching line terminators, [\s] matching WhiteSpace
    and LineTerminator).  [nanoid()] and [new Date().toISOString()] are
    inputs of the model: a supply of identifiers indexed by a counter that
    the parser threads, and a fixed timestamp. *)

From Stdlib Require Import List Bool Arith Lia NArith ZArith String Ascii.
From Stdlib Require Import Permutation.
Import ListNotations.

Open Scope list_scope.

(* ------------------------------------------------------------------ *)
(** ** JavaScript strings *)

Definition jstr := list N.

(** String literals: [u "..."] reads a Rocq literal as code units; the
    apostrophe stands for a double quote and the tilde for a newline. *)
Definition u (s : string) : jstr :=
  map (fun a => let n := N_of_ascii a in
                if (n =? 39)%N then 34%N else if (n =? 126)%N then 10%N else n)
      (list_ascii_of_string s).

(** ECMAScript LineTerminator: LF, CR, LS, PS. *)
Definition is_line_term (c : N) : bool :=
  ((c =? 10) || (c =? 13) || (c =? 8232) || (c =? 8233))%N.

(** ECMAScript WhiteSpace or LineTerminator: the class [\s] and the
    characters removed by [String.prototype.trim]. *)
Definition is_ws (c : N) : bool :=
  (is_line_term c || (c =? 9) || (c =? 11) || (c =? 12) || (c =? 32)
   || (c =? 160) || (c =? 5760) || ((8192 <=? c) && (c <=? 8202))
   || (c =? 8239) || (c =? 8287) || (c =? 12288) || (c =? 65279))%N.

Fixpoint prefixb (p s : jstr) : bool :=
  match p, s with
  | [], _ => true
  | a :: p', b :: s' => (a =? b)%N && prefixb p' s'
  | _ :: _, [] => false
  end.

Fixpoint drop_ws (s : jstr) : jstr :=
  match s with
  | c :: s' => if is_ws c then drop_ws s' else s
  | [] => []
  end.

(** [String.prototype.trim]. *)
Definition trim (s : jstr) : jstr := rev (drop_ws (rev (drop_ws s))).

(** Splitting at the characters satisfying [p], keeping the separators:
    the first piece, the other pieces and the separators between them. *)
Fixpoint split_on (p : N -> bool) (s : jstr) : jstr * list jstr * list N :=
  match s with
  | [] => ([], [], [])
  | c :: s' =>
      let '(l, ls, ts) := split_on p s' in
      if p c then ([], l :: ls, c :: ts) else (c :: l, ls, ts)
  end.

(** The inverse: pieces joined by the given separators. *)
Fixpoint weave (l : jstr) (ls : list jstr) (ts : list N) : jstr :=
  match ls, ts with
  | l' :: ls', t :: ts' => l ++ t :: weave l' ls' ts'
  | _, _ => l
  end.

Definition is_nl (c : N) : bool := (c =? 10)%N.

(** [s.split('\n')]. *)
Definition split_nl (s : jstr) : list jstr :=
  let '(l, ls, _) := split_on is_nl s in l :: ls.

(** [a.join(sep)]. *)
Fixpoint join (sep : jstr) (xs : list jstr) : jstr :=
  match xs with
  | [] => []
  | [x] => x
  | x :: xs' => x ++ sep ++ join sep xs'
  end.

(** [s.endsWith(suffix)]. *)
Definition ends_with (s suffix : jstr) : bool := prefixb (rev suffix) (rev s).

(** [s.includes(needle)]. *)
Fixpoint includes (s needle : jstr) : bool :=
  prefixb needle s || match s with [] => false | _ :: s' => includes s' needle end.

(* ------------------------------------------------------------------ *)
(** ** Heading transformer *)

(** [s.replace(/^<pat>/gm, rep)] for a pattern [pat] without line
    terminators: with the [m] flag, [^] matches at the start of the string
    and after every line terminator, and matches of such a pattern never
    overlap a line terminator, so the global replacement rewrites the
    prefix of every line (lines separated by LF, CR, LS or PS). *)
Definition replace_line_prefix (pat rep : jstr) (line : jstr) : jstr :=
  if prefixb pat line then rep ++ skipn (List.length pat) line else line.

Definition replace_bol (pat rep : jstr) (s : jstr) : jstr :=
  let '(l, ls, ts) := split_on is_line_term s in
  weave (replace_line_prefix pat rep l) (map (replace_line_prefix pat rep) ls) ts.

(** [promoteContentHeadings]: [### ] first, then [## ], then [# ]. *)
Definition promoteContentHeadings (content : jstr) : jstr :=
  replace_bol (u "# ") (u "#### ")
    (replace_bol (u "## ") (u "##### ")
       (replace_bol (u "### ") (u "###### ") content)).

(** [demoteContentHeadings]. *)
Definition demoteContentHeadings (content : jstr) : jstr :=
  replace_bol (u "#### ") (u "# ")
    (replace_bol (u "##### ") (u "## ")
       (replace_bol (u "###### ") (u "### ") content)).

(** The lines of a string, as the [m] flag of a regular expression sees
    them. *)
Definition js_lines (s : jstr) : list jstr :=
  let '(l, ls, _) := split_on is_line_term s in l :: ls.

(** A line that begins with four or more [#] followed by a space. *)
Definition deep_heading_line (line : jstr) : Prop :=
  exists k rest, 4 <= k /\ line = repeat 35%N k ++ 32%N :: rest.


(* ------------------------------------------------------------------ *)
(** ** JavaScript values and JSON *)

(** The values that [JSON.parse] produces, and [undefined].  A number is
    kept as its exact decimal value [m * 10 ^ e]; it is rounded to a double
    where the parser turns it into a property key ([number_key]). *)
#[warnings="-register-all"]
Inductive jsval : Type :=
| JUndef
| JNull
| JBool (b : bool)
| JNum (m : Z) (e : Z)
| JStr (s : jstr)
| JArr (xs : list jsval)
| JObj (kvs : list (jstr * jsval)).

(** A plain object: own properties in insertion order. *)
Definition obj := list (jstr * jsval).

Fixpoint jstr_eqb (a b : jstr) : bool :=
  match a, b with
  | [], [] => true
  | x :: a', y :: b' => (x =? y)%N && jstr_eqb a' b'
  | _, _ => false
  end.

(** [o[k]] for an own property; a missing property reads [undefined]. *)
Fixpoint obj_get (o : obj) (k : jstr) : jsval :=
  match o with
  | [] => JUndef
  | (k', v) :: o' => if jstr_eqb k k' then v else obj_get o' k
  end.

Fixpoint obj_has (o : obj) (k : jstr) : bool :=
  match o with
  | [] => false
  | (k', _) :: o' => jstr_eqb k k' || obj_has o' k
  end.

(** [o[k] = v]: an existing property keeps its position. *)
Fixpoint obj_set (o : obj) (k : jstr) (v : jsval) : obj :=
  match o with
  | [] => [(k, v)]
  | (k', v') :: o' => if jstr_eqb k k' then (k', v) :: o' else (k', v') :: obj_set o' k v
  end.

(** ToBoolean. *)
Definition truthy (v : jsval) : bool :=
  match v with
  | JUndef | JNull => false
  | JBool b => b
  | JNum m _ => negb (m =? 0)%Z
  | JStr s => match s with [] => false | _ => true end
  | JArr _ | JObj _ => true
  end.

(** [a || b] and [a ?? b]. *)
Definition js_or (a b : jsval) : jsval := if truthy a then a else b.

Definition js_coalesce (a b : jsval) : jsval :=
  match a with JUndef | JNull => b | _ => a end.

Definition num_eqb (m1 e1 m2 e2 : Z) : bool :=
  let e := Z.min e1 e2 in
  (m1 * 10 ^ (e1 - e) =? m2 * 10 ^ (e2 - e))%Z.

(** [a === b].  Arrays and objects are compared by reference; every array
    or object met by the parser comes from its own [JSON.parse] call, so
    two of them are never the same reference. *)
Definition strict_eqb (a b : jsval) : bool :=
  match a, b with
  | JUndef, JUndef | JNull, JNull => true
  | JBool x, JBool y => Bool.eqb x y
  | JNum m1 e1, JNum m2 e2 => num_eqb m1 e1 m2 e2
  | JStr x, JStr y => jstr_eqb x y
  | _, _ => false
  end.

(** *** [JSON.parse] *)

Definition json_ws (c : N) : bool := ((c =? 32) || (c =? 9) || (c =? 10) || (c =? 13))%N.

Fixpoint skip_json_ws (s : jstr) : jstr :=
  match s with
  | c :: s' => if json_ws c then skip_json_ws s' else s
  | [] => []
  end.

Definition hex_val (c : N) : option N :=
  if ((48 <=? c) && (c <=? 57))%N then Some (c - 48)%N
  else if ((97 <=? c) && (c <=? 102))%N then Some (c - 87)%N
  else if ((65 <=? c) && (c <=? 70))%N then Some (c - 55)%N
  else None.

Definition hex4 (a b c d : N) : option N :=
  match hex_val a, hex_val b, hex_val c, hex_val d with
  | Some x, Some y, Some z, Some w => Some (((x * 16 + y) * 16 + z) * 16 + w)%N
  | _, _, _, _ => None
  end.

(** The one-character escapes: quote, backslash, slash, b, f, n, r, t. *)
Definition short_escape (e : N) : option N :=
  match e with
  | 34%N => Some 34%N | 92%N => Some 92%N | 47%N => Some 47%N
  | 98%N => Some 8%N | 102%N => Some 12%N | 110%N => Some 10%N
  | 114%N => Some 13%N | 116%N => Some 9%N
  | _ => None
  end.

(** The body of a string literal, after its opening quote. *)
Fixpoint json_string_body (acc : jstr) (s : jstr) : option (jstr * jstr) :=
  match s with
  | [] => None
  | c :: s' =>
      if (c =? 34)%N then Some (rev acc, s')
      else if (c =? 92)%N then
        match s' with
        | [] => None
        | e :: s'' =>
            match short_escape e with
            | Some d => json_string_body (d :: acc) s''
            | None =>
                if (e =? 117)%N then
                  match s'' with
                  | a :: b :: c2 :: d :: r =>
                      match hex4 a b c2 d with
                      | Some x => json_string_body (x :: acc) r
                      | None => None
                      end
                  | _ => None
                  end
                else None
            end
        end
      else if (c <? 32)%N then None
      else json_string_body (c :: acc) s'
  end.

Definition is_digit (c : N) : bool := ((48 <=? c) && (c <=? 57))%N.

(** A run of digits: its value, its length and what follows. *)
Fixpoint json_digits (acc : Z) (n : Z) (s : jstr) : Z * Z * jstr :=
  match s with
  | c :: s' => if is_digit c then json_digits (acc * 10 + Z.of_N (c - 48))%Z (n + 1)%Z s'
               else (acc, n, s)
  | [] => (acc, n, s)
  end.

(** [-? (0 | [1-9][0-9]* ) (\. [0-9]+)? ([eE] [+-]? [0-9]+)?]. *)
Definition json_number (s : jstr) : option (jsval * jstr) :=
  let '(neg, s1) := match s with 45%N :: r => (true, r) | _ => (false, s) end in
  let int_part :=
    match s1 with
    | 48%N :: r => Some (0%Z, r)
    | c :: _ => if is_digit c then let '(v, _, r) := json_digits 0 0 s1 in Some (v, r) else None
    | [] => None
    end in
  match int_part with
  | None => None
  | Some (iv, s2) =>
      let frac :=
        match s2 with
        | 46%N :: r =>
            let '(fv, fn, r') := json_digits iv 0 r in
            if (fn =? 0)%Z then None else Some (fv, fn, r')
        | _ => Some (iv, 0%Z, s2)
        end in
      match frac with
      | None => None
      | Some (mv, fn, s3) =>
          let exp :=
            match s3 with
            | c :: r =>
                if ((c =? 101) || (c =? 69))%N then
                  let '(eneg, r1) :=
                    match r with
                    | 45%N :: r' => (true, r') | 43%N :: r' => (false, r') | _ => (false, r)
                    end in
                  let '(ev, en, r2) := json_digits 0 0 r1 in
                  if (en =? 0)%Z then None else Some (if eneg then (- ev)%Z else ev, r2)
                else Some (0%Z, s3)
            | [] => Some (0%Z, s3)
            end in
          match exp with
          | None => None
          | Some (ev, s4) => Some (JNum (if neg then (- mv)%Z else mv) (ev - fn)%Z, s4)
          end
      end
  end.

(** Values, object members and array elements.  Every nested call
    consumes at least one code unit, so [length + 1] steps are enough. *)
Fixpoint json_value (fuel : nat) (s : jstr) : option (jsval * jstr) :=
  match fuel with
  | O => None
  | S f =>
      match skip_json_ws s with
      | 123%N :: r =>
          match skip_json_ws r with
          | 125%N :: r' => Some (JObj [], r')
          | _ => json_members f [] r
          end
      | 91%N :: r =>
          match skip_json_ws r with
          | 93%N :: r' => Some (JArr [], r')
          | _ => json_elements f [] r
          end
      | 34%N :: r =>
          match json_string_body [] r with
          | Some (str, r') => Some (JStr str, r')
          | None => None
          end
      | 116%N :: 114%N :: 117%N :: 101%N :: r => Some (JBool true, r)
      | 102%N :: 97%N :: 108%N :: 115%N :: 101%N :: r => Some (JBool false, r)
      | 110%N :: 117%N :: 108%N :: 108%N :: r => Some (JNull, r)
      | s' => json_number s'
      end
  end
with json_members (fuel : nat) (acc : obj) (s : jstr) : option (jsval * jstr) :=
  match fuel with
  | O => None
  | S f =>
      match skip_json_ws s with
      | 34%N :: r =>
          match json_string_body [] r with
          | None => None
          | Some (k, r1) =>
              match skip_json_ws r1 with
              | 58%N :: r2 =>
                  match json_value f r2 with
                  | None => None
                  | Some (v, r3) =>
                      let acc' := obj_set acc k v in
                      match skip_json_ws r3 with
                      | 44%N :: r4 => json_members f acc' r4
                      | 125%N :: r4 => Some (JObj acc', r4)
                      | _ => None
                      end
                  end
              | _ => None
              end
          end
      | _ => None
      end
  end
with json_elements (fuel : nat) (acc : list jsval) (s : jstr) : option (jsval * jstr) :=
  match fuel with
  | O => None
  | S f =>
      match json_value f s with
      | None => None
      | Some (v, r) =>
          match skip_json_ws r with
          | 44%N :: r' => json_elements f (acc ++ [v]) r'
          | 93%N :: r' => Some (JArr (acc ++ [v]), r')
          | _ => None
          end
      end
  end.

(** [JSON.parse(text)]; [None] is the [SyntaxError] the callers catch. *)
Definition json_parse (text : jstr) : option jsval :=
  match json_value (S (List.length text)) text with
  | Some (v, r) => match skip_json_ws r with [] => Some v | _ => None end
  | None => None
  end.

(** *** [JSON.stringify] *)

Definition hex_digit (n : N) : N := if (n <? 10)%N then (48 + n)%N else (87 + n)%N.

(** [\uXXXX] with lower-case hexadecimal digits. *)
Definition unicode_escape (c : N) : jstr :=
  [92%N; 117%N; hex_digit (c / 4096 mod 16); hex_digit (c / 256 mod 16);
   hex_digit (c / 16 mod 16); hex_digit (c mod 16)].

Definition is_high_surrogate (c : N) : bool := ((55296 <=? c) && (c <=? 56319))%N.
Definition is_low_surrogate (c : N) : bool := ((56320 <=? c) && (c <=? 57343))%N.

Definition quote_unit (c : N) : jstr :=
  match c with
  | 8%N => [92; 98]%N | 9%N => [92; 116]%N | 10%N => [92; 110]%N
  | 12%N => [92; 102]%N | 13%N => [92; 114]%N
  | 34%N => [92; 34]%N | 92%N => [92; 92]%N
  | _ => if (c <? 32)%N then unicode_escape c else [c]
  end.

(** QuoteJSONString: surrogate pairs are copied, lone surrogates escaped. *)
Fixpoint quote_units (s : jstr) : jstr :=
  match s with
  | [] => []
  | c :: s' =>
      if is_high_surrogate c then
        match s' with
        | d :: s'' => if is_low_surrogate d then c :: d :: quote_units s''
                      else unicode_escape c ++ quote_units s'
        | [] => unicode_escape c
        end
      else if is_low_surrogate c then unicode_escape c ++ quote_units s'
      else quote_unit c ++ quote_units s'
  end.

Definition json_quote (s : jstr) : jstr := 34%N :: quote_units s ++ [34%N].

(** The object literals that [serialize] stringifies hold strings and
    booleans only. *)
Inductive metaval : Type :=
| MStr (s : jstr)
| MBool (b : bool).

Definition stringify_metaval (v : metaval) : jstr :=
  match v with
  | MStr s => json_quote s
  | MBool true => u "true"
  | MBool false => u "false"
  end.

(** [JSON.stringify(o)] for such an object, keys in insertion order. *)
Definition json_stringify (o : list (jstr * metaval)) : jstr :=
  [123%N] ++ join [44%N] (map (fun '(k, v) => json_quote k ++ [58%N] ++ stringify_metaval v) o)
  ++ [125%N].


(* ------------------------------------------------------------------ *)
(** ** Regular expressions of the parser *)

(** [H1_REGEX], [H2_REGEX], [H3_REGEX] for [n] = 1, 2, 3: [n] hashes at
    the start of the line, one or more white space units, then a captured
    rest of the line.  The greedy [\s+] takes the whole run of white space;
    the capture then has to
    reach the end without meeting a line terminator, and giving back white
    space cannot help it.  The result is the capture. *)
Definition heading_regex (n : nat) (line : jstr) : option jstr :=
  if prefixb (repeat 35%N n) line then
    let r := skipn n line in
    let x := drop_ws r in
    match r with
    | c :: _ =>
        if is_ws c && forallb (fun c => negb (is_line_term c)) x then Some x else None
    | [] => None
    end
  else None.

(** [EMPTY_H1], [EMPTY_H2], [EMPTY_H3]: [n] hashes then only white space. *)
Definition empty_heading_regex (n : nat) (line : jstr) : bool :=
  prefixb (repeat 35%N n) line && forallb is_ws (skipn n line).

(** After the captured braces: white space and the comment close, followed
    by the end of the input when the pattern is anchored at the end. *)
Definition comment_tail_ok (anchored : bool) (z : jstr) : bool :=
  let z' := drop_ws z in
  if anchored then jstr_eqb z' (u "-->") else prefixb (u "-->") z'.

(** The lazy any-character loop inside the captured braces: at every step
    it first tries to close the group with a closing brace and match the
    tail, and otherwise lets the dot
    consume one code unit other than a line terminator.  Returns the
    capture and what follows [-->]. *)
Fixpoint lazy_brace (anchored : bool) (acc : jstr) (y : jstr) : option (jstr * jstr) :=
  match y with
  | [] => None
  | ch :: y' =>
      if (ch =? 125)%N && comment_tail_ok anchored y' then
        Some (rev (ch :: acc), skipn 3 (drop_ws y'))
      else if is_line_term ch then None
      else lazy_brace anchored (ch :: acc) y'
  end.

(** An HTML comment at the start of [s]: the comment open, white space,
    [label], white space, a captured brace group taken lazily, white space,
    the comment close; anchored at the end of [s] when [anchored]. *)
Definition comment_regex (label : jstr) (anchored : bool) (s : jstr) : option (jstr * jstr) :=
  if prefixb (u "<!--") s then
    let s2 := drop_ws (skipn 4 s) in
    if prefixb label s2 then
      match drop_ws (skipn (List.length label) s2) with
      | 123%N :: y => lazy_brace anchored [123%N] y
      | _ => None
      end
    else None
  else None.

(** [METADATA_REGEX]: no label, anchored at both ends. *)
Definition METADATA_REGEX (line : jstr) : option jstr :=
  option_map fst (comment_regex [] true line).

(** [FILE_META_REGEX] with the label [prompt-canvas:], not anchored at
    the end: the capture and the text after the match. *)
Definition FILE_META_REGEX (s : jstr) : option (jstr * jstr) :=
  comment_regex (u "prompt-canvas:") false s.

(** [PROMPT_META_REGEX] with the label [prompt:], followed by an optional newline. *)
Definition PROMPT_META_REGEX (s : jstr) : option (jstr * jstr) :=
  match comment_regex (u "prompt:") false s with
  | Some (cap, 10%N :: r) => Some (cap, r)
  | Some (cap, r) => Some (cap, r)
  | None => None
  end.

(** The set and prompt comment patterns of [parseV11Format], anchored at
    both ends, with the labels [set:] and [prompt:]. *)
Definition V11_SET_REGEX (s : jstr) : option jstr :=
  option_map fst (comment_regex (u "set:") true s).

Definition V11_PROMPT_REGEX (s : jstr) : option jstr :=
  option_map fst (comment_regex (u "prompt:") true s).

(** A line of at least three dashes and nothing else. *)
Definition dash_rule (t : jstr) : bool :=
  (3 <=? List.length t) && forallb (fun c => (c =? 45)%N) t.

(** Removing the leading newlines of a string. *)
Fixpoint drop_newlines (s : jstr) : jstr :=
  match s with
  | 10%N :: s' => drop_newlines s'
  | _ => s
  end.

(** [content.split(SEPARATOR_REGEX)] for a newline, three or more
    dashes and a newline, scanning left to right: after a newline
    and a run of dashes, a newline ends a separator when the run has at
    least three dashes; otherwise the newline and the dashes stay in the
    piece and the scan goes on from the current code unit (a separator
    starts with a newline, so none starts inside the run). *)
Inductive sep_scan : Type :=
| SepText
| SepNewline
| SepDashes (k : nat).

Fixpoint split_separator_go (st : sep_scan) (piece : jstr) (s : jstr) : list jstr :=
  match s with
  | [] =>
      match st with
      | SepText => [rev piece]
      | SepNewline => [rev (10%N :: piece)]
      | SepDashes k => [rev (repeat 45%N k ++ 10%N :: piece)]
      end
  | c :: s' =>
      match st with
      | SepText =>
          if (c =? 10)%N then split_separator_go SepNewline piece s'
          else split_separator_go SepText (c :: piece) s'
      | SepNewline =>
          if (c =? 45)%N then split_separator_go (SepDashes 1) piece s'
          else if (c =? 10)%N then split_separator_go SepNewline (10%N :: piece) s'
          else split_separator_go SepText (c :: 10%N :: piece) s'
      | SepDashes k =>
          if (c =? 45)%N then split_separator_go (SepDashes (S k)) piece s'
          else if (c =? 10)%N then
            if 3 <=? k then rev piece :: split_separator_go SepText [] s'
            else split_separator_go SepNewline (repeat 45%N k ++ 10%N :: piece) s'
          else split_separator_go SepText (c :: repeat 45%N k ++ 10%N :: piece) s'
      end
  end.

Definition split_separator (s : jstr) : list jstr := split_separator_go SepText [] s.

(** Any of the six heading patterns tested by [detectV20Format]. *)
Definition any_heading (line : jstr) : bool :=
  match heading_regex 1 line, heading_regex 2 line, heading_regex 3 line with
  | None, None, None =>
      empty_heading_regex 1 line || empty_heading_regex 2 line || empty_heading_regex 3 line
  | _, _, _ => true
  end.

Fixpoint detect_pairs (lines : list jstr) : bool :=
  match lines with
  | line :: ((next :: _) as rest) =>
      (any_heading line && match METADATA_REGEX next with Some _ => true | None => false end)
      || detect_pairs rest
  | _ => false
  end.

(** [detectV20Format]. *)
Definition detectV20Format (content : jstr) : bool := detect_pairs (split_nl content).

(* ------------------------------------------------------------------ *)
(** ** Property access and exceptions *)

(** Decimal digits of a positive integer, most significant first. *)
Fixpoint digits_go (fuel : nat) (n : Z) (acc : jstr) : jstr :=
  match fuel with
  | O => acc
  | S f =>
      let acc' := (48 + Z.to_N (n mod 10))%N :: acc in
      if (n <? 10)%Z then acc' else digits_go f (n / 10) acc'
  end.

Definition z_digits (n : Z) : jstr := digits_go (Z.to_nat (Z.log2_up (n + 1)) + 1) n [].

(** [m] and [e] with the factors ten of [m] moved into [e]. *)
Fixpoint strip_tens (fuel : nat) (m e : Z) : Z * Z :=
  match fuel with
  | O => (m, e)
  | S f => if ((m mod 10 =? 0) && negb (m =? 0))%Z then strip_tens f (m / 10) (e + 1) else (m, e)
  end.

(** Number::toString of the number [m * 10^e] (for a value held exactly
    by a double): [s] the digits of the significand without trailing
    zeros, [n] the decimal exponent. *)
Definition number_to_string (m e : Z) : jstr :=
  if (m =? 0)%Z then u "0" else
  let sign := if (m <? 0)%Z then u "-" else [] in
  let '(m', e') := strip_tens (Z.to_nat (Z.log2_up (Z.abs m + 1)) + 1) (Z.abs m) e in
  let s := z_digits m' in
  let k := Z.of_nat (List.length s) in
  let n := (k + e')%Z in
  sign ++
  if ((k <=? n) && (n <=? 21))%Z then s ++ repeat 48%N (Z.to_nat (n - k))
  else if ((0 <? n) && (n <=? 21))%Z then firstn (Z.to_nat n) s ++ u "." ++ skipn (Z.to_nat n) s
  else if ((-6 <? n) && (n <=? 0))%Z then u "0." ++ repeat 48%N (Z.to_nat (- n)) ++ s
  else
    let ex := (n - 1)%Z in
    let exs := (if (ex <? 0)%Z then u "-" else u "+") ++ z_digits (Z.abs ex) in
    match s with
    | [d] => [d] ++ u "e" ++ exs
    | d :: ds => [d] ++ u "." ++ ds ++ u "e" ++ exs
    | [] => []
    end.

(** The exceptions [parse] can raise. *)
Inductive js_exn : Type :=
| TypeError.

Inductive Result (A : Type) : Type :=
| Ok (a : A)
| Throw (e : js_exn).
Arguments Ok {A} a.
Arguments Throw {A} e.

(** Binary64 values of positive magnitude: [DFin M E] is [M * 2^E] with
    [M < 2^53] (and [M >= 2^52] unless [E = -1074]); zero is
    [DFin 0 (-1074)]. *)
Inductive double : Type :=
| DFin (M E : Z)
| DInf.

Definition double_eqb (x y : double) : bool :=
  match x, y with
  | DFin M E, DFin M' E' => (M =? M')%Z && (E =? E')%Z
  | DInf, DInf => true
  | _, _ => false
  end.

(** [num / den] times [2^k], and times [10^k]. *)
Definition q_scale2 (num den k : Z) : Z * Z :=
  if (0 <=? k)%Z then (num * 2 ^ k, den)%Z else (num, den * 2 ^ (- k))%Z.

Definition q_scale10 (num den k : Z) : Z * Z :=
  if (0 <=? k)%Z then (num * 10 ^ k, den)%Z else (num, den * 10 ^ (- k))%Z.

(** [num / den] rounded to an integer, ties to even. *)
Definition round_half_even (num den : Z) : Z :=
  let q := (num / den)%Z in
  match Z.compare (2 * (num mod den)) den with
  | Lt => q
  | Gt => q + 1
  | Eq => if Z.even q then q else q + 1
  end%Z.

(** [floor (log2 (num / den))] and [floor (log10 (num / den))] for
    positive [num] and [den]. *)
Definition floor_log2 (num den : Z) : Z :=
  let t := (Z.log2 num - Z.log2 den)%Z in
  let '(a, b) := q_scale2 num den (- t) in
  if (b <=? a)%Z then t else (t - 1)%Z.

Definition floor_log10 (num den : Z) : Z :=
  let t := (Z.of_nat (List.length (z_digits num)) - Z.of_nat (List.length (z_digits den)))%Z in
  let '(a, b) := q_scale10 num den (- t) in
  if (b <=? a)%Z then t else (t - 1)%Z.

(** The double nearest to [num / den] ([num >= 0], [den > 0]), ties to
    even, with overflow to infinity. *)
Definition round_to_double (num den : Z) : double :=
  if (num =? 0)%Z then DFin 0 (-1074) else
  let t := floor_log2 num den in
  if (1024 <=? t)%Z then DInf else
  let E := Z.max (t - 52) (-1074) in
  let '(a, b) := q_scale2 num den (- E) in
  let M := round_half_even a b in
  if (M =? 2 ^ 53)%Z then (if (971 <? E + 1)%Z then DInf else DFin (2 ^ 52) (E + 1))
  else DFin M E.

(** The double nearest to [m * 10^e], [m >= 0].  Magnitudes beyond
    [10^310] overflow and below [10^-330] round to zero, which saves
    computing with their powers of ten. *)
Definition decimal_to_double (m e : Z) : double :=
  if (m =? 0)%Z then DFin 0 (-1074) else
  let L := Z.of_nat (List.length (z_digits m)) in
  if (310 <? L + e)%Z then DInf
  else if (L + e <? -330)%Z then DFin 0 (-1074)
  else if (0 <=? e)%Z then round_to_double (m * 10 ^ e) 1
  else round_to_double m (10 ^ (- e)).

(** Number::toString's choice of digits for a positive finite double
    [x = xn / xd] with [10^(n0-1) <= x < 10^n0]: the fewest digits [k]
    such that some [s * 10^(n0-k)] rounds to [x], the closer of the two
    neighbours of [x] when both do, the even one on a tie. *)
Fixpoint shortest_digits (fuel : nat) (k xn xd n0 : Z) (x : double) : Z * Z :=
  let j := (n0 - k)%Z in
  let '(a, b) := q_scale10 xn xd (- j) in
  let lo := (a / b)%Z in
  let vlo := double_eqb (decimal_to_double lo j) x in
  let vhi := double_eqb (decimal_to_double (lo + 1) j) x in
  let choice :=
    if vlo && vhi then
      match Z.compare (a - lo * b) ((lo + 1) * b - a) with
      | Lt => Some (lo, j)
      | Gt => Some (lo + 1, j)
      | Eq => if Z.even lo then Some (lo, j) else Some (lo + 1, j)
      end%Z
    else if vlo then Some (lo, j)
    else if vhi then Some ((lo + 1)%Z, j)
    else None in
  match choice with
  | Some r => r
  | None => match fuel with O => (lo, j) | S f => shortest_digits f (k + 1) xn xd n0 x end
  end.

(** ToString of the number written [m * 10^e]: the decimal is first
    rounded to a double. *)
Definition number_key (m e : Z) : jstr :=
  let sign := if (m <? 0)%Z then u "-" else [] in
  match decimal_to_double (Z.abs m) e with
  | DInf => sign ++ u "Infinity"
  | DFin M E =>
      if (M =? 0)%Z then u "0" else
      let '(xn, xd) := q_scale2 M 1 E in
      let '(s, j) := shortest_digits 16 1 xn xd (floor_log10 xn xd + 1) (DFin M E) in
      sign ++ number_to_string s j
  end.

(** ToPropertyKey of a value [JSON.parse] can return.  An object goes
    through OrdinaryToPrimitive with hint string: its [toString] is
    called if callable, then its [valueOf].  A parsed object's own
    properties are data, never callable: without an own [toString] the
    inherited one gives ["[object Object]"]; with one, the inherited
    [valueOf] returns the object itself, not a primitive, and a
    TypeError is thrown.  An array's [toString] joins the conversions of
    its elements with commas, [null] giving the empty string. *)
Fixpoint to_property_key (v : jsval) : Result jstr :=
  match v with
  | JUndef => Ok (u "undefined")
  | JNull => Ok (u "null")
  | JBool true => Ok (u "true")
  | JBool false => Ok (u "false")
  | JNum m e => Ok (number_key m e)
  | JStr s => Ok s
  | JArr xs =>
      let fix elems (xs : list jsval) : Result (list jstr) :=
        match xs with
        | [] => Ok []
        | x :: xs' =>
            match match x with JUndef | JNull => Ok [] | _ => to_property_key x end with
            | Throw e => Throw e
            | Ok s => match elems xs' with Throw e => Throw e | Ok ss => Ok (s :: ss) end
            end
        end in
      match elems xs with Ok ss => Ok (join (u ",") ss) | Throw e => Throw e end
  | JObj o =>
      if existsb (fun kv => jstr_eqb (fst kv) (u "toString")) o then Throw TypeError
      else Ok (u "[object Object]")
  end.

(** A canonical array index: decimal digits without a leading zero. *)
Definition array_index (k : jstr) : option nat :=
  match k with
  | [] => None
  | 48%N :: _ :: _ => None
  | _ =>
      if forallb is_digit k
      then Some (fold_left (fun a c => a * 10 + N.to_nat (c - 48)) k 0)
      else None
  end.

(** [o.k] on a value that is neither [undefined] nor [null], for the
    properties the parser reads: the own properties of an object, the
    elements of an array.  None of the keys read by the parser
    ([id], [group], [collapsed], ...) is a property of the prototypes,
    except through a computed key, handled in [group_collapsed]. *)
Definition get_prop (v : jsval) (k : jstr) : jsval :=
  match v with
  | JObj o => obj_get o k
  | JArr xs => match array_index k with Some i => nth i xs JUndef | None => JUndef end
  | _ => JUndef
  end.

(** The properties of an object, when JSON.parse returned one (the
    captures handed to JSON.parse begin with a brace, so a successful
    parse always yields an object). *)
Definition as_obj (v : jsval) : obj := match v with JObj o => o | _ => [] end.

(** [fileMetadata.groups[g]?.collapsed]: the key is [ToPropertyKey(g)],
    which may throw; indexing [undefined] or [null] throws.  A key naming
    a member of [Object.prototype] or [String.prototype] reads a function
    or a number, whose [collapsed] is [undefined] like that of a missing
    property. *)
Definition group_collapsed (groups : jsval) (g : jsval) : Result jsval :=
  match to_property_key g with
  | Throw e => Throw e
  | Ok k =>
      match groups with
      | JUndef | JNull => Throw TypeError
      | JObj o =>
          match obj_get o k with
          | JUndef | JNull => Ok JUndef
          | w => Ok (get_prop w (u "collapsed"))
          end
      | JArr xs =>
          match get_prop (JArr xs) k with
          | JUndef | JNull => Ok JUndef
          | w => Ok (get_prop w (u "collapsed"))
          end
      | _ => Ok JUndef
      end
  end.

(* ------------------------------------------------------------------ *)
(** ** The parser *)

(** The objects [parse] builds: sets, sessions and prompt metadata are
    plain objects whose fields hold whatever the metadata comments gave
    (the casts of the source are not checked), and a prompt is
    [{ id, content, metadata }]. *)
Record ParsedPrompt : Type := mkParsedPrompt {
  pp_id : jsval;
  pp_content : jstr;
  pp_metadata : obj
}.

Record ParsedDocument : Type := mkParsedDocument {
  pd_fileMetadata : obj;
  pd_sets : list obj;
  pd_sessions : list obj;
  pd_prompts : list ParsedPrompt;
  pd_trailingNewline : bool
}.

(** [x.trim() === ''] *)
Definition blank (x : jstr) : bool := match trim x with [] => true | _ => false end.

Fixpoint drop_blank (ls : list jstr) : list jstr :=
  match ls with
  | l :: ls' => if blank l then drop_blank ls' else ls
  | [] => []
  end.

(** The two trimming loops of [saveCurrentPrompt] and [savePrompt]:
    trailing blank lines first, then leading ones. *)
Definition trim_blank_lines (ls : list jstr) : list jstr := drop_blank (rev (drop_blank (rev ls))).

(** [sets.some(s => s.active)] and [sets[0].active = true]. *)
Definition ensure_active (sets : list obj) : list obj :=
  match sets with
  | [] => []
  | s0 :: rest =>
      if existsb (fun s => truthy (obj_get s (u "active"))) sets then sets
      else obj_set s0 (u "active") (JBool true) :: rest
  end.

(** [hN[1]?.trim() || undefined] for a line matched by the [n]-hash
    heading pattern or by its empty variant; [None] when neither
    matches. *)
Definition heading_match (n : nat) (line : jstr) : option jsval :=
  match heading_regex n line with
  | Some x => Some (match trim x with [] => JUndef | t => JStr t end)
  | None => if empty_heading_regex n line then Some JUndef else None
  end.

(** The metadata comment on the line after a heading, when it matches
    [METADATA_REGEX] and its JSON parses; the line is then skipped. *)
Definition read_meta (next : option jstr) : option obj :=
  match next with
  | Some l =>
      match METADATA_REGEX l with
      | Some cap => option_map as_obj (json_parse cap)
      | None => None
      end
  | None => None
  end.

Section Parser.

(** [nanoid()] returns [nanoid k] at its [k]-th call, and the clock reads
    [now]. *)
Variable nanoid : nat -> jstr.
Variable now : jstr.

(** The local state of [parseV20Format]; [null] is [JNull]. *)
Record V20State : Type := mkV20 {
  v_sets : list obj;
  v_sessions : list obj;
  v_prompts : list ParsedPrompt;
  v_setId : jsval;
  v_sessionId : jsval;
  v_prompt : option (jsval * obj);
  v_buf : list jstr;
  v_next : nat
}.

Definition v20_init : V20State := mkV20 [] [] [] JNull JNull None [] 0.

(** [saveCurrentPrompt]. *)
Definition saveCurrentPrompt (st : V20State) : V20State :=
  match v_prompt st with
  | Some (pid, md) =>
      if truthy pid then
        let body := demoteContentHeadings (join [10%N] (trim_blank_lines (v_buf st))) in
        mkV20 (v_sets st) (v_sessions st)
          (v_prompts st ++ [mkParsedPrompt pid body md])
          (v_setId st) (v_sessionId st) None [] (v_next st)
      else st
  | None => st
  end.

(** [ensureSet]. *)
Definition ensureSet (st : V20State) : jsval * V20State :=
  if truthy (v_setId st) then (v_setId st, st)
  else
    let setId := JStr (nanoid (v_next st)) in
    (setId,
     mkV20 (v_sets st ++ [[(u "id", setId); (u "active", JBool true);
                           (u "collapsed", JBool false); (u "created", JStr now)]])
       (v_sessions st) (v_prompts st) setId (v_sessionId st) (v_prompt st) (v_buf st)
       (S (v_next st))).

(** One line of the loop of [parseV20Format], given the line after it;
    the flag tells whether that next line was consumed as metadata. *)
Definition v20_line (st0 : V20State) (line : jstr) (next : option jstr) : V20State * bool :=
  let '(md, skip) := match read_meta next with Some o => (o, true) | None => ([], false) end in
  match heading_match 1 line with
  | Some name =>
      let st := saveCurrentPrompt st0 in
      let setId := JStr (nanoid (v_next st)) in
      let the_set :=
        [(u "id", js_or (obj_get md (u "id")) setId);
         (u "name", name);
         (u "active", js_coalesce (obj_get md (u "active"))
                        (JBool (List.length (v_sets st) =? 0)));
         (u "collapsed", js_coalesce (obj_get md (u "collapsed")) (JBool false));
         (u "created", js_or (obj_get md (u "created")) (JStr now));
         (u "folderLink", obj_get md (u "folderLink"))] in
      (mkV20 (v_sets st ++ [the_set]) (v_sessions st) (v_prompts st)
         (js_or (obj_get md (u "id")) setId) JNull (v_prompt st) (v_buf st)
         (S (v_next st)), skip)
  | None =>
  match heading_match 2 line with
  | Some name =>
      let st1 := saveCurrentPrompt st0 in
      let sessionId := JStr (nanoid (v_next st1)) in
      let st2 := mkV20 (v_sets st1) (v_sessions st1) (v_prompts st1) (v_setId st1)
                   (v_sessionId st1) (v_prompt st1) (v_buf st1) (S (v_next st1)) in
      let '(setId, st) := ensureSet st2 in
      let the_session :=
        [(u "id", js_or (obj_get md (u "id")) sessionId);
         (u "name", name);
         (u "setId", setId);
         (u "collapsed", obj_get md (u "collapsed"))] in
      (mkV20 (v_sets st) (v_sessions st ++ [the_session]) (v_prompts st) (v_setId st)
         (js_or (obj_get md (u "id")) sessionId) (v_prompt st) (v_buf st) (v_next st), skip)
  | None =>
  match heading_match 3 line with
  | Some name =>
      let st1 := saveCurrentPrompt st0 in
      let promptId := JStr (nanoid (v_next st1)) in
      let st2 := mkV20 (v_sets st1) (v_sessions st1) (v_prompts st1) (v_setId st1)
                   (v_sessionId st1) (v_prompt st1) (v_buf st1) (S (v_next st1)) in
      let '(setId, st) := ensureSet st2 in
      let pid := js_or (obj_get md (u "id")) promptId in
      let meta :=
        [(u "id", pid);
         (u "name", name);
         (u "setId", setId);
         (u "sessionId", js_or (v_sessionId st) JUndef);
         (u "status", js_or (obj_get md (u "status")) (JStr (u "queue")));
         (u "created", js_or (obj_get md (u "created")) (JStr now));
         (u "updated", obj_get md (u "updated"));
         (u "folderLink", obj_get md (u "folderLink"));
         (u "claudeSessionId", obj_get md (u "claudeSessionId"));
         (u "claudeMessageId", obj_get md (u "claudeMessageId"));
         (u "executedAt", obj_get md (u "executedAt"));
         (u "responsePreview", obj_get md (u "responsePreview"))] in
      (mkV20 (v_sets st) (v_sessions st) (v_prompts st) (v_setId st) (v_sessionId st)
         (Some (pid, meta)) [] (v_next st), skip)
  | None =>
      if dash_rule (trim line) then (st0, false)
      else
        match v_prompt st0 with
        | Some _ =>
            (mkV20 (v_sets st0) (v_sessions st0) (v_prompts st0) (v_setId st0)
               (v_sessionId st0) (v_prompt st0) (v_buf st0 ++ [line]) (v_next st0), false)
        | None => (st0, false)
        end
  end end end.

Fixpoint v20_loop (st : V20State) (lines : list jstr) : V20State :=
  match lines with
  | [] => st
  | line :: rest =>
      let '(st', skip) := v20_line st line (hd_error rest) in
      if skip then
        match rest with
        | _ :: rest' => v20_loop st' rest'
        | [] => st'
        end
      else v20_loop st' rest
  end.

(** [parseV20Format]: sets, sessions, prompts and the next [nanoid]
    call. *)
Definition parseV20Format (content : jstr) : list obj * list obj * list ParsedPrompt * nat :=
  let st := saveCurrentPrompt (v20_loop v20_init (split_nl content)) in
  (ensure_active (v_sets st), v_sessions st, v_prompts st, v_next st).

(** [savePrompt]: the prompts and the next [nanoid] call. *)
Definition savePrompt (jsonStr : jstr) (contentLines : list jstr)
    (prompts : list ParsedPrompt) (n : nat) : list ParsedPrompt * nat :=
  match json_parse jsonStr with
  | None => (prompts, n)
  | Some v =>
      let md0 := as_obj v in
      let '(md, n') :=
        if truthy (obj_get md0 (u "id")) then (md0, n)
        else (obj_set md0 (u "id") (JStr (nanoid n)), S n) in
      (prompts ++ [mkParsedPrompt (obj_get md (u "id"))
                     (join [10%N] (trim_blank_lines contentLines)) md], n')
  end.

(** The local state of [parseV11Format]. *)
Record V11State : Type := mkV11 {
  w_sets : list obj;
  w_prompts : list ParsedPrompt;
  w_json : option jstr;
  w_inPrompt : bool;
  w_buf : list jstr;
  w_next : nat
}.

(** [inPrompt && currentPromptJson]. *)
Definition pending (st : V11State) : bool :=
  w_inPrompt st && match w_json st with Some (_ :: _) => true | _ => false end.

(** The defaults [parseV11Format] gives a set read from JSON. *)
Definition v11_set_defaults (sd : obj) : obj :=
  let sd1 := if truthy (obj_get sd (u "created")) then sd
             else obj_set sd (u "created") (JStr now) in
  let sd2 := match obj_get sd1 (u "active") with
             | JUndef => obj_set sd1 (u "active") (JBool false)
             | _ => sd1 end in
  match obj_get sd2 (u "collapsed") with
  | JUndef => obj_set sd2 (u "collapsed") (JBool false)
  | _ => sd2
  end.

Definition v11_line (st : V11State) (line : jstr) : V11State :=
  let t := trim line in
  match V11_SET_REGEX t with
  | Some cap =>
      let st1 :=
        if pending st then
          match w_json st with
          | Some js =>
              let '(ps, n) := savePrompt js (w_buf st) (w_prompts st) (w_next st) in
              mkV11 (w_sets st) ps None false [] n
          | None => st
          end
        else st in
      match json_parse cap with
      | Some v =>
          mkV11 (w_sets st1 ++ [v11_set_defaults (as_obj v)]) (w_prompts st1) (w_json st1)
            (w_inPrompt st1) (w_buf st1) (w_next st1)
      | None => st1
      end
  | None =>
  match V11_PROMPT_REGEX t with
  | Some cap =>
      let st1 :=
        if pending st then
          match w_json st with
          | Some js =>
              let '(ps, n) := savePrompt js (w_buf st) (w_prompts st) (w_next st) in
              mkV11 (w_sets st) ps (w_json st) (w_inPrompt st) [] n
          | None => st
          end
        else st in
      mkV11 (w_sets st1) (w_prompts st1) (Some cap) true (w_buf st1) (w_next st1)
  | None =>
      if dash_rule t then st
      else if w_inPrompt st then
        mkV11 (w_sets st) (w_prompts st) (w_json st) (w_inPrompt st) (w_buf st ++ [line]) (w_next st)
      else st
  end end.

(** [parseV11Format]: sets, prompts and the next [nanoid] call. *)
Definition parseV11Format (content : jstr) : list obj * list ParsedPrompt * nat :=
  let st := fold_left v11_line (split_nl content) (mkV11 [] [] None false [] 0) in
  let '(ps, n) :=
    if pending st then
      match w_json st with
      | Some js => savePrompt js (w_buf st) (w_prompts st) (w_next st)
      | None => (w_prompts st, w_next st)
      end
    else (w_prompts st, w_next st) in
  (ensure_active (w_sets st), ps, n).

(** The metadata [parseV10Format] makes for a segment without a usable
    comment. *)
Definition v10_default_meta (n : nat) : obj :=
  [(u "id", JStr (nanoid n)); (u "status", JStr (u "queue")); (u "created", JStr now)].

(** One segment of [parseV10Format]; [fileMetadata] is the file-level
    metadata as parsed. *)
Definition v10_segment (fileMetadata : jsval) (defaultSetId : jstr)
    (acc : list obj * list ParsedPrompt * nat) (segment : jstr)
    : Result (list obj * list ParsedPrompt * nat) :=
  let '(sets, prompts, n0) := acc in
  let trimmed := trim segment in
  match trimmed with
  | [] => Ok acc
  | _ =>
      let '(md0, promptContent, n1) :=
        match PROMPT_META_REGEX trimmed with
        | Some (cap, after) =>
            match json_parse cap with
            | Some v => (as_obj v, after, n0)
            | None => (v10_default_meta n0, trimmed, S n0)
            end
        | None => (v10_default_meta n0, trimmed, S n0)
        end in
      let '(md1, n2) :=
        if truthy (obj_get md0 (u "id")) then (md0, n1)
        else (obj_set md0 (u "id") (JStr (nanoid n1)), S n1) in
      let group := obj_get md1 (u "group") in
      let push sets' md n := Ok (sets', prompts ++ [mkParsedPrompt (obj_get md (u "id")) promptContent md], n) in
      if truthy group then
        match find (fun s => strict_eqb (obj_get s (u "name")) group) sets with
        | Some groupSet => push sets (obj_set md1 (u "setId") (obj_get groupSet (u "id"))) n2
        | None =>
            let groupSetId := JStr (nanoid n2) in
            match group_collapsed (get_prop fileMetadata (u "groups")) group with
            | Throw e => Throw e
            | Ok c =>
                let groupSet :=
                  [(u "id", groupSetId); (u "name", group); (u "active", JBool false);
                   (u "collapsed", js_coalesce c (JBool false)); (u "created", JStr now)] in
                push (sets ++ [groupSet]) (obj_set md1 (u "setId") groupSetId) (S n2)
            end
        end
      else push sets (obj_set md1 (u "setId") (JStr defaultSetId)) n2
  end.

Fixpoint v10_loop (fileMetadata : jsval) (defaultSetId : jstr)
    (acc : list obj * list ParsedPrompt * nat) (segments : list jstr)
    : Result (list obj * list ParsedPrompt * nat) :=
  match segments with
  | [] => Ok acc
  | seg :: segs =>
      match v10_segment fileMetadata defaultSetId acc seg with
      | Ok acc' => v10_loop fileMetadata defaultSetId acc' segs
      | Throw e => Throw e
      end
  end.

(** [parseV10Format]. *)
Definition parseV10Format (content : jstr) (fileMetadata : jsval)
    : Result (list obj * list ParsedPrompt * nat) :=
  let defaultSetId := nanoid 0 in
  let sets := [[(u "id", JStr defaultSetId); (u "active", JBool true);
                (u "collapsed", JBool false); (u "created", JStr now)]] in
  match v10_loop fileMetadata defaultSetId (sets, [], 1) (split_separator content) with
  | Ok (sets', prompts, n) => Ok (ensure_active sets', prompts, n)
  | Throw e => Throw e
  end.

(** The file-level metadata [parse] starts from. *)
Definition default_file_meta : jsval :=
  JObj [(u "version", JStr (u "1.0")); (u "groups", JObj [])].

(** The first step of [parse]: the file-level metadata and the content
    after its comment. *)
Definition extract_file_meta (text : jstr) : jsval * jstr :=
  match FILE_META_REGEX text with
  | Some (cap, after) =>
      (match json_parse cap with Some v => v | None => default_file_meta end,
       drop_newlines after)
  | None => (default_file_meta, text)
  end.

(** [parse]: a document, or the exception it raises. *)
Definition parse (text : jstr) : Result ParsedDocument :=
  let '(fileMetadata, content) := extract_file_meta text in
  let fm := obj_set (as_obj fileMetadata) (u "version") (JStr (u "2.0")) in
  let trailingNewline := ends_with text [10%N] in
  if blank content then Ok (mkParsedDocument fm [] [] [] trailingNewline)
  else if detectV20Format content then
    let '(sets, sessions, prompts, _) := parseV20Format content in
    Ok (mkParsedDocument fm sets sessions prompts trailingNewline)
  else if includes content (u "<!-- set:") then
    let '(sets, prompts, _) := parseV11Format content in
    Ok (mkParsedDocument fm sets [] prompts trailingNewline)
  else
    match parseV10Format content fileMetadata with
    | Ok (sets, prompts, _) => Ok (mkParsedDocument fm sets [] prompts trailingNewline)
    | Throw e => Throw e
    end.

End Parser.

(* ------------------------------------------------------------------ *)
(** ** The serializer *)

(** The interfaces of [types.ts]; an optional field is an [option]. *)
Record GroupMetadata : Type := mkGroupMetadata {
  gm_name : option jstr;
  gm_collapsed : bool
}.

Record FileMetadata : Type := mkFileMetadata {
  fm_version : jstr;
  fm_groups : list (jstr * GroupMetadata)
}.

Record PromptSet : Type := mkPromptSet {
  ps_id : jstr;
  ps_name : option jstr;
  ps_active : bool;
  ps_collapsed : bool;
  ps_created : jstr;
  ps_folderLink : option jstr
}.

Record Session : Type := mkSession {
  se_id : jstr;
  se_name : option jstr;
  se_setId : jstr;
  se_collapsed : option bool
}.

Inductive PromptStatus : Type :=
| Queue
| Active
| Done
| Trash.

Definition status_string (st : PromptStatus) : jstr :=
  match st with
  | Queue => u "queue"
  | Active => u "active"
  | Done => u "done"
  | Trash => u "trash"
  end.

Record PromptMetadata : Type := mkPromptMetadata {
  pm_id : jstr;
  pm_name : option jstr;
  pm_setId : option jstr;
  pm_sessionId : option jstr;
  pm_group : option jstr;
  pm_status : PromptStatus;
  pm_created : jstr;
  pm_updated : option jstr;
  pm_folderLink : option jstr;
  pm_claudeSessionId : option jstr;
  pm_claudeMessageId : option jstr;
  pm_executedAt : option jstr;
  pm_responsePreview : option jstr
}.

Record Prompt : Type := mkPrompt {
  p_id : jstr;
  p_content : jstr;
  p_metadata : PromptMetadata
}.

Record PromptDocument : Type := mkPromptDocument {
  d_fileMetadata : FileMetadata;
  d_sets : list PromptSet;
  d_sessions : list Session;
  d_prompts : list Prompt;
  d_trailingNewline : bool
}.

(** Truthiness of an optional string, and [x || ''] / [x || null]. *)
Definition ostr_truthy (o : option jstr) : bool :=
  match o with Some (_ :: _) => true | _ => false end.

Definition or_empty (o : option jstr) : jstr :=
  match o with Some s => s | None => [] end.

Definition session_key (p : Prompt) : option jstr :=
  if ostr_truthy (pm_sessionId (p_metadata p)) then pm_sessionId (p_metadata p) else None.

Definition ostr_eqb (a b : option jstr) : bool :=
  match a, b with
  | Some x, Some y => jstr_eqb x y
  | None, None => true
  | _, _ => false
  end.

(** [prompt.metadata.setId = v]. *)
Definition set_prompt_setId (p : Prompt) (v : jstr) : Prompt :=
  let m := p_metadata p in
  mkPrompt (p_id p) (p_content p)
    (mkPromptMetadata (pm_id m) (pm_name m) (Some v) (pm_sessionId m) (pm_group m)
       (pm_status m) (pm_created m) (pm_updated m) (pm_folderLink m)
       (pm_claudeSessionId m) (pm_claudeMessageId m) (pm_executedAt m)
       (pm_responsePreview m)).

(** A field added to a metadata object when its value is truthy. *)
Definition opt_field (k : jstr) (o : option jstr) : list (jstr * metaval) :=
  match o with Some v => if ostr_truthy o then [(k, MStr v)] else [] | None => [] end.

Definition meta_comment (o : list (jstr * metaval)) : jstr :=
  u "<!-- " ++ json_stringify o ++ u " -->".

Definition set_meta (s : PromptSet) : list (jstr * metaval) :=
  [(u "id", MStr (ps_id s)); (u "active", MBool (ps_active s))]
  ++ (if ps_collapsed s then [(u "collapsed", MBool true)] else [])
  ++ opt_field (u "folderLink") (ps_folderLink s)
  ++ opt_field (u "created") (Some (ps_created s)).

Definition session_meta (se : Session) : list (jstr * metaval) :=
  [(u "id", MStr (se_id se))]
  ++ (match se_collapsed se with Some true => [(u "collapsed", MBool true)] | _ => [] end).

Definition prompt_meta (p : Prompt) : list (jstr * metaval) :=
  let m := p_metadata p in
  [(u "id", MStr (p_id p)); (u "status", MStr (status_string (pm_status m)))]
  ++ opt_field (u "created") (Some (pm_created m))
  ++ opt_field (u "updated") (pm_updated m)
  ++ opt_field (u "folderLink") (pm_folderLink m)
  ++ opt_field (u "claudeSessionId") (pm_claudeSessionId m)
  ++ opt_field (u "claudeMessageId") (pm_claudeMessageId m)
  ++ opt_field (u "executedAt") (pm_executedAt m)
  ++ opt_field (u "responsePreview") (pm_responsePreview m).

(** [promptStr] of one prompt. *)
Definition render_prompt (p : Prompt) : jstr :=
  u "### " ++ or_empty (pm_name (p_metadata p))
  ++ [10%N] ++ meta_comment (prompt_meta p)
  ++ (match p_content p with [] => [] | c => [10%N] ++ promoteContentHeadings c end).

Section Serializer.

(** The id [nanoid()] returns for the synthesized set, and the clock. *)
Variable defaultSetId : jstr.
Variable now : jstr.
Variable doc : PromptDocument.

Definition orphanPrompts : list Prompt :=
  filter (fun p => negb (ostr_truthy (pm_setId (p_metadata p)))) (d_prompts doc).

Definition defaultSet : PromptSet :=
  mkPromptSet defaultSetId None (match d_sets doc with [] => true | _ => false end) false now None.

Definition setsToWrite : list PromptSet :=
  d_sets doc ++ (match orphanPrompts with [] => [] | _ => [defaultSet] end).

(** [doc.prompts] after the loop over the orphans: the metadata objects
    are updated in place, so every holder of a prompt sees the change. *)
Definition prompts_after : list Prompt :=
  map (fun p => if ostr_truthy (pm_setId (p_metadata p)) then p
                else set_prompt_setId p defaultSetId) (d_prompts doc).

(** [promptsBySetAndSession.get(sid)?.get(key)]: the prompts pushed by
    the first loop, then the orphans pushed under the key [null]. *)
Definition bucket (sid : jstr) (key : option jstr) : list Prompt :=
  filter (fun p => ostr_eqb (pm_setId (p_metadata p)) (Some sid) && ostr_eqb (session_key p) key)
    (filter (fun p => ostr_truthy (pm_setId (p_metadata p))) (d_prompts doc))
  ++ (match key with
      | None => if jstr_eqb sid defaultSetId
                then map (fun p => set_prompt_setId p defaultSetId) orphanPrompts else []
      | Some _ => []
      end).

(** All the prompts of [promptsBySetAndSession.get(sid)]; the set is
    skipped when there are none. *)
Definition set_prompts (sid : jstr) : list Prompt :=
  filter (fun p => ostr_eqb (pm_setId (p_metadata p)) (Some sid))
    (filter (fun p => ostr_truthy (pm_setId (p_metadata p))) (d_prompts doc))
  ++ (if jstr_eqb sid defaultSetId
      then map (fun p => set_prompt_setId p defaultSetId) orphanPrompts else []).

(** [sessionIds] of a set. *)
Definition sessionIds (sid : jstr) : list (option jstr) :=
  (match bucket sid None with [] => [] | _ => [None] end)
  ++ flat_map (fun se => if jstr_eqb (se_setId se) sid
                          then match bucket sid (Some (se_id se)) with [] => [] | _ => [Some (se_id se)] end
                          else []) (d_sessions doc).

(** [sessionsById.get(id)]: a later session with the same id replaces an
    earlier one in the map. *)
Definition sessionsById (id : jstr) : option Session :=
  find (fun se => jstr_eqb (se_id se) id) (rev (d_sessions doc)).

(** The entries a session group adds to [setOutput]. *)
Definition render_group (sid : jstr) (key : option jstr) : list jstr :=
  match bucket sid key with
  | [] => []
  | sessionPrompts =>
      (match key with
       | Some k =>
           if ostr_truthy key then
             match sessionsById k with
             | Some se =>
                 [u "## " ++ or_empty (se_name se); meta_comment (session_meta se) ++ [10%N]]
             | None => []
             end
           else []
       | None => []
       end)
      ++ [join (u "~~") (map render_prompt sessionPrompts)]
  end.

(** [setOutput.join('\n')] of a set, unless the set is skipped. *)
Definition render_set (set : PromptSet) : option jstr :=
  match set_prompts (ps_id set) with
  | [] => None
  | _ =>
      Some (join [10%N]
              ([u "# " ++ or_empty (ps_name set); meta_comment (set_meta set) ++ [10%N]]
               ++ flat_map (render_group (ps_id set)) (sessionIds (ps_id set))))
  end.

(** The sets written, each with its entry of [setOutputs]. *)
Definition set_blocks : list (PromptSet * jstr) :=
  flat_map (fun s => match render_set s with Some b => [(s, b)] | None => [] end) setsToWrite.

(** The prompts in the order their blocks appear in the output. *)
Definition rendered_prompts : list Prompt :=
  flat_map (fun s => match set_prompts (ps_id s) with
                     | [] => []
                     | _ => flat_map (bucket (ps_id s)) (sessionIds (ps_id s))
                     end) setsToWrite.

Definition file_header : jstr := u "<!-- prompt-canvas: {'version':'2.0'} -->~".

Definition serialize_text : jstr :=
  let result := join [10%N] [file_header; join (u "~~") (map snd set_blocks)] in
  if d_trailingNewline doc || (0 <? List.length (d_prompts doc)) then
    if ends_with result [10%N] then result else result ++ [10%N]
  else result.

(** [serialize(doc)]: the text, and [doc.prompts] as the call leaves
    them. *)
Definition serialize : jstr * list Prompt := (serialize_text, prompts_after).

End Serializer.

(* ------------------------------------------------------------------ *)
(** ** Folder links *)

(** [\w] without the [u] flag: ASCII letters, digits and [_]. *)
Definition is_word_char (c : N) : bool :=
  (is_digit c || ((65 <=? c) && (c <=? 90)) || ((97 <=? c) && (c <=? 122)) || (c =? 95))%N.

(** The class [[\w-]]. *)
Definition folder_run_char (c : N) : bool := (is_word_char c || (c =? 45))%N.

Fixpoint take_while (p : N -> bool) (s : jstr) : jstr :=
  match s with
  | c :: s' => if p c then c :: take_while p s' else []
  | [] => []
  end.

(** The part of [FOLDER_LINK_REGEX] after [scratch\/], tried at the
    start of [r]: [\d{4}-\d{2}-\d{2}-[\w-]+\/?].  The greedy [[\w-]+]
    takes the longest run, and whatever follows it, [\/?] matches; so no
    backtracking changes the match. *)
Definition folder_link_tail (r : jstr) : option jstr :=
  match r with
  | y1 :: y2 :: y3 :: y4 :: h1 :: m1 :: m2 :: h2 :: d1 :: d2 :: h3 :: rest =>
      if forallb is_digit [y1; y2; y3; y4; m1; m2; d1; d2]
         && forallb (N.eqb 45) [h1; h2; h3] then
        match take_while folder_run_char rest with
        | [] => None
        | run =>
            Some ([y1; y2; y3; y4; h1; m1; m2; h2; d1; d2; h3] ++ run ++
                  match skipn (List.length run) rest with
                  | c :: _ => if (c =? 47)%N then [47%N] else []
                  | [] => []
                  end)
        end
      else None
  | _ => None
  end.

(** [FOLDER_LINK_REGEX] tried at the start of [s]. *)
Definition folder_link_at (s : jstr) : option jstr :=
  if prefixb (u "scratch/") s then
    option_map (fun t => u "scratch/" ++ t) (folder_link_tail (skipn 8 s))
  else None.

(** [content.match(FOLDER_LINK_REGEX)]: the match at the leftmost
    position where there is one. *)
Fixpoint folder_link_search (s : jstr) : option jstr :=
  match folder_link_at s with
  | Some m => Some m
  | None => match s with [] => None | _ :: s' => folder_link_search s' end
  end.

(** [detectFolderLink]: [match[0]], or [undefined] as [None]. *)
Definition detectFolderLink (content : jstr) : option jstr := folder_link_search content.

(* ------------------------------------------------------------------ *)
(** ** Vocabulary of the properties *)

(** The content left after the file-level comment reaches
    [parseV10Format]. *)
Definition v10_path (text : jstr) : bool :=
  let content := snd (extract_file_meta text) in
  negb (blank content) && negb (detectV20Format content)
  && negb (includes content (u "<!-- set:")).

(** The sets collected by the format parser [parse] selects, before the
    parser's last step on [active]; [None] when [parseV10Format] throws.
    For blank content no parser runs and there is no set. *)
Definition sets_before_activation (nanoid : nat -> jstr) (now text : jstr) : option (list obj) :=
  let '(fm, content) := extract_file_meta text in
  if blank content then Some []
  else if detectV20Format content then
    Some (v_sets (saveCurrentPrompt (v20_loop nanoid now v20_init (split_nl content))))
  else if includes content (u "<!-- set:") then
    Some (w_sets (fold_left (v11_line nanoid now) (split_nl content) (mkV11 [] [] None false [] 0)))
  else
    match v10_loop nanoid now fm (nanoid 0)
            ([[(u "id", JStr (nanoid 0)); (u "active", JBool true);
               (u "collapsed", JBool false); (u "created", JStr now)]], [], 1)
            (split_separator content) with
    | Ok (sets, _, _) => Some sets
    | Throw _ => None
    end.

(** The content [parseV10Format] keeps for a trimmed segment. *)
Definition segment_content (t : jstr) : jstr :=
  match PROMPT_META_REGEX t with
  | Some (cap, after) => match json_parse cap with Some _ => after | None => t end
  | None => t
  end.

(** The contents of the prompts of the non-blank segments, in order. *)
Definition segment_contents (segs : list jstr) : list jstr :=
  flat_map (fun seg => match trim seg with [] => [] | t => [segment_content t] end) segs.

(** The [group] of the metadata comment of a segment. *)
Definition segment_group (seg : jstr) : jsval :=
  match PROMPT_META_REGEX (trim seg) with
  | Some (cap, _) => match json_parse cap with Some v => obj_get (as_obj v) (u "group") | None => JUndef end
  | None => JUndef
  end.

(** The set [parseV10Format] creates up front. *)
Definition v10_default_set (now sid : jstr) : obj :=
  [(u "id", JStr sid); (u "active", JBool true); (u "collapsed", JBool false); (u "created", JStr now)].

(** Set and prompt fields compared by the round trip. *)
Definition set_view (s : obj) : jsval * jsval * jsval * jsval :=
  (obj_get s (u "id"), obj_get s (u "name"), obj_get s (u "active"), obj_get s (u "collapsed")).

Definition prompt_view (p : ParsedPrompt) : jsval * jstr * jsval :=
  (pp_id p, pp_content p, obj_get (pp_metadata p) (u "status")).

Definition typed_set_view (s : PromptSet) : jsval * jsval * jsval * jsval :=
  (JStr (ps_id s), match ps_name s with Some n => JStr n | None => JUndef end,
   JBool (ps_active s), JBool (ps_collapsed s)).

Definition typed_prompt_view (p : Prompt) : jsval * jstr * jsval :=
  (JStr (p_id p), p_content p, JStr (status_string (pm_status (p_metadata p)))).

(** Ids for concrete runs: the [k]-th call of [nanoid] returns [idk]. *)
Definition sample_ids (k : nat) : jstr := u "id" ++ z_digits (Z.of_nat k).

(** The legacy file of the C8 report: a file comment without [groups]
    and one prompt with a [group]. *)
Definition c8_input : jstr :=
  u "<!-- prompt-canvas: {'version':'1.0'} -->~<!-- prompt: {'id':'a','group':'g'} -->~Hello".

(** The v2.0 file of the C2 report: two sets marked active. *)
Definition c2_input : jstr :=
  u "# A~<!-- {'id':'a','active':true} -->~### P~<!-- {'id':'p'} -->~x~# B~<!-- {'id':'b','active':true} -->~### Q~<!-- {'id':'q'} -->~y".

(** A v2.0 file with two sets, neither marked active. *)
Definition c2_no_active_input : jstr :=
  u "# A~<!-- {'id':'a'} -->~### P~<!-- {'id':'p'} -->~x~# B~<!-- {'id':'b'} -->~### Q~<!-- {'id':'q'} -->~y".

(** A legacy file whose prompt carries an empty [group]. *)
Definition c4_input : jstr := u "<!-- prompt: {'id':'a','group':''} -->~Hello".

(** A legacy file whose four prompts name two groups and the empty group. *)
Definition c4_grouped_input : jstr :=
  u "<!-- prompt: {'id':'a','group':'g'} -->~One~---~<!-- prompt: {'id':'b','group':'h'} -->~Two~---~<!-- prompt: {'id':'c','group':'g'} -->~Three~---~<!-- prompt: {'id':'d','group':''} -->~Four".

(** Small documents for concrete runs of [serialize]. *)
Definition sample_meta (id : jstr) (setId sessionId : option jstr) : PromptMetadata :=
  mkPromptMetadata id None setId sessionId None Queue [] None None None None None None.

Definition sample_prompt (id content : jstr) (setId sessionId : option jstr) : Prompt :=
  mkPrompt id content (sample_meta id setId sessionId).

Definition sample_set (id : jstr) (active : bool) : PromptSet :=
  mkPromptSet id None active false [] None.

Definition sample_doc (sets : list PromptSet) (sessions : list Session) (prompts : list Prompt)
  : PromptDocument :=
  mkPromptDocument (mkFileMetadata (u "2.0") []) sets sessions prompts true.

(** A document in v2.0 shape whose prompts alternate between two sets. *)
Definition c1_doc : PromptDocument :=
  sample_doc [sample_set (u "A") true; sample_set (u "B") false] []
    [sample_prompt (u "p1") (u "one") (Some (u "A")) None;
     sample_prompt (u "p2") (u "two") (Some (u "B")) None;
     sample_prompt (u "p3") (u "three") (Some (u "A")) None].

(** The object [JSON.parse] builds from [json_stringify o]. *)
Definition metaval_js (v : metaval) : jsval :=
  match v with MStr s => JStr s | MBool b => JBool b end.

Definition meta_obj (o : list (jstr * metaval)) : obj :=
  map (fun kv => (fst kv, metaval_js (snd kv))) o.

Definition json_member (kv : jstr * metaval) : jstr :=
  json_quote (fst kv) ++ [58%N] ++ stringify_metaval (snd kv).

(** Strings without line terminators, and strings without the two line
    terminators that [JSON.stringify] leaves unescaped (LS and PS). *)
Definition line_free (s : jstr) : bool := forallb (fun c => negb (is_line_term c)) s.

Definition ls_free (s : jstr) : bool :=
  forallb (fun c => negb ((c =? 8232) || (c =? 8233))%N) s.

(** The prompts of a bucket, as one filter over [doc.prompts]. *)
Definition bucket_pred (sid : jstr) (key : option jstr) (q : Prompt) : bool :=
  ostr_truthy (pm_setId (p_metadata q))
  && (ostr_eqb (pm_setId (p_metadata q)) (Some sid) && ostr_eqb (session_key q) key).

Definition set_pred (sid : jstr) (q : Prompt) : bool :=
  ostr_truthy (pm_setId (p_metadata q)) && ostr_eqb (pm_setId (p_metadata q)) (Some sid).

(** The invariant of the v1.0 loop over grouped segments: after the
    default set come the group sets, with pairwise different names, each
    prompt points at the set named by its [group], and each group set is
    named by the [group] of some prompt. *)
Definition grouped_inv (dsid : jstr) (gs : list obj) (prompts : list ParsedPrompt) : Prop :=
  NoDup (map (fun s => obj_get s (u "name")) gs) /\
  (forall p, In p prompts ->
     (obj_get (pp_metadata p) (u "group") = JStr [] /\
      obj_get (pp_metadata p) (u "setId") = JStr dsid) \/
     (obj_get (pp_metadata p) (u "group") <> JStr [] /\
      exists s, In s gs /\
        obj_get s (u "name") = obj_get (pp_metadata p) (u "group") /\
        obj_get (pp_metadata p) (u "setId") = obj_get s (u "id"))) /\
  (forall s, In s gs -> obj_get s (u "name") <> JStr [] /\ exists p, In p prompts /\
     obj_get (pp_metadata p) (u "group") = obj_get s (u "name")).

(** The strings of a metadata object that [JSON.stringify] copies unescaped
    are free of LS and PS. *)
Definition meta_strings_ok (o : list (jstr * metaval)) : bool :=
  forallb (fun kv => ls_free (fst kv) &&
             match snd kv with MStr s => ls_free s | MBool _ => true end) o.

(** Lines beginning with a run of [#]. *)
Definition starts_hash (s : jstr) : bool :=
  match s with 35%N :: _ => true | _ => false end.

Definition starts_space (y : jstr) : bool :=
  match y with 32%N :: _ => true | _ => false end.

(** ** The round trip of canonical documents *)
(** A content line that the v2.0 loop adds to the prompt body: no
    heading pattern of levels 1 to 3 and no [---] rule. *)
Definition plain_line (l : jstr) : bool :=
  match heading_match 1 l, heading_match 2 l, heading_match 3 l with
  | None, None, None => negb (dash_rule (trim l))
  | _, _, _ => false
  end.

(** The run of [#] at the start of a line. *)
Fixpoint count_hashes (s : jstr) : nat :=
  match s with 35%N :: s' => S (count_hashes s') | _ => O end.

(** A heading line of level 4 or more, which [demoteContentHeadings]
    rewrites. *)
Definition deep_heading_lineb (line : jstr) : bool :=
  (4 <=? count_hashes line) && (nth (count_hashes line) line 0%N =? 32)%N.

(** Prompt content the round trip keeps: no line demoted on reading,
    every line of the promoted content plain, and no blank first or last
    line (the parser trims those). *)
Definition content_ok (c : jstr) : bool :=
  forallb (fun l => negb (deep_heading_lineb l)) (js_lines c) &&
  match c with
  | [] => true
  | _ :: _ =>
      let ls := split_nl (promoteContentHeadings c) in
      forallb plain_line ls && negb (blank (hd [] ls)) && negb (blank (last ls []))
  end.

(** Conditions on the fields of a document in canonical shape. *)
Definition ostr_ls_free (o : option jstr) : bool :=
  match o with Some s => ls_free s | None => true end.

Definition set_name_ok (o : option jstr) : bool :=
  match o with
  | None => true
  | Some [] => false
  | Some n => jstr_eqb (trim n) n && line_free n
  end.

Definition set_ok (s : PromptSet) : bool :=
  match ps_id s with [] => false | _ :: _ => true end
  && set_name_ok (ps_name s) && ls_free (ps_id s) && ls_free (ps_created s)
  && ostr_ls_free (ps_folderLink s).

Definition session_ok (se : Session) : bool :=
  line_free (or_empty (se_name se)) && ls_free (se_id se).

Definition prompt_ok (p : Prompt) : bool :=
  let m := p_metadata p in
  match p_id p with [] => false | _ :: _ => true end
  && line_free (or_empty (pm_name m)) && ls_free (p_id p) && ls_free (pm_created m)
  && forallb ostr_ls_free [pm_updated m; pm_folderLink m; pm_claudeSessionId m;
                           pm_claudeMessageId m; pm_executedAt m; pm_responsePreview m]
  && content_ok (p_content p).

(** Pairwise different strings. *)
Fixpoint nodupb (xs : list jstr) : bool :=
  match xs with
  | [] => true
  | x :: xs' => negb (existsb (jstr_eqb x) xs') && nodupb xs'
  end.

(** A document in canonical v2.0 shape: fields as above, unique set and
    session ids, every prompt in a set of the document and in a session
    of that set when it names one, no set without prompts, and an active
    set when there are sets. *)
Definition canonical_doc (d : PromptDocument) : bool :=
  forallb set_ok (d_sets d) && forallb session_ok (d_sessions d)
  && forallb prompt_ok (d_prompts d)
  && nodupb (map ps_id (d_sets d)) && nodupb (map se_id (d_sessions d))
  && forallb (fun p => existsb (fun s => ostr_eqb (pm_setId (p_metadata p)) (Some (ps_id s)))
                          (d_sets d)) (d_prompts d)
  && forallb (fun p => match session_key p with
                       | Some k => existsb (fun se => jstr_eqb (se_id se) k
                                     && ostr_eqb (pm_setId (p_metadata p)) (Some (se_setId se)))
                                     (d_sessions d)
                       | None => true
                       end) (d_prompts d)
  && forallb (fun s => existsb (fun p => ostr_eqb (pm_setId (p_metadata p)) (Some (ps_id s)))
                          (d_prompts d)) (d_sets d)
  && match d_sets d with [] => true | _ :: _ => existsb ps_active (d_sets d) end.

(** The prompts of a loop state once the pending prompt is saved. *)
Definition held_prompts (st : V20State) : list ParsedPrompt := v_prompts (saveCurrentPrompt st).

(** The pending prompt has a truthy id. *)
Definition pending_ok (st : V20State) : Prop :=
  match v_prompt st with Some (pid, _) => truthy pid = true | None => True end.

(** The loop state with another content buffer. *)
Definition with_buf (st : V20State) (b : list jstr) : V20State :=
  mkV20 (v_sets st) (v_sessions st) (v_prompts st) (v_setId st) (v_sessionId st)
    (v_prompt st) b (v_next st).

(** The effect of a content line: appended to the buffer of the pending
    prompt, if any. *)
Definition push_line (st : V20State) (l : jstr) : V20State :=
  match v_prompt st with Some _ => with_buf st (v_buf st ++ [l]) | None => st end.

(** The loop goes from [st] to [st'] by consuming the lines [ls]. *)
Definition runs (nanoid : nat -> jstr) (now : jstr) (st : V20State) (ls : list jstr)
    (st' : V20State) : Prop :=
  forall rest, v20_loop nanoid now st (ls ++ rest) = v20_loop nanoid now st' rest.

(** A loop state whose sets and saved prompts have the given views. *)
Definition sim (st : V20State) (svs : list (jsval * jsval * jsval * jsval))
    (pvs : list (jsval * jstr * jsval)) : Prop :=
  map set_view (v_sets st) = svs /\ map prompt_view (held_prompts st) = pvs /\ pending_ok st.

(** The lines [ls] take any state with views [a] and [b] (with a current
    set when [started]) to a state with views [a ++ svs] and [b ++ pvs]
    and a current set. *)
Definition step_from (nanoid : nat -> jstr) (now : jstr) (started : bool) (ls : list jstr)
    (svs : list (jsval * jsval * jsval * jsval)) (pvs : list (jsval * jstr * jsval)) : Prop :=
  forall st a b, sim st a b -> (started = true -> truthy (v_setId st) = true) ->
  exists st', runs nanoid now st ls st' /\ sim st' (a ++ svs) (b ++ pvs)
              /\ truthy (v_setId st') = true.

(* ------------------------------------------------------------------ *)
(** ** Vocabulary of the further properties *)

(** The ids of a list of sets. *)
Definition set_ids (sets : list obj) : list jsval := map (fun s => obj_get s (u "id")) sets.

(** A prompt's metadata names one of the sets, and, when it has a
    session, a session with that id in the same set. *)
Definition prompt_refs_ok (sets sessions : list obj) (md : obj) : Prop :=
  In (obj_get md (u "setId")) (set_ids sets)
  /\ (truthy (obj_get md (u "sessionId")) = true ->
      exists s, In s sessions /\ obj_get s (u "id") = obj_get md (u "sessionId")
                /\ obj_get s (u "setId") = obj_get md (u "setId")).

(** The references of the state of [parseV20Format] are consistent: the
    saved and the pending prompts, the sessions, the current set and the
    current session. *)
Definition v20_refs (st : V20State) : Prop :=
  (forall p, In p (v_prompts st) -> prompt_refs_ok (v_sets st) (v_sessions st) (pp_metadata p))
  /\ (forall s, In s (v_sessions st) -> In (obj_get s (u "setId")) (set_ids (v_sets st)))
  /\ (forall pid md, v_prompt st = Some (pid, md) -> prompt_refs_ok (v_sets st) (v_sessions st) md)
  /\ (truthy (v_setId st) = true -> In (v_setId st) (set_ids (v_sets st)))
  /\ (truthy (v_sessionId st) = true ->
      truthy (v_setId st) = true
      /\ exists s, In s (v_sessions st) /\ obj_get s (u "id") = v_sessionId st
                   /\ obj_get s (u "setId") = v_setId st).

(** A prompt's id is a non-empty value and is the id of its metadata. *)
Definition prompt_id_ok (p : ParsedPrompt) : Prop :=
  truthy (pp_id p) = true /\ pp_id p = obj_get (pp_metadata p) (u "id").

(** The pending prompt of [parseV20Format] carries its id in its
    metadata, and the saved prompts have good ids. *)
Definition v20_ids (st : V20State) : Prop :=
  (forall p, In p (v_prompts st) -> prompt_id_ok p)
  /\ (forall pid md, v_prompt st = Some (pid, md) -> obj_get md (u "id") = pid).

(** A prompt content that is empty or whose first and last lines are not
    blank. *)
Definition content_trimmed (c : jstr) : Prop :=
  c = [] \/ (blank (hd [] (split_nl c)) = false /\ blank (last (split_nl c) []) = false).

(** A line without LF. *)
Definition nl_free (l : jstr) : bool := forallb (fun c => negb (is_nl c)) l.

(** The defaults [parseV11Format] gives a set hold: a creation time, and
    [active] and [collapsed] defined. *)
Definition set_defaults_ok (s : obj) : Prop :=
  truthy (obj_get s (u "created")) = true
  /\ obj_get s (u "active") <> JUndef /\ obj_get s (u "collapsed") <> JUndef.

(** One line through the three replacements of [promoteContentHeadings]. *)
Definition promote_line (line : jstr) : jstr :=
  replace_line_prefix (u "# ") (u "#### ")
    (replace_line_prefix (u "## ") (u "##### ")
       (replace_line_prefix (u "### ") (u "###### ") line)).


(* ================================================================== *)
(** * Proofs *)

(** ** Splitting and joining *)

Section SplitWeave.

Variable p : N -> bool.

Lemma weave_cons (c : N) (l : jstr) (ls : list jstr) (ts : list N) :
  weave (c :: l) ls ts = c :: weave l ls ts.
Proof. destruct ls, ts; reflexivity. Qed.

Lemma split_on_app_free (l s : jstr) :
  forallb (fun c => negb (p c)) l = true ->
  split_on p (l ++ s) =
  let '(f, ls, ts) := split_on p s in (l ++ f, ls, ts).
Proof.
  induction l as [|c l IH]; simpl; intros H.
  - destruct (split_on p s) as [[f ls] ts]; reflexivity.
  - apply andb_true_iff in H as [Hc Hl].
    rewrite (IH Hl). destruct (split_on p s) as [[f ls] ts].
    apply negb_true_iff in Hc. rewrite Hc. reflexivity.
Qed.

Lemma weave_split_on (s : jstr) :
  let '(l, ls, ts) := split_on p s in
  weave l ls ts = s /\ List.length ls = List.length ts /\
  forallb p ts = true /\ forallb (forallb (fun c => negb (p c))) (l :: ls) = true.
Proof.
  induction s as [|c s IH]; simpl.
  - repeat split.
  - destruct (split_on p s) as [[l ls] ts].
    destruct IH as [Hw [Hlen [Hts Hfree]]].
    destruct (p c) eqn:Hc; simpl in *.
    + rewrite Hw, Hc, Hlen, Hts. simpl. repeat split; auto.
    + rewrite Hc, weave_cons, Hw. simpl. repeat split; auto.
Qed.

Lemma split_on_weave (l : jstr) (ls : list jstr) (ts : list N) :
  List.length ls = List.length ts ->
  forallb p ts = true ->
  forallb (forallb (fun c => negb (p c))) (l :: ls) = true ->
  split_on p (weave l ls ts) = (l, ls, ts).
Proof.
  revert l ts; induction ls as [|l' ls IH]; intros l ts Hlen Hts Hfree.
  - destruct ts; [|discriminate]. simpl in Hfree.
    rewrite andb_true_r in Hfree. simpl.
    rewrite <- (app_nil_r l) at 1. rewrite (split_on_app_free l [] Hfree).
    simpl. rewrite app_nil_r. reflexivity.
  - destruct ts as [|t ts]; [discriminate|]. simpl in *.
    apply andb_true_iff in Hts as [Ht Hts].
    apply andb_true_iff in Hfree as [Hl Hfree].
    rewrite (split_on_app_free l _ Hl). simpl.
    rewrite (IH l' ts); [|lia|assumption|assumption].
    rewrite Ht, app_nil_r. reflexivity.
Qed.

End SplitWeave.

(** [replace_bol] rewrites every line and keeps the line terminators. *)
Lemma replace_line_prefix_free (pat rep line : jstr) :
  forallb (fun c => negb (is_line_term c)) rep = true ->
  forallb (fun c => negb (is_line_term c)) line = true ->
  forallb (fun c => negb (is_line_term c)) (replace_line_prefix pat rep line) = true.
Proof.
  intros Hrep Hline. unfold replace_line_prefix.
  destruct (prefixb pat line); [|assumption].
  rewrite forallb_app, Hrep. simpl.
  revert Hline. generalize (List.length pat).
  induction line as [|c line IH]; intros n H; destruct n; simpl in *; auto.
  apply andb_true_iff in H as [_ H]. auto.
Qed.

Lemma split_replace_bol (pat rep s : jstr) :
  forallb (fun c => negb (is_line_term c)) rep = true ->
  split_on is_line_term (replace_bol pat rep s) =
  let '(l, ls, ts) := split_on is_line_term s in
  (replace_line_prefix pat rep l, map (replace_line_prefix pat rep) ls, ts).
Proof.
  intros Hrep. unfold replace_bol.
  pose proof (weave_split_on is_line_term s) as Hs.
  destruct (split_on is_line_term s) as [[l ls] ts].
  destruct Hs as [_ [Hlen [Hts Hfree]]].
  apply split_on_weave.
  - rewrite length_map. assumption.
  - assumption.
  - simpl in *. apply andb_true_iff in Hfree as [Hl Hfree].
    rewrite replace_line_prefix_free by assumption. simpl.
    clear -Hfree Hrep. induction ls as [|x ls IH]; simpl in *; auto.
    apply andb_true_iff in Hfree as [Hx Hfree].
    rewrite replace_line_prefix_free by assumption. auto.
Qed.

(** ** Lines made of a run of [#] *)

Lemma hash_decompose (x : jstr) :
  exists k y, x = repeat 35%N k ++ y /\ starts_hash y = false.
Proof.
  induction x as [|c x [k [y [Hx Hy]]]].
  - exists 0, []. auto.
  - destruct (N.eq_dec c 35) as [->|Hc].
    + exists (S k), y. subst. auto.
    + exists 0, (c :: x). split; [reflexivity|].
      simpl. destruct c as [|pc]; [reflexivity|].
      repeat (destruct pc as [pc|pc|]; try reflexivity). contradiction.
Qed.

Lemma prefixb_hashes (j k : nat) (y : jstr) :
  starts_hash y = false ->
  prefixb (repeat 35%N j ++ [32%N]) (repeat 35%N k ++ y) = (j =? k) && starts_space y.
Proof.
  intros Hy. revert k; induction j as [|j IH]; intros [|k]; simpl.
  - destruct y as [|c y]; [reflexivity|]. simpl.
    destruct c as [|pc]; [reflexivity|].
    repeat (destruct pc as [pc|pc|]; try reflexivity).
  - reflexivity.
  - destruct y as [|c y]; [reflexivity|]. simpl in *.
    destruct c as [|pc]; [reflexivity|].
    repeat (destruct pc as [pc|pc|]; try reflexivity; try discriminate).
  - apply IH.
Qed.

Lemma replace_hashes (j j' k : nat) (y : jstr) :
  starts_hash y = false ->
  replace_line_prefix (repeat 35%N j ++ [32%N]) (repeat 35%N j' ++ [32%N])
    (repeat 35%N k ++ y) =
  if (j =? k) && starts_space y then repeat 35%N j' ++ y else repeat 35%N k ++ y.
Proof.
  intros Hy. unfold replace_line_prefix. rewrite prefixb_hashes by assumption.
  destruct (Nat.eqb_spec j k) as [->|]; simpl; [|reflexivity].
  destruct y as [|c y]; simpl; [reflexivity|].
  destruct c as [|pc]; [reflexivity|].
  repeat (destruct pc as [pc|pc|]; try reflexivity).
  rewrite length_app, repeat_length. simpl.
  replace (k + 1) with (S k) by lia. simpl.
  rewrite <- app_assoc. f_equal. clear. induction k; simpl; auto.
Qed.

Lemma heading_line_roundtrip (x : jstr) :
  ~ deep_heading_line x ->
  replace_line_prefix (u "#### ") (u "# ")
    (replace_line_prefix (u "##### ") (u "## ")
      (replace_line_prefix (u "###### ") (u "### ")
        (replace_line_prefix (u "# ") (u "#### ")
          (replace_line_prefix (u "## ") (u "##### ")
            (replace_line_prefix (u "### ") (u "###### ") x))))) = x.
Proof.
  intros Hdeep.
  destruct (hash_decompose x) as [k [y [-> Hy]]].
  change (u "# ") with (repeat 35%N 1 ++ [32%N]).
  change (u "## ") with (repeat 35%N 2 ++ [32%N]).
  change (u "### ") with (repeat 35%N 3 ++ [32%N]).
  change (u "#### ") with (repeat 35%N 4 ++ [32%N]).
  change (u "##### ") with (repeat 35%N 5 ++ [32%N]).
  change (u "###### ") with (repeat 35%N 6 ++ [32%N]).
  destruct (starts_space y) eqn:Hsp.
  - destruct y as [|c r]; [discriminate|].
    assert (c = 32%N) as ->.
    { destruct c as [|pc]; [discriminate|].
      repeat (destruct pc as [pc|pc|]; try discriminate); reflexivity. }
    destruct (Nat.le_gt_cases 4 k) as [Hk|Hk].
    + exfalso. apply Hdeep. exists k, r. auto.
    + destruct k as [|[|[|[|k]]]]; [| | | |lia];
      repeat (rewrite replace_hashes by assumption; cbn [Nat.eqb andb starts_space]);
      reflexivity.
  - repeat (rewrite replace_hashes by assumption; rewrite Hsp, andb_false_r).
    reflexivity.
Qed.

Lemma replace_bol_split (pat rep s l : jstr) (ls : list jstr) (ts : list N) :
  split_on is_line_term s = (l, ls, ts) ->
  replace_bol pat rep s =
  weave (replace_line_prefix pat rep l) (map (replace_line_prefix pat rep) ls) ts.
Proof. unfold replace_bol. intros ->. reflexivity. Qed.

Lemma split_replace_bol' (pat rep s l : jstr) (ls : list jstr) (ts : list N) :
  forallb (fun c => negb (is_line_term c)) rep = true ->
  split_on is_line_term s = (l, ls, ts) ->
  split_on is_line_term (replace_bol pat rep s) =
  (replace_line_prefix pat rep l, map (replace_line_prefix pat rep) ls, ts).
Proof. intros Hrep Hs. rewrite split_replace_bol by assumption. rewrite Hs. reflexivity. Qed.

(** ** Claim C3 *)

Lemma demote_promote_id (c : jstr) :
  (forall line, In line (js_lines c) -> ~ deep_heading_line line) ->
  demoteContentHeadings (promoteContentHeadings c) = c.
Proof.
  intros Hlines. unfold demoteContentHeadings, promoteContentHeadings, js_lines in *.
  pose proof (weave_split_on is_line_term c) as Hc.
  destruct (split_on is_line_term c) as [[l ls] ts] eqn:Hs.
  destruct Hc as [Hw _].
  assert (Hfree : forall r : jstr, r = u "# " \/ r = u "## " \/ r = u "### " \/
            r = u "#### " \/ r = u "##### " \/ r = u "###### " ->
            forallb (fun c => negb (is_line_term c)) r = true).
  { intros r Hr. repeat destruct Hr as [->|Hr]; try reflexivity. subst. reflexivity. }
  pose proof (split_replace_bol' (u "### ") (u "###### ") _ _ _ _
                (Hfree _ ltac:(tauto)) Hs) as H1.
  pose proof (split_replace_bol' (u "## ") (u "##### ") _ _ _ _
                (Hfree _ ltac:(tauto)) H1) as H2.
  pose proof (split_replace_bol' (u "# ") (u "#### ") _ _ _ _
                (Hfree _ ltac:(tauto)) H2) as H3.
  pose proof (split_replace_bol' (u "###### ") (u "### ") _ _ _ _
                (Hfree _ ltac:(tauto)) H3) as H4.
  pose proof (split_replace_bol' (u "##### ") (u "## ") _ _ _ _
                (Hfree _ ltac:(tauto)) H4) as H5.
  rewrite (replace_bol_split _ _ _ _ _ _ H5).
  rewrite !map_map.
  rewrite heading_line_roundtrip by (apply Hlines; left; reflexivity).
  rewrite map_ext_in with (g := fun x => x).
  - rewrite map_id. exact Hw.
  - intros x Hx. apply heading_line_roundtrip, Hlines. right. exact Hx.
Qed.

(** C3: for every string whose lines (in the sense of the [m] flag) never
    begin with four or more [#] followed by a space,
    [demoteContentHeadings (promoteContentHeadings c) = c]. *)
Theorem demote_promote_roundtrip (c : jstr) :
  (forall line, In line (js_lines c) -> ~ deep_heading_line line) ->
  demoteContentHeadings (promoteContentHeadings c) = c.
Proof. exact (demote_promote_id c). Qed.

(** C3, at a sample input. *)
Lemma demote_promote_roundtrip_witness :
  (forall line, In line (js_lines (u "# Step 1~Do X")) -> ~ deep_heading_line line) /\
  demoteContentHeadings (promoteContentHeadings (u "# Step 1~Do X")) = u "# Step 1~Do X".
Proof.
  assert (H : forall line, In line (js_lines (u "# Step 1~Do X")) -> ~ deep_heading_line line).
  { intros line Hin. vm_compute in Hin.
    destruct Hin as [<-|[<-|[]]]; intros (k & rest & Hk & Heq);
      (destruct k as [|[|[|[|k]]]]; [lia|lia|lia|lia|discriminate Heq]). }
  split; [exact H|].
  apply (demote_promote_roundtrip (u "# Step 1~Do X")). exact H.
Defined.

(* ------------------------------------------------------------------ *)
(** ** Objects *)

Lemma jstr_eqb_eq (a b : jstr) : jstr_eqb a b = true <-> a = b.
Proof.
  revert b; induction a as [|x a IH]; intros [|y b]; simpl; split; intro H;
    try discriminate; try reflexivity.
  - apply andb_true_iff in H as [H1 H2]. apply N.eqb_eq in H1. apply IH in H2. subst. reflexivity.
  - injection H as -> ->. rewrite N.eqb_refl. apply IH. reflexivity.
Qed.

Lemma jstr_eqb_refl (a : jstr) : jstr_eqb a a = true.
Proof. apply jstr_eqb_eq. reflexivity. Qed.

Lemma jstr_eqb_neq (a b : jstr) : a <> b -> jstr_eqb a b = false.
Proof. intros H. destruct (jstr_eqb a b) eqn:E; [apply jstr_eqb_eq in E; contradiction|reflexivity]. Qed.

Lemma obj_get_set (o : obj) (k k' : jstr) (v : jsval) :
  obj_get (obj_set o k v) k' = if jstr_eqb k' k then v else obj_get o k'.
Proof.
  induction o as [|[k0 v0] o IH]; simpl.
  - destruct (jstr_eqb k' k); reflexivity.
  - destruct (jstr_eqb k k0) eqn:E; simpl.
    + apply jstr_eqb_eq in E. subst. destruct (jstr_eqb k' k0); reflexivity.
    + rewrite IH. destruct (jstr_eqb k' k0) eqn:E2; [|reflexivity].
      apply jstr_eqb_eq in E2; subst.
      destruct (jstr_eqb k0 k) eqn:E3; [|reflexivity].
      apply jstr_eqb_eq in E3; subst. rewrite jstr_eqb_refl in E. discriminate.
Qed.

Lemma ensure_active_some (sets : list obj) :
  ensure_active sets <> [] ->
  existsb (fun s => truthy (obj_get s (u "active"))) (ensure_active sets) = true.
Proof.
  destruct sets as [|s0 rest]; [simpl; congruence|]. intros _. unfold ensure_active.
  destruct (existsb _ (s0 :: rest)) eqn:E; [exact E|].
  simpl. rewrite obj_get_set, jstr_eqb_refl. reflexivity.
Qed.

(** C2 (amended): let [sets0] be the sets collected from the input by the
    format parser [parse] selects.  Whenever [parse] returns a document:
    if some set of [sets0] has a truthy [active] field, the document's
    sets are [sets0] unchanged (so several sets stay active when the input
    marks several); if none has, [active] is set to [true] on the first
    set and the other sets are kept as they are; so a document with at
    least one set always has a set with a truthy [active].  Input that is
    blank after the file comment yields no set at all. *)
Theorem parse_some_set_active (nanoid : nat -> jstr) (now text : jstr) (d : ParsedDocument) :
  parse nanoid now text = Ok d ->
  exists sets0,
    sets_before_activation nanoid now text = Some sets0 /\
    (existsb (fun s => truthy (obj_get s (u "active"))) sets0 = true -> pd_sets d = sets0) /\
    (existsb (fun s => truthy (obj_get s (u "active"))) sets0 = false ->
       pd_sets d = match sets0 with
                   | [] => []
                   | s0 :: rest => obj_set s0 (u "active") (JBool true) :: rest
                   end) /\
    (pd_sets d <> [] -> existsb (fun s => truthy (obj_get s (u "active"))) (pd_sets d) = true) /\
    (blank (snd (extract_file_meta text)) = true -> pd_sets d = []).
Proof.
  unfold parse, sets_before_activation. destruct (extract_file_meta text) as [fm content].
  cbn [snd].
  assert (Hgen : forall (sets0 : list obj),
    (existsb (fun s => truthy (obj_get s (u "active"))) sets0 = true -> ensure_active sets0 = sets0) /\
    (existsb (fun s => truthy (obj_get s (u "active"))) sets0 = false ->
       ensure_active sets0 = match sets0 with
                             | [] => []
                             | s0 :: rest => obj_set s0 (u "active") (JBool true) :: rest
                             end) /\
    (ensure_active sets0 <> [] ->
       existsb (fun s => truthy (obj_get s (u "active"))) (ensure_active sets0) = true)).
  { intros sets0. split; [|split].
    - destruct sets0 as [|s0 rest]; [intros _; reflexivity|]. intros E. unfold ensure_active. rewrite E. reflexivity.
    - destruct sets0 as [|s0 rest]; [intros _; reflexivity|]. intros E. unfold ensure_active. rewrite E. reflexivity.
    - exact (ensure_active_some sets0). }
  destruct (blank content) eqn:Hb.
  { intros H; injection H as <-. exists []. cbn [pd_sets].
    split; [reflexivity|]. split; [reflexivity|]. split; [reflexivity|].
    split; [intros H; congruence|reflexivity]. }
  destruct (detectV20Format content).
  { unfold parseV20Format. intros H; injection H as <-. cbn [pd_sets].
    eexists. split; [reflexivity|]. destruct (Hgen (v_sets (saveCurrentPrompt
      (v20_loop nanoid now v20_init (split_nl content))))) as (H1 & H2 & H3).
    split; [exact H1|]. split; [exact H2|]. split; [exact H3|discriminate]. }
  destruct (includes content (u "<!-- set:")).
  { unfold parseV11Format. cbv zeta.
    destruct (if pending _ then _ else _) as [ps n].
    intros H; injection H as <-; cbn [pd_sets].
    eexists. split; [reflexivity|]. destruct (Hgen (w_sets (fold_left (v11_line nanoid now)
      (split_nl content) (mkV11 [] [] None false [] 0)))) as (H1 & H2 & H3).
    split; [exact H1|]. split; [exact H2|]. split; [exact H3|discriminate]. }
  unfold parseV10Format. cbv zeta.
  destruct (v10_loop _ _ _ _ _ _) as [[[sets ps] n]|e]; [|discriminate].
  intros H; injection H as <-; cbn [pd_sets].
  exists sets. split; [reflexivity|]. destruct (Hgen sets) as (H1 & H2 & H3).
  split; [exact H1|]. split; [exact H2|]. split; [exact H3|discriminate].
Qed.

(** C9: when the content after the file-level comment is empty or white
    space only, [parse] returns, before any format detection, the
    document with file metadata at version 2.0 and no set, session or
    prompt. *)
Theorem parse_blank_content_empty_document (nanoid : nat -> jstr) (now text : jstr) :
  blank (snd (extract_file_meta text)) = true ->
  exists fm,
    parse nanoid now text = Ok (mkParsedDocument fm [] [] [] (ends_with text [10%N])) /\
    obj_get fm (u "version") = JStr (u "2.0").
Proof.
  unfold parse. destruct (extract_file_meta text) as [fileMetadata content]. simpl.
  intros ->. eexists. split; [reflexivity|].
  rewrite obj_get_set, jstr_eqb_refl. reflexivity.
Qed.

Lemma parse_blank_content_empty_document_witness :
  blank (snd (extract_file_meta (u " ~ "))) = true /\
  exists fm,
    parse sample_ids [] (u " ~ ") = Ok (mkParsedDocument fm [] [] [] (ends_with (u " ~ ") [10%N])) /\
    obj_get fm (u "version") = JStr (u "2.0").
Proof.
  split; [vm_compute; reflexivity|].
  apply (parse_blank_content_empty_document sample_ids [] (u " ~ ")). vm_compute. reflexivity.
Defined.


(** C8: [parse] raises on this input, for any ids and clock: the prompt's
    [group] makes [parseV10Format] index [fileMetadata.groups], which the
    file comment left undefined. *)
Theorem parse_throws_on_legacy_group_without_groups (nanoid : nat -> jstr) (now : jstr) :
  parse nanoid now c8_input = Throw TypeError.
Proof. vm_compute. reflexivity. Qed.


(** C2 counterexample: the document parsed from [c2_input] has two sets
    whose [active] is [true]. *)
Lemma c2_two_active_sets :
  match parse sample_ids [] c2_input with
  | Ok d => List.length (filter (fun s => strict_eqb (obj_get s (u "active")) (JBool true)) (pd_sets d))
  | Throw _ => 0
  end = 2.
Proof. vm_compute. reflexivity. Qed.


(** C4 counterexample: the prompt of [c4_input] carries the group [''],
    yet no set is named [''], and the prompt is assigned to the unnamed
    default set. *)
Lemma c4_empty_group_not_migrated :
  match parse sample_ids [] c4_input with
  | Ok d =>
      match pd_prompts d, pd_sets d with
      | [p], [s] =>
          strict_eqb (obj_get (pp_metadata p) (u "group")) (JStr [])
          && negb (strict_eqb (obj_get s (u "name")) (JStr []))
          && strict_eqb (obj_get (pp_metadata p) (u "setId")) (obj_get s (u "id"))
      | _, _ => false
      end
  | Throw _ => false
  end = true.
Proof. vm_compute. reflexivity. Qed.

(* ------------------------------------------------------------------ *)
(** ** The v1.0 parser *)

Lemma v10_segment_ok (nanoid : nat -> jstr) (now : jstr) (fm : jsval) (dsid : jstr)
    (sets : list obj) (prompts : list ParsedPrompt) (n : nat) (seg : jstr) r :
  v10_segment nanoid now fm dsid (sets, prompts, n) seg = Ok r ->
  match trim seg with
  | [] => r = (sets, prompts, n)
  | t => exists sets' p n', r = (sets', prompts ++ [p], n') /\
          pp_content p = segment_content t /\
          obj_get (pp_metadata p) (u "group") = segment_group seg /\
          (truthy (segment_group seg) = false ->
           sets' = sets /\ obj_get (pp_metadata p) (u "setId") = JStr dsid)
  end.
Proof.
  unfold v10_segment, segment_group, segment_content.
  destruct (trim seg) as [|c t] eqn:Ht.
  { intros H; injection H as <-; reflexivity. }
  destruct (PROMPT_META_REGEX (c :: t)) as [[cap after]|] eqn:Hm;
    [destruct (json_parse cap) as [v|] eqn:Hj|];
    match goal with |- context [truthy (obj_get ?md0 (u "id"))] =>
      destruct (truthy (obj_get md0 (u "id"))) end;
    cbv zeta;
    match goal with |- context [truthy (obj_get ?md1 (u "group"))] =>
      destruct (truthy (obj_get md1 (u "group"))) eqn:Hg end;
    try (destruct (find _ _) as [gs|];
         [|destruct (group_collapsed _ _) as [cv|e]; [|discriminate]]);
    intros H; injection H as <-;
    do 3 eexists; (split; [reflexivity|]); (split; [reflexivity|]);
    cbn [pp_metadata pp_content]; rewrite ?obj_get_set; simpl; (split; [reflexivity|]);
    intros Hf; rewrite ?obj_get_set in Hg; simpl in Hg; try congruence; split; reflexivity.
Qed.

Lemma v10_loop_prefix (nanoid : nat -> jstr) (now : jstr) (fm : jsval) (dsid : jstr) segs :
  forall sets prompts n sets' prompts' n',
  v10_loop nanoid now fm dsid (sets, prompts, n) segs = Ok (sets', prompts', n') ->
  exists qs, prompts' = prompts ++ qs.
Proof.
  induction segs as [|seg segs IH]; cbn [v10_loop]; intros sets prompts n sets' prompts' n' H.
  - injection H as <- <- <-. exists []. rewrite app_nil_r. reflexivity.
  - destruct (v10_segment _ _ _ _ _ seg) as [[[s1 p1] n1]|e] eqn:E; [|discriminate].
    apply v10_segment_ok in E. apply IH in H as [qs ->].
    destruct (trim seg).
    + injection E as -> -> ->. exists qs. reflexivity.
    + destruct E as (sets2 & p & n2 & Heq & _). injection Heq as -> -> ->.
      exists (p :: qs). rewrite <- app_assoc. reflexivity.
Qed.

Lemma v10_loop_no_groups (nanoid : nat -> jstr) (now : jstr) (fm : jsval) (dsid : jstr) segs :
  forall prompts n sets' prompts' n',
  v10_loop nanoid now fm dsid ([v10_default_set now dsid], prompts, n) segs = Ok (sets', prompts', n') ->
  (forall p, In p prompts' -> truthy (obj_get (pp_metadata p) (u "group")) = false) ->
  sets' = [v10_default_set now dsid] /\
  exists qs, prompts' = prompts ++ qs /\ map pp_content qs = segment_contents segs /\
    Forall (fun p => obj_get (pp_metadata p) (u "setId") = JStr dsid) qs.
Proof.
  induction segs as [|seg segs IH]; cbn [v10_loop]; intros prompts n sets' prompts' n' H Hg.
  - injection H as <- <- <-. split; [reflexivity|]. exists []. rewrite app_nil_r. auto.
  - destruct (v10_segment _ _ _ _ _ seg) as [[[s1 p1] n1]|e] eqn:E; [|discriminate].
    pose proof (v10_loop_prefix _ _ _ _ _ _ _ _ _ _ _ H) as [rest Hrest].
    change (segment_contents (seg :: segs)) with
      ((match trim seg with [] => [] | t => [segment_content t] end) ++ segment_contents segs).
    apply v10_segment_ok in E. destruct (trim seg) as [|c t].
    + injection E as -> -> ->. cbn [app]. apply (IH _ _ _ _ _ H Hg).
    + destruct E as (sets2 & p & n2 & Heq & Hc & Hgr & Hset). injection Heq as -> -> ->.
      assert (Hp : truthy (segment_group seg) = false).
      { rewrite <- Hgr. apply Hg. rewrite Hrest. apply in_or_app. left.
        apply in_or_app. right. left. reflexivity. }
      destruct (Hset Hp) as [-> Hsid].
      destruct (IH _ _ _ _ _ H Hg) as [Hs (qs & Hq & Hm & Hf)].
      split; [exact Hs|]. exists (p :: qs). rewrite <- app_assoc in Hq.
      split; [exact Hq|]. split; [cbn [map app]; rewrite Hc, Hm; reflexivity|].
      constructor; assumption.
Qed.

(** C5: when the content reaches the v1.0 parser and no parsed prompt has
    a truthy [group], the document has exactly one set, the default set
    created up front and marked active, every prompt's [setId] is its id,
    and the prompts are those of the non-blank segments, in the order of
    the segments. *)
Theorem parse_v10_without_groups (nanoid : nat -> jstr) (now text : jstr) (d : ParsedDocument) :
  v10_path text = true ->
  parse nanoid now text = Ok d ->
  (forall p, In p (pd_prompts d) -> truthy (obj_get (pp_metadata p) (u "group")) = false) ->
  pd_sets d = [v10_default_set now (nanoid 0)] /\
  map pp_content (pd_prompts d) = segment_contents (split_separator (snd (extract_file_meta text))) /\
  Forall (fun p => obj_get (pp_metadata p) (u "setId") = JStr (nanoid 0)) (pd_prompts d).
Proof.
  unfold v10_path, parse. destruct (extract_file_meta text) as [fm content]. simpl snd.
  destruct (blank content), (detectV20Format content), (includes content (u "<!-- set:"));
    try discriminate. intros _.
  unfold parseV10Format.
  destruct (v10_loop _ _ _ _ _ _) as [[[sets ps] n]|e] eqn:E; [|discriminate].
  intros H; injection H as <-. cbn [pd_sets pd_prompts]. intros Hg.
  destruct (v10_loop_no_groups _ _ _ _ _ _ _ _ _ _ E Hg) as [-> (qs & -> & Hm & Hf)].
  split; [reflexivity|]. split; assumption.
Qed.

Lemma parse_v10_without_groups_witness :
  match parse sample_ids [] (u "First~---~Second") with
  | Ok d =>
      pd_sets d = [v10_default_set [] (sample_ids 0)] /\
      map pp_content (pd_prompts d) =
        segment_contents (split_separator (snd (extract_file_meta (u "First~---~Second")))) /\
      Forall (fun p => obj_get (pp_metadata p) (u "setId") = JStr (sample_ids 0)) (pd_prompts d)
  | Throw _ => False
  end.
Proof.
  destruct (parse sample_ids [] (u "First~---~Second")) as [d|e] eqn:E.
  - pose proof E as E'. vm_compute in E'. injection E' as Ed.
    apply (parse_v10_without_groups sample_ids [] (u "First~---~Second") d).
    + vm_compute. reflexivity.
    + exact E.
    + subst d. intros p Hp. vm_compute in Hp.
      destruct Hp as [<-|[<-|[]]]; vm_compute; reflexivity.
  - vm_compute in E. discriminate.
Defined.

(* ------------------------------------------------------------------ *)
(** ** The serializer *)

Lemma ostr_eqb_eq (a b : option jstr) : ostr_eqb a b = true <-> a = b.
Proof.
  destruct a as [x|], b as [y|]; simpl; split; intro H; try discriminate; try reflexivity.
  - apply jstr_eqb_eq in H. subst. reflexivity.
  - injection H as ->. apply jstr_eqb_refl.
Qed.

Lemma filter_none {A : Type} (f : A -> bool) (l : list A) :
  (forall x, In x l -> f x = false) -> filter f l = [].
Proof.
  induction l as [|x l IH]; simpl; intros H; [reflexivity|].
  rewrite (H x (or_introl eq_refl)). apply IH. intros y Hy. apply H. right. exact Hy.
Qed.

Lemma join_cons_prefix (sep x : jstr) (xs : list jstr) :
  exists r, join sep (x :: xs) = x ++ r.
Proof.
  destruct xs as [|y ys].
  - exists []. rewrite app_nil_r. reflexivity.
  - eexists. reflexivity.
Qed.

Lemma prefixb_app (p r : jstr) : prefixb p (p ++ r) = true.
Proof. induction p as [|a p IH]; simpl; [reflexivity|]. rewrite N.eqb_refl. exact IH. Qed.

Lemma prefixb_app_l (a p s : jstr) : prefixb p s = true -> prefixb (a ++ p) (a ++ s) = true.
Proof. induction a as [|x a IH]; simpl; [auto|]. rewrite N.eqb_refl. exact IH. Qed.

Lemma join_two_prefix (h m : jstr) (rest : list jstr) :
  prefixb (h ++ [10%N] ++ m) (join [10%N] ([h; m ++ [10%N]] ++ rest)) = true.
Proof.
  destruct rest as [|x rest]; cbn [app join]; rewrite <- ?app_assoc; apply prefixb_app_l;
    cbn [app prefixb]; rewrite N.eqb_refl; apply prefixb_app.
Qed.

Lemma render_set_some (dsid now : jstr) (d : PromptDocument) (t : PromptSet) (b : jstr) :
  render_set dsid d t = Some b ->
  set_prompts dsid d (ps_id t) <> [] /\
  prefixb (u "# " ++ or_empty (ps_name t) ++ [10%N] ++ meta_comment (set_meta t)) b = true.
Proof.
  unfold render_set. destruct (set_prompts dsid d (ps_id t)) as [|q qs]; [discriminate|].
  intros H. split; [discriminate|].
  assert (Hb : join [10%N] ([u "# " ++ or_empty (ps_name t); meta_comment (set_meta t) ++ [10%N]]
                 ++ flat_map (render_group dsid d (ps_id t)) (sessionIds dsid d (ps_id t))) = b)
    by congruence.
  rewrite <- Hb.
  pose proof (join_two_prefix (u "# " ++ or_empty (ps_name t)) (meta_comment (set_meta t))
                (flat_map (render_group dsid d (ps_id t)) (sessionIds dsid d (ps_id t)))) as Hp.
  rewrite <- app_assoc in Hp. exact Hp.
Qed.

Lemma in_set_blocks (dsid now : jstr) (d : PromptDocument) (t : PromptSet) (b : jstr) :
  In (t, b) (set_blocks dsid now d) ->
  In t (setsToWrite dsid now d) /\ render_set dsid d t = Some b.
Proof.
  unfold set_blocks. intros H. apply in_flat_map in H as [t' [Hin Ht]].
  destruct (render_set dsid d t') as [b'|] eqn:E; [|destruct Ht].
  destruct Ht as [Heq|[]]. injection Heq as -> ->. auto.
Qed.

Lemma serialize_text_shape (dsid now : jstr) (d : PromptDocument) :
  let x := join [10%N] [file_header; join (u "~~") (map snd (set_blocks dsid now d))] in
  fst (serialize dsid now d) = x \/ fst (serialize dsid now d) = x ++ [10%N].
Proof.
  cbv zeta. unfold serialize, serialize_text. cbn [fst]. cbv zeta.
  destruct (_ || _); [destruct (ends_with _ _)|]; auto.
Qed.

(** C6: for every document [d] and every set [s] of [d.sets] such that no
    prompt of [d] has [metadata.setId === s.id], the output of
    [serialize] is the file comment followed by the blocks of
    [set_blocks] (one per set written), and every block begins with the
    heading line and the metadata comment of its own set, a set whose id
    differs from [s.id]: no heading line or metadata comment is written
    for [s].  One side condition: when [serialize] synthesizes a set for
    prompts without a [setId], the id it draws from [nanoid] is not
    [s.id]; were it equal, those prompts would be filed under [s] and [s]
    would be written. *)
Theorem serialize_skips_set_without_prompts (dsid now : jstr) (d : PromptDocument) (s : PromptSet) :
  In s (d_sets d) ->
  (forall p, In p (d_prompts d) -> pm_setId (p_metadata p) <> Some (ps_id s)) ->
  ((exists p, In p (d_prompts d) /\ ostr_truthy (pm_setId (p_metadata p)) = false) -> dsid <> ps_id s) ->
  (let x := join [10%N] [file_header; join (u "~~") (map snd (set_blocks dsid now d))] in
   fst (serialize dsid now d) = x \/ fst (serialize dsid now d) = x ++ [10%N]) /\
  (forall t b, In (t, b) (set_blocks dsid now d) ->
     ps_id t <> ps_id s /\
     prefixb (u "# " ++ or_empty (ps_name t) ++ [10%N] ++ meta_comment (set_meta t)) b = true).
Proof.
  intros _ Hnone Hfresh. split; [apply serialize_text_shape|].
  intros t b Hin. apply in_set_blocks in Hin as [_ Hr].
  apply render_set_some in Hr as [Hne Hpre]; auto. split; [|exact Hpre].
  intros Heq. apply Hne. unfold set_prompts. rewrite Heq.
  assert (Horph : (if jstr_eqb (ps_id s) dsid
                   then map (fun p => set_prompt_setId p dsid) (orphanPrompts d) else []) = []).
  { destruct (jstr_eqb (ps_id s) dsid) eqn:Ed; [|reflexivity].
    apply jstr_eqb_eq in Ed.
    destruct (orphanPrompts d) as [|o os] eqn:Eo; [reflexivity|].
    exfalso. apply Hfresh; [|congruence].
    assert (Ho : In o (orphanPrompts d)) by (rewrite Eo; left; reflexivity).
    unfold orphanPrompts in Ho. apply filter_In in Ho as [Ho Hf].
    exists o. split; [exact Ho|]. destruct (ostr_truthy _); [discriminate|reflexivity]. }
  rewrite Horph, app_nil_r.
  apply filter_none. intros p Hp. apply filter_In in Hp as [Hp _].
  destruct (ostr_eqb _ _) eqn:E; [|reflexivity].
  apply ostr_eqb_eq in E. exfalso. exact (Hnone p Hp E).
Qed.

Lemma serialize_skips_set_without_prompts_witness :
  In (sample_set (u "e") false) [sample_set (u "e") false] /\
  (forall p, In p [sample_prompt (u "p") (u "x") None None] ->
     pm_setId (p_metadata p) <> Some (u "e")) /\
  ((exists p, In p (d_prompts (sample_doc [sample_set (u "e") false] [] [sample_prompt (u "p") (u "x") None None])) /\ ostr_truthy (pm_setId (p_metadata p)) = false) -> u "D" <> ps_id (sample_set (u "e") false)) /\
  (let d := sample_doc [sample_set (u "e") false] [] [sample_prompt (u "p") (u "x") None None] in
   (let x := join [10%N] [file_header; join (u "~~") (map snd (set_blocks (u "D") [] d))] in
    fst (serialize (u "D") [] d) = x \/ fst (serialize (u "D") [] d) = x ++ [10%N]) /\
   (forall t b, In (t, b) (set_blocks (u "D") [] d) ->
      ps_id t <> u "e" /\
      prefixb (u "# " ++ or_empty (ps_name t) ++ [10%N] ++ meta_comment (set_meta t)) b = true)).
Proof.
  assert (H1 : In (sample_set (u "e") false) [sample_set (u "e") false]) by (left; reflexivity).
  assert (H2 : forall p, In p [sample_prompt (u "p") (u "x") None None] ->
                 pm_setId (p_metadata p) <> Some (u "e")).
  { intros p [<-|[]]. simpl. discriminate. }
  assert (H3 : (exists p, In p (d_prompts (sample_doc [sample_set (u "e") false] [] [sample_prompt (u "p") (u "x") None None])) /\ ostr_truthy (pm_setId (p_metadata p)) = false) -> u "D" <> ps_id (sample_set (u "e") false))
    by (intros _; discriminate).
  split; [exact H1|]. split; [exact H2|]. split; [exact H3|].
  exact (serialize_skips_set_without_prompts (u "D") []
           (sample_doc [sample_set (u "e") false] [] [sample_prompt (u "p") (u "x") None None])
           (sample_set (u "e") false) H1 H2 H3).
Defined.

Lemma orphans_nonempty (dsid now : jstr) (d : PromptDocument) :
  (exists p, In p (d_prompts d) /\ ostr_truthy (pm_setId (p_metadata p)) = false) ->
  orphanPrompts d <> [].
Proof.
  intros (p & Hp & Hf) Hnil.
  assert (Hin : In p (orphanPrompts d)).
  { unfold orphanPrompts. apply filter_In. rewrite Hf. auto. }
  rewrite Hnil in Hin. destruct Hin.
Qed.

(** C7: let some prompt of [d] have no [setId] (absent, or the empty
    string, which the code treats alike).  Then, clause by clause:
    [serialize] synthesizes exactly one extra set: the sets it writes are
    those of [d.sets] followed by the single set [defaultSet]; its id is
    the one drawn from [nanoid]; it is active if and only if [d.sets] is
    empty; it is emitted after all sets of [d.sets]: its block is the
    last of the output.  The in-place mutation is modelled by the prompt
    list [serialize] leaves behind (the second component): it has the
    prompts of [d] at the same positions, each prompt without a [setId]
    now with [setId] the synthesized id, every other prompt unchanged. *)
Theorem serialize_orphans_get_default_set (dsid now : jstr) (d : PromptDocument) :
  (exists p, In p (d_prompts d) /\ ostr_truthy (pm_setId (p_metadata p)) = false) ->
  setsToWrite dsid now d = d_sets d ++ [defaultSet dsid now d] /\
  ps_id (defaultSet dsid now d) = dsid /\
  (ps_active (defaultSet dsid now d) = true <-> d_sets d = []) /\
  (exists bs b, set_blocks dsid now d = bs ++ [(defaultSet dsid now d, b)]) /\
  List.length (snd (serialize dsid now d)) = List.length (d_prompts d) /\
  (forall i p, nth_error (d_prompts d) i = Some p ->
     nth_error (snd (serialize dsid now d)) i =
       Some (if ostr_truthy (pm_setId (p_metadata p)) then p else set_prompt_setId p dsid)).
Proof.
  intros Hex. pose proof (orphans_nonempty dsid now d Hex) as Hne.
  assert (Hsets : setsToWrite dsid now d = d_sets d ++ [defaultSet dsid now d]).
  { unfold setsToWrite. destruct (orphanPrompts d); [contradiction|reflexivity]. }
  split; [exact Hsets|]. split; [reflexivity|].
  split.
  { unfold defaultSet. cbn [ps_active]. destruct (d_sets d); split; auto; discriminate. }
  split.
  { unfold set_blocks. rewrite Hsets, flat_map_app. cbn [flat_map].
    assert (Hr : set_prompts dsid d (ps_id (defaultSet dsid now d)) <> []).
    { unfold set_prompts. cbn [ps_id defaultSet]. rewrite jstr_eqb_refl.
      destruct (orphanPrompts d) as [|o os]; [contradiction|].
      intros H. apply app_eq_nil in H as [_ H]. discriminate. }
    unfold render_set at 2. destruct (set_prompts dsid d (ps_id (defaultSet dsid now d)));
      [contradiction|].
    eexists _, _. rewrite app_nil_r. reflexivity. }
  split.
  { cbn [serialize snd]. unfold prompts_after. apply length_map. }
  intros i p Hi. cbn [serialize snd]. unfold prompts_after.
  rewrite nth_error_map, Hi. reflexivity.
Qed.

Lemma serialize_orphans_get_default_set_witness :
  let d := sample_doc [sample_set (u "a") true]  []
             [sample_prompt (u "p") (u "x") (Some (u "a")) None; sample_prompt (u "q") (u "y") None None] in
  (exists p, In p (d_prompts d) /\ ostr_truthy (pm_setId (p_metadata p)) = false) /\
  setsToWrite (u "D") [] d = d_sets d ++ [defaultSet (u "D") [] d] /\
  ps_id (defaultSet (u "D") [] d) = u "D" /\
  (ps_active (defaultSet (u "D") [] d) = true <-> d_sets d = []) /\
  (exists bs b, set_blocks (u "D") [] d = bs ++ [(defaultSet (u "D") [] d, b)]) /\
  List.length (snd (serialize (u "D") [] d)) = List.length (d_prompts d) /\
  (forall i p, nth_error (d_prompts d) i = Some p ->
     nth_error (snd (serialize (u "D") [] d)) i =
       Some (if ostr_truthy (pm_setId (p_metadata p)) then p else set_prompt_setId p (u "D"))).
Proof.
  intros d.
  assert (H : exists p, In p (d_prompts d) /\ ostr_truthy (pm_setId (p_metadata p)) = false).
  { exists (sample_prompt (u "q") (u "y") None None). split; [right; left; reflexivity|reflexivity]. }
  split; [exact H|]. exact (serialize_orphans_get_default_set (u "D") [] d H).
Defined.

Lemma filter_filter_and {A : Type} (f g : A -> bool) (l : list A) :
  filter f (filter g l) = filter (fun x => g x && f x) l.
Proof.
  induction l as [|x l IH]; simpl; [reflexivity|].
  destruct (g x); simpl; [destruct (f x); simpl; rewrite IH; reflexivity|exact IH].
Qed.

Lemma filter_mid_false {A : Type} (h : A -> bool) (pre post : list A) (x y : A) :
  h x = false -> h y = false -> filter h (pre ++ x :: post) = filter h (pre ++ y :: post).
Proof. intros Hx Hy. rewrite !filter_app. simpl. rewrite Hx, Hy. reflexivity. Qed.

Lemma filter_mid_nil {A : Type} (h : A -> bool) (pre post : list A) (x y : A) :
  h x = h y -> (filter h (pre ++ x :: post) = [] <-> filter h (pre ++ y :: post) = []).
Proof.
  intros Hxy. rewrite !filter_app. simpl. rewrite Hxy.
  destruct (h y); split; intros H; apply app_eq_nil in H as [H1 H2];
    try discriminate; rewrite H1, H2; reflexivity.
Qed.

Lemma app_nil_iff {A : Type} (l1 l2 m : list A) :
  (l1 = [] <-> l2 = []) -> (l1 ++ m = [] <-> l2 ++ m = []).
Proof.
  intros H; split; intros E; apply app_eq_nil in E as [E1 E2]; subst;
    [rewrite (proj1 H eq_refl)|rewrite (proj2 H eq_refl)]; reflexivity.
Qed.

Lemma match_nil_iff {A B : Type} (l1 l2 : list A) (a b : B) :
  (l1 = [] <-> l2 = []) ->
  match l1 with [] => a | _ :: _ => b end = match l2 with [] => a | _ :: _ => b end.
Proof.
  destruct l1, l2; intros H; try reflexivity.
  - discriminate (proj1 H eq_refl).
  - discriminate (proj2 H eq_refl).
Qed.

Lemma flat_map_ext_in {A B : Type} (f g : A -> list B) (l : list A) :
  (forall x, In x l -> f x = g x) -> flat_map f l = flat_map g l.
Proof.
  induction l as [|x l IH]; simpl; intros H; [reflexivity|].
  rewrite (H x (or_introl eq_refl)), IH; [reflexivity|]. intros y Hy. apply H. right. exact Hy.
Qed.

Lemma bucket_filter (dsid : jstr) (d : PromptDocument) (sid : jstr) (key : option jstr) :
  bucket dsid d sid key =
  filter (bucket_pred sid key) (d_prompts d)
  ++ match key with
     | None => if jstr_eqb sid dsid then map (fun p => set_prompt_setId p dsid) (orphanPrompts d) else []
     | Some _ => []
     end.
Proof. unfold bucket. rewrite filter_filter_and. reflexivity. Qed.

Lemma set_prompts_filter (dsid : jstr) (d : PromptDocument) (sid : jstr) :
  set_prompts dsid d sid =
  filter (set_pred sid) (d_prompts d)
  ++ (if jstr_eqb sid dsid then map (fun p => set_prompt_setId p dsid) (orphanPrompts d) else []).
Proof. unfold set_prompts. rewrite filter_filter_and. reflexivity. Qed.

Lemma in_sessionIds (dsid : jstr) (d : PromptDocument) (sid : jstr) (key : option jstr) :
  In key (sessionIds dsid d sid) ->
  key = None \/ exists se, In se (d_sessions d) /\ se_setId se = sid /\ key = Some (se_id se).
Proof.
  unfold sessionIds. intros H. apply in_app_or in H as [H|H].
  - left. destruct (bucket dsid d sid None); [destruct H|destruct H as [<-|[]]; reflexivity].
  - right. apply in_flat_map in H as [se [Hse Hk]]. exists se.
    destruct (jstr_eqb (se_setId se) sid) eqn:E; [|destruct Hk].
    apply jstr_eqb_eq in E. destruct (bucket dsid d sid (Some (se_id se))); [destruct Hk|].
    destruct Hk as [<-|[]]. auto.
Qed.

(** C10: let the document hold the prompt [p] (at any position, between
    [pre] and [post]), with a non-empty [setId] and a non-empty
    [sessionId], such that no session has both [id === sessionId] and
    [setId === setId] of [p].  Replacing [p] by any prompt [p'] with the
    same [setId] and [sessionId] (and any id, name, status, content and
    other metadata) leaves the text of [serialize] unchanged: no part of
    [p], neither its heading, nor its metadata comment, nor its content,
    is written.  The statement keeps [p]'s position rather than deleting
    it, because the text does depend on [p]'s presence, though not on
    [p]: the number of prompts decides the final newline, and [p] alone
    is enough for its set to count as non-empty and have its heading
    written. *)
Theorem serialize_omits_prompt_without_session (dsid now : jstr) (fm : FileMetadata)
    (sets : list PromptSet) (sessions : list Session) (pre post : list Prompt) (tn : bool)
    (p p' : Prompt) :
  ostr_truthy (pm_setId (p_metadata p)) = true ->
  ostr_truthy (pm_sessionId (p_metadata p)) = true ->
  (forall se, In se sessions -> Some (se_id se) = pm_sessionId (p_metadata p) ->
              Some (se_setId se) = pm_setId (p_metadata p) -> False) ->
  pm_setId (p_metadata p') = pm_setId (p_metadata p) ->
  pm_sessionId (p_metadata p') = pm_sessionId (p_metadata p) ->
  fst (serialize dsid now (mkPromptDocument fm sets sessions (pre ++ p :: post) tn)) =
  fst (serialize dsid now (mkPromptDocument fm sets sessions (pre ++ p' :: post) tn)).
Proof.
  intros Hset Hses Hnone Hs Hk.
  set (d1 := mkPromptDocument fm sets sessions (pre ++ p :: post) tn).
  set (d2 := mkPromptDocument fm sets sessions (pre ++ p' :: post) tn).
  assert (Hkey : session_key p' = session_key p) by (unfold session_key; rewrite Hk; reflexivity).
  assert (Hbp : forall sid key, bucket_pred sid key p = bucket_pred sid key p')
    by (intros; unfold bucket_pred; rewrite Hs, Hkey; reflexivity).
  assert (Hsp : forall sid, set_pred sid p = set_pred sid p')
    by (intros; unfold set_pred; rewrite Hs; reflexivity).
  assert (Horph : orphanPrompts d1 = orphanPrompts d2).
  { unfold orphanPrompts. apply filter_mid_false; cbn; [rewrite Hset|rewrite Hs, Hset]; reflexivity. }
  assert (Hbnil : forall sid key, bucket dsid d1 sid key = [] <-> bucket dsid d2 sid key = []).
  { intros sid key. rewrite !bucket_filter, Horph. apply app_nil_iff, filter_mid_nil, Hbp. }
  assert (Hspnil : forall sid, set_prompts dsid d1 sid = [] <-> set_prompts dsid d2 sid = []).
  { intros sid. rewrite !set_prompts_filter, Horph. apply app_nil_iff, filter_mid_nil, Hsp. }
  assert (Hids : forall sid, sessionIds dsid d1 sid = sessionIds dsid d2 sid).
  { intros sid. unfold sessionIds. f_equal.
    - apply match_nil_iff, Hbnil.
    - apply flat_map_ext_in. intros se _. destruct (jstr_eqb (se_setId se) sid); [|reflexivity].
      apply match_nil_iff, Hbnil. }
  assert (Hgroup : forall sid key, In key (sessionIds dsid d1 sid) ->
                     render_group dsid d1 sid key = render_group dsid d2 sid key).
  { intros sid key Hin.
    destruct (bucket_pred sid key p) eqn:Eb.
    - exfalso. unfold bucket_pred in Eb.
      apply andb_true_iff in Eb as [_ Eb]. apply andb_true_iff in Eb as [E1 E2].
      apply ostr_eqb_eq in E1. apply ostr_eqb_eq in E2.
      unfold session_key in E2. rewrite Hses in E2.
      apply in_sessionIds in Hin as [->|(se & Hse & Hsid & ->)]; [rewrite E2 in Hses; discriminate|].
      apply (Hnone se Hse); [rewrite E2; reflexivity|rewrite E1, Hsid; reflexivity].
    - unfold render_group. rewrite !bucket_filter, Horph. cbn [d_prompts d1 d2].
      rewrite (filter_mid_false (bucket_pred sid key) pre post p p'); [reflexivity|exact Eb|].
      rewrite <- Hbp. exact Eb. }
  assert (Hblocks : set_blocks dsid now d1 = set_blocks dsid now d2).
  { unfold set_blocks, setsToWrite. rewrite Horph.
    apply flat_map_ext_in. intros t _.
    assert (Hr : render_set dsid d1 t = render_set dsid d2 t).
    { unfold render_set.
      pose proof (Hspnil (ps_id t)) as Hn.
      destruct (set_prompts dsid d1 (ps_id t)) eqn:E1, (set_prompts dsid d2 (ps_id t)) eqn:E2;
        try reflexivity.
      - discriminate (proj1 Hn eq_refl).
      - discriminate (proj2 Hn eq_refl).
      - rewrite <- Hids. f_equal. f_equal. f_equal.
        apply flat_map_ext_in. intros key Hin. apply Hgroup. exact Hin. }
    rewrite Hr. reflexivity. }
  unfold serialize, serialize_text. cbn [fst]. rewrite Hblocks.
  assert (Hlen : List.length (d_prompts d1) = List.length (d_prompts d2)).
  { cbn [d_prompts d1 d2]. rewrite !length_app. reflexivity. }
  rewrite Hlen. reflexivity.
Qed.

Lemma serialize_omits_prompt_without_session_witness :
  ostr_truthy (pm_setId (p_metadata (sample_prompt (u "p") (u "x") (Some (u "a")) (Some (u "s"))))) = true /\
  ostr_truthy (pm_sessionId (p_metadata (sample_prompt (u "p") (u "x") (Some (u "a")) (Some (u "s"))))) = true /\
  (forall se, In se [mkSession (u "s") None (u "b") None] ->
     Some (se_id se) = pm_sessionId (p_metadata (sample_prompt (u "p") (u "x") (Some (u "a")) (Some (u "s")))) ->
     Some (se_setId se) = pm_setId (p_metadata (sample_prompt (u "p") (u "x") (Some (u "a")) (Some (u "s")))) ->
     False) /\
  fst (serialize (u "D") [] (mkPromptDocument (mkFileMetadata (u "2.0") []) [sample_set (u "a") true]
         [mkSession (u "s") None (u "b") None]
         ([] ++ sample_prompt (u "p") (u "x") (Some (u "a")) (Some (u "s")) :: []) true)) =
  fst (serialize (u "D") [] (mkPromptDocument (mkFileMetadata (u "2.0") []) [sample_set (u "a") true]
         [mkSession (u "s") None (u "b") None]
         ([] ++ sample_prompt (u "q") (u "other") (Some (u "a")) (Some (u "s")) :: []) true)).
Proof.
  assert (H1 : ostr_truthy (pm_setId (p_metadata (sample_prompt (u "p") (u "x") (Some (u "a")) (Some (u "s"))))) = true)
    by reflexivity.
  assert (H2 : ostr_truthy (pm_sessionId (p_metadata (sample_prompt (u "p") (u "x") (Some (u "a")) (Some (u "s"))))) = true)
    by reflexivity.
  assert (H3 : forall se, In se [mkSession (u "s") None (u "b") None] ->
     Some (se_id se) = pm_sessionId (p_metadata (sample_prompt (u "p") (u "x") (Some (u "a")) (Some (u "s")))) ->
     Some (se_setId se) = pm_setId (p_metadata (sample_prompt (u "p") (u "x") (Some (u "a")) (Some (u "s")))) ->
     False).
  { intros se [<-|[]] _ E. vm_compute in E. discriminate. }
  split; [exact H1|]. split; [exact H2|]. split; [exact H3|].
  exact (serialize_omits_prompt_without_session (u "D") [] _ _ _ [] [] true _ _ H1 H2 H3 eq_refl eq_refl).
Defined.

Lemma parse_some_set_active_witness :
  exists d, parse sample_ids [] c2_no_active_input = Ok d /\
  exists sets0,
    sets_before_activation sample_ids [] c2_no_active_input = Some sets0 /\
    (existsb (fun s => truthy (obj_get s (u "active"))) sets0 = true -> pd_sets d = sets0) /\
    (existsb (fun s => truthy (obj_get s (u "active"))) sets0 = false ->
       pd_sets d = match sets0 with
                   | [] => []
                   | s0 :: rest => obj_set s0 (u "active") (JBool true) :: rest
                   end) /\
    (pd_sets d <> [] -> existsb (fun s => truthy (obj_get s (u "active"))) (pd_sets d) = true) /\
    (blank (snd (extract_file_meta c2_no_active_input)) = true -> pd_sets d = []).
Proof.
  remember (parse sample_ids [] c2_no_active_input) as r eqn:E.
  destruct r as [d|e].
  - exists d. split; [reflexivity|].
    exact (parse_some_set_active sample_ids [] c2_no_active_input d (eq_sym E)).
  - vm_compute in E. discriminate E.
Defined.

Lemma strict_eqb_str (x : jsval) (g : jstr) : strict_eqb x (JStr g) = true <-> x = JStr g.
Proof.
  destruct x; simpl; split; intros H; try discriminate.
  - apply jstr_eqb_eq in H. subst. reflexivity.
  - injection H as ->. apply jstr_eqb_refl.
Qed.

Lemma obj_get_set_ne (o : obj) (k k' : jstr) (v : jsval) :
  jstr_eqb k' k = false -> obj_get (obj_set o k v) k' = obj_get o k'.
Proof. intros H. rewrite obj_get_set, H. reflexivity. Qed.

Lemma group_collapsed_ok (groups : jsval) (g : jstr) :
  groups <> JUndef -> groups <> JNull -> exists c, group_collapsed groups (JStr g) = Ok c.
Proof.
  intros Hu Hn. unfold group_collapsed. cbn [to_property_key].
  destruct groups; try congruence; try (eexists; reflexivity).
  - destruct (get_prop _ _); eexists; reflexivity.
  - destruct (obj_get _ _); eexists; reflexivity.
Qed.

Lemma v10_segment_grouped (nanoid : nat -> jstr) (now : jstr) (fm : jsval) (dsid : jstr)
    (sets : list obj) (prompts : list ParsedPrompt) (n : nat) (seg g : jstr) :
  trim seg <> [] -> segment_group seg = JStr g ->
  get_prop fm (u "groups") <> JUndef -> get_prop fm (u "groups") <> JNull ->
  exists p n',
    obj_get (pp_metadata p) (u "group") = JStr g /\
    match g with
    | [] => v10_segment nanoid now fm dsid (sets, prompts, n) seg = Ok (sets, prompts ++ [p], n') /\
            obj_get (pp_metadata p) (u "setId") = JStr dsid
    | _ :: _ =>
      match find (fun s => strict_eqb (obj_get s (u "name")) (JStr g)) sets with
      | Some s => v10_segment nanoid now fm dsid (sets, prompts, n) seg = Ok (sets, prompts ++ [p], n') /\
                  obj_get (pp_metadata p) (u "setId") = obj_get s (u "id")
      | None => exists S, obj_get S (u "name") = JStr g /\
                  v10_segment nanoid now fm dsid (sets, prompts, n) seg = Ok (sets ++ [S], prompts ++ [p], n') /\
                  obj_get (pp_metadata p) (u "setId") = obj_get S (u "id")
      end
    end.
Proof.
  intros Ht Hg Hu Hn.
  unfold v10_segment. unfold segment_group in Hg.
  destruct (trim seg) as [|c t]; [congruence|].
  destruct (PROMPT_META_REGEX (c :: t)) as [[cap after]|]; [|discriminate].
  destruct (json_parse cap) as [v|]; [|discriminate].
  cbv beta iota zeta.
  destruct (truthy (obj_get (as_obj v) (u "id"))); cbv beta iota zeta.
  all: rewrite ?(obj_get_set_ne (as_obj v) (u "id") (u "group") _ eq_refl), Hg.
  all: destruct g as [|a g']; cbn [truthy].
  1, 3: do 2 eexists; split; [|split; [reflexivity|]];
        cbn [pp_metadata]; rewrite ?obj_get_set_ne by reflexivity; try exact Hg;
        rewrite obj_get_set, jstr_eqb_refl; reflexivity.
  all: destruct (find _ sets) as [s|] eqn:Ef.
  all: try (destruct (group_collapsed_ok _ (a :: g') Hu Hn) as [c0 Hc]; rewrite Hc).
  all: do 2 eexists.
  all: first [ split; [|split; [reflexivity|]]
             | split; [|eexists; split; [|split; [reflexivity|]]] ].
  all: cbn [pp_metadata]; rewrite ?obj_get_set_ne by reflexivity; try exact Hg.
  all: try (rewrite obj_get_set, jstr_eqb_refl; reflexivity).
  all: reflexivity.
Qed.

Lemma v10_segment_blank (nanoid : nat -> jstr) (now : jstr) (fm : jsval) (dsid : jstr) acc seg :
  trim seg = [] -> v10_segment nanoid now fm dsid acc seg = Ok acc.
Proof.
  intros H. destruct acc as [[sets prompts] n]. unfold v10_segment. cbv beta iota zeta.
  rewrite H. reflexivity.
Qed.

Lemma find_past_default (now sid g : jstr) (gs : list obj) :
  find (fun s => strict_eqb (obj_get s (u "name")) (JStr g)) (v10_default_set now sid :: gs)
  = find (fun s => strict_eqb (obj_get s (u "name")) (JStr g)) gs.
Proof. reflexivity. Qed.

Lemma ensure_active_default (now sid : jstr) (gs : list obj) :
  ensure_active (v10_default_set now sid :: gs) = v10_default_set now sid :: gs.
Proof. reflexivity. Qed.

Lemma NoDup_snoc {A : Type} (l : list A) (x : A) : NoDup l -> ~ In x l -> NoDup (l ++ [x]).
Proof.
  induction l as [|y l IH]; simpl; intros H Hx.
  - constructor; [intros []|constructor].
  - inversion H as [|y' l' Hy Hl]; subst. constructor.
    + intros Hin. apply in_app_or in Hin as [Hin|[<-|[]]]; [contradiction|].
      apply Hx. left. reflexivity.
    + apply IH; [exact Hl|]. intros Hin. apply Hx. right. exact Hin.
Qed.

Lemma v10_loop_grouped (nanoid : nat -> jstr) (now : jstr) (fm : jsval) (dsid : jstr) segs :
  get_prop fm (u "groups") <> JUndef -> get_prop fm (u "groups") <> JNull ->
  (forall seg, In seg segs -> trim seg <> [] -> exists g, segment_group seg = JStr g) ->
  forall gs prompts n, grouped_inv dsid gs prompts ->
  exists gs' prompts' n',
    v10_loop nanoid now fm dsid (v10_default_set now dsid :: gs, prompts, n) segs
      = Ok (v10_default_set now dsid :: gs', prompts', n') /\
    grouped_inv dsid gs' prompts'.
Proof.
  intros Hu Hn. induction segs as [|seg segs IH]; cbn [v10_loop]; intros Hseg gs prompts n Hinv.
  { exists gs, prompts, n. split; [reflexivity|exact Hinv]. }
  assert (Hrest : forall s, In s segs -> trim s <> [] -> exists g, segment_group s = JStr g)
    by (intros s Hs; apply Hseg; right; exact Hs).
  destruct (trim seg) as [|c t] eqn:Ht.
  { rewrite v10_segment_blank by exact Ht. apply IH; assumption. }
  assert (Htn : trim seg <> []) by (rewrite Ht; discriminate).
  destruct (Hseg seg (or_introl eq_refl) Htn) as [g Hg].
  destruct (v10_segment_grouped nanoid now fm dsid (v10_default_set now dsid :: gs) prompts n seg g
              Htn Hg Hu Hn) as (p & n' & Hpg & Hcase).
  destruct Hinv as (Hnd & Hps & Hgs).
  destruct g as [|a g'].
  { destruct Hcase as [E Hsid]. rewrite E.
    apply IH; [exact Hrest|]. split; [exact Hnd|]. split.
    + intros q Hq. apply in_app_or in Hq as [Hq|[<-|[]]]; [apply Hps, Hq|].
      left. split; [exact Hpg|exact Hsid].
    + intros s' Hs'. destruct (Hgs s' Hs') as [Hne [q [Hq Hqg]]].
      split; [exact Hne|]. exists q. split; [apply in_or_app; left; exact Hq|exact Hqg]. }
  rewrite find_past_default in Hcase.
  assert (Hpne : obj_get (pp_metadata p) (u "group") <> JStr []) by (rewrite Hpg; discriminate).
  destruct (find _ gs) as [s|] eqn:Ef.
  - destruct Hcase as [E Hsid]. rewrite E.
    apply find_some in Ef as [Hs Hsn]. apply strict_eqb_str in Hsn.
    apply IH; [exact Hrest|]. split; [exact Hnd|]. split.
    + intros q Hq. apply in_app_or in Hq as [Hq|[<-|[]]]; [apply Hps, Hq|].
      right. split; [exact Hpne|].
      exists s. split; [exact Hs|]. split; [rewrite Hsn, Hpg; reflexivity|exact Hsid].
    + intros s' Hs'. destruct (Hgs s' Hs') as [Hne [q [Hq Hqg]]].
      split; [exact Hne|]. exists q. split; [apply in_or_app; left; exact Hq|exact Hqg].
  - destruct Hcase as (S & HSn & E & Hsid).
    change (v10_default_set now dsid :: gs ++ [S]) with ((v10_default_set now dsid :: gs) ++ [S]) in E.
    rewrite E. apply IH; [exact Hrest|]. split; [|split].
    + rewrite map_app. apply NoDup_snoc; [exact Hnd|]. cbn [map]. rewrite HSn.
      intros Hin. apply in_map_iff in Hin as [s [Hsn Hs]].
      pose proof (find_none _ _ Ef s Hs) as Hf. cbv beta in Hf.
      rewrite Hsn, (proj2 (strict_eqb_str _ _) eq_refl) in Hf. discriminate.
    + intros q Hq. apply in_app_or in Hq as [Hq|[<-|[]]].
      * destruct (Hps q Hq) as [Hq0|[Hqne [s [Hs Hrest']]]]; [left; exact Hq0|].
        right. split; [exact Hqne|].
        exists s. split; [apply in_or_app; left; exact Hs|exact Hrest'].
      * right. split; [exact Hpne|].
        exists S. split; [apply in_or_app; right; left; reflexivity|].
        split; [rewrite HSn, Hpg; reflexivity|exact Hsid].
    + intros s' Hs'. apply in_app_or in Hs' as [Hs'|[<-|[]]].
      * destruct (Hgs s' Hs') as [Hne [q [Hq Hqg]]].
        split; [exact Hne|]. exists q. split; [apply in_or_app; left; exact Hq|exact Hqg].
      * split; [rewrite HSn; discriminate|].
        exists p. split; [apply in_or_app; right; left; reflexivity|rewrite Hpg, HSn; reflexivity].
Qed.

(** C4 (amended): when the content reaches the v1.0 parser, the file
    metadata has a [groups] that is neither undefined nor null, and every
    non-blank segment carries a metadata comment whose [group] is a
    string, [parse] succeeds.  Its sets are the default set created up
    front (active, without a name), followed by exactly one set per
    distinct non-empty group name: the group sets have pairwise different
    names, and each is named by the [group] of some prompt, never by the
    empty string.  A prompt whose [group] is a non-empty string has as
    [setId] the id of the group set whose name is its [group]; a prompt
    whose [group] is the empty string has as [setId] the id of the
    default set, and no set is created for it. *)
Theorem parse_v10_one_set_per_group (nanoid : nat -> jstr) (now text : jstr) :
  v10_path text = true ->
  get_prop (fst (extract_file_meta text)) (u "groups") <> JUndef ->
  get_prop (fst (extract_file_meta text)) (u "groups") <> JNull ->
  (forall seg, In seg (split_separator (snd (extract_file_meta text))) -> trim seg <> [] ->
     exists g, segment_group seg = JStr g) ->
  exists d gs,
    parse nanoid now text = Ok d /\
    pd_sets d = v10_default_set now (nanoid 0) :: gs /\
    NoDup (map (fun s => obj_get s (u "name")) gs) /\
    (forall p, In p (pd_prompts d) -> obj_get (pp_metadata p) (u "group") = JStr [] ->
       obj_get (pp_metadata p) (u "setId") = obj_get (v10_default_set now (nanoid 0)) (u "id")) /\
    (forall p, In p (pd_prompts d) -> obj_get (pp_metadata p) (u "group") <> JStr [] ->
       exists s, In s gs /\
       obj_get s (u "name") = obj_get (pp_metadata p) (u "group") /\
       obj_get (pp_metadata p) (u "setId") = obj_get s (u "id")) /\
    (forall s, In s gs -> obj_get s (u "name") <> JStr [] /\ exists p, In p (pd_prompts d) /\
       obj_get (pp_metadata p) (u "group") = obj_get s (u "name")).
Proof.
  unfold v10_path, parse. destruct (extract_file_meta text) as [fm content].
  cbn [fst snd]. intros Hpath Hu Hn Hseg.
  destruct (blank content), (detectV20Format content), (includes content (u "<!-- set:"));
    try discriminate.
  destruct (v10_loop_grouped nanoid now fm (nanoid 0) (split_separator content) Hu Hn Hseg [] [] 1)
    as (gs & ps & n & E & Hnd & Hps & Hgs).
  { split; [constructor|]. split; [intros p []|intros s []]. }
  unfold parseV10Format. cbv zeta.
  match goal with |- context [v10_loop ?a ?b ?c ?i ?acc ?segs] =>
    change (v10_loop a b c i acc segs)
      with (v10_loop a b c i ([v10_default_set now (nanoid 0)], [], 1) segs) end.
  rewrite E. rewrite ensure_active_default.
  eexists; exists gs. split; [reflexivity|]. cbn [pd_sets pd_prompts].
  split; [reflexivity|]. split; [exact Hnd|]. split; [|split].
  - intros p Hp Hg. destruct (Hps p Hp) as [[_ Hsid]|[Hne _]]; [exact Hsid|contradiction].
  - intros p Hp Hg. destruct (Hps p Hp) as [[He _]|[_ Hs]]; [contradiction|exact Hs].
  - exact Hgs.
Qed.

Lemma parse_v10_one_set_per_group_witness :
  exists d gs,
    parse sample_ids [] c4_grouped_input = Ok d /\
    pd_sets d = v10_default_set [] (sample_ids 0) :: gs /\
    NoDup (map (fun s => obj_get s (u "name")) gs) /\
    (forall p, In p (pd_prompts d) -> obj_get (pp_metadata p) (u "group") = JStr [] ->
       obj_get (pp_metadata p) (u "setId") = obj_get (v10_default_set [] (sample_ids 0)) (u "id")) /\
    (forall p, In p (pd_prompts d) -> obj_get (pp_metadata p) (u "group") <> JStr [] ->
       exists s, In s gs /\
       obj_get s (u "name") = obj_get (pp_metadata p) (u "group") /\
       obj_get (pp_metadata p) (u "setId") = obj_get s (u "id")) /\
    (forall s, In s gs -> obj_get s (u "name") <> JStr [] /\ exists p, In p (pd_prompts d) /\
       obj_get (pp_metadata p) (u "group") = obj_get s (u "name")).
Proof.
  apply (parse_v10_one_set_per_group sample_ids [] c4_grouped_input).
  - vm_compute. reflexivity.
  - vm_compute. discriminate.
  - vm_compute. discriminate.
  - intros seg Hin _. vm_compute in Hin.
    destruct Hin as [<-|[<-|[<-|[<-|[]]]]];
      [exists (u "g")|exists (u "h")|exists (u "g")|exists []]; vm_compute; reflexivity.
Defined.

(** C1 counterexample: every prompt of [c1_doc] names one of its two
    sets, both sets have prompts, and there are no sessions; the round
    trip gives the prompts back grouped by set, p1, p3, p2, where the
    document holds p1, p2, p3. *)
Lemma c1_prompt_order_not_kept :
  map (fun p => JStr (p_id p)) (d_prompts c1_doc) = [JStr (u "p1"); JStr (u "p2"); JStr (u "p3")] /\
  match parse sample_ids [] (fst (serialize (u "D") [] c1_doc)) with
  | Ok d' =>
      map pp_id (pd_prompts d') = [JStr (u "p1"); JStr (u "p3"); JStr (u "p2")] /\
      map set_view (pd_sets d') = map typed_set_view (d_sets c1_doc)
  | Throw _ => False
  end.
Proof. vm_compute. split; [reflexivity|split; reflexivity]. Qed.

(* ------------------------------------------------------------------ *)
(** ** Lines of joined text *)

Lemma split_nl_cons (c : N) (s : jstr) :
  split_nl (c :: s) =
  if is_nl c then [] :: split_nl s else (c :: hd [] (split_nl s)) :: tl (split_nl s).
Proof.
  unfold split_nl. simpl. destruct (split_on is_nl s) as [[l ls] ts].
  destruct (is_nl c); reflexivity.
Qed.

Lemma split_nl_nil : split_nl [] = [[]].
Proof. reflexivity. Qed.

Lemma split_nl_not_nil (s : jstr) : exists l ls, split_nl s = l :: ls.
Proof. unfold split_nl. destruct (split_on is_nl s) as [[l ls] ts]. eauto. Qed.

Lemma split_nl_app (x y : jstr) : split_nl (x ++ 10%N :: y) = split_nl x ++ split_nl y.
Proof.
  induction x as [|c x IH].
  - simpl app. rewrite split_nl_cons. reflexivity.
  - simpl app. rewrite !split_nl_cons, IH.
    destruct (is_nl c); [reflexivity|].
    destruct (split_nl_not_nil x) as (l & ls & ->). reflexivity.
Qed.

Lemma split_nl_free (x : jstr) :
  forallb (fun c => negb (is_nl c)) x = true -> split_nl x = [x].
Proof.
  induction x as [|c x IH]; simpl; intros H; [reflexivity|].
  apply andb_true_iff in H as [Hc Hx]. rewrite split_nl_cons, IH by exact Hx.
  destruct (is_nl c); [discriminate|reflexivity].
Qed.

Lemma join_cons_head (sep : jstr) (c : N) (l : jstr) (ls : list jstr) :
  join sep ((c :: l) :: ls) = c :: join sep (l :: ls).
Proof. destruct ls; reflexivity. Qed.

Lemma join_split_nl (x : jstr) : join [10%N] (split_nl x) = x.
Proof.
  induction x as [|c x IH]; [reflexivity|].
  rewrite split_nl_cons. destruct (is_nl c) eqn:Hc.
  - unfold is_nl in Hc. apply N.eqb_eq in Hc. subst c.
    destruct (split_nl_not_nil x) as (l & ls & Hs). rewrite Hs in *.
    change (join [10%N] ([] :: l :: ls)) with (10%N :: join [10%N] (l :: ls)).
    rewrite IH. reflexivity.
  - destruct (split_nl_not_nil x) as (l & ls & Hs). rewrite Hs in *.
    cbn [hd tl]. rewrite join_cons_head, IH. reflexivity.
Qed.

Lemma split_nl_join (xs : list jstr) :
  xs <> [] -> split_nl (join [10%N] xs) = flat_map split_nl xs.
Proof.
  induction xs as [|x [|y ys] IH]; intros H; [congruence| |].
  - cbn [join flat_map]. rewrite app_nil_r. reflexivity.
  - change (join [10%N] (x :: y :: ys)) with (x ++ [10%N] ++ join [10%N] (y :: ys)).
    cbn [app]. rewrite split_nl_app, IH by discriminate. reflexivity.
Qed.

Lemma split_nl_join_blank (x : jstr) (xs : list jstr) :
  split_nl (join (u "~~") (x :: xs)) = split_nl x ++ flat_map (fun y => [] :: split_nl y) xs.
Proof.
  revert x. induction xs as [|y ys IH]; intros x.
  - cbn [join flat_map]. rewrite app_nil_r. reflexivity.
  - change (join (u "~~") (x :: y :: ys)) with (x ++ 10%N :: 10%N :: join (u "~~") (y :: ys)).
    rewrite split_nl_app, split_nl_cons, IH. reflexivity.
Qed.

(* ------------------------------------------------------------------ *)
(** ** [JSON.parse] after [JSON.stringify] *)

Lemma hex_val_digit (n : N) : (n < 16)%N -> hex_val (hex_digit n) = Some n.
Proof.
  intros Hn. unfold hex_digit, hex_val. destruct (N.ltb_spec n 10).
  - replace ((48 <=? 48 + n) && (48 + n <=? 57))%N with true
      by (symmetry; apply andb_true_iff; split; apply N.leb_le; lia).
    f_equal. lia.
  - replace ((48 <=? 87 + n) && (87 + n <=? 57))%N with false
      by (symmetry; apply andb_false_iff; right; apply N.leb_gt; lia).
    replace ((97 <=? 87 + n) && (87 + n <=? 102))%N with true
      by (symmetry; apply andb_true_iff; split; apply N.leb_le; lia).
    f_equal. lia.
Qed.

Lemma hex4_escape (c : N) : (c < 65536)%N ->
  hex4 (hex_digit (c / 4096 mod 16)) (hex_digit (c / 256 mod 16))
       (hex_digit (c / 16 mod 16)) (hex_digit (c mod 16)) = Some c.
Proof.
  intros Hc. unfold hex4.
  rewrite !hex_val_digit by (apply N.mod_lt; discriminate).
  f_equal.
  assert (E1 : (c = 16 * (c / 16) + c mod 16)%N) by (apply N.div_mod; discriminate).
  assert (E2 : (c / 16 = 16 * (c / 16 / 16) + c / 16 mod 16)%N) by (apply N.div_mod; discriminate).
  assert (E3 : (c / 16 / 16 = 16 * (c / 16 / 16 / 16) + c / 16 / 16 mod 16)%N)
    by (apply N.div_mod; discriminate).
  assert (D2 : (c / 256 = c / 16 / 16)%N) by (rewrite N.Div0.div_div; reflexivity).
  assert (D3 : (c / 4096 = c / 16 / 16 / 16)%N) by (rewrite !N.Div0.div_div; reflexivity).
  assert (B : (c / 4096 < 16)%N) by (apply N.Div0.div_lt_upper_bound; lia).
  rewrite (N.mod_small (c / 4096) 16 B).
  rewrite D2. rewrite D3 in *. lia.
Qed.

Lemma quote_unit_spec (c : N) :
  quote_unit c =
  if (c =? 8)%N then [92; 98]%N else if (c =? 9)%N then [92; 116]%N
  else if (c =? 10)%N then [92; 110]%N else if (c =? 12)%N then [92; 102]%N
  else if (c =? 13)%N then [92; 114]%N else if (c =? 34)%N then [92; 34]%N
  else if (c =? 92)%N then [92; 92]%N
  else if (c <? 32)%N then unicode_escape c else [c].
Proof.
  unfold quote_unit. destruct c as [|p]; [reflexivity|].
  do 7 (try destruct p as [p|p|]); reflexivity.
Qed.

Lemma json_body_u (acc : jstr) (a b c d x : N) (rest : jstr) :
  hex4 a b c d = Some x ->
  json_string_body acc (92%N :: 117%N :: a :: b :: c :: d :: rest) = json_string_body (x :: acc) rest.
Proof. intros H. simpl. rewrite H. reflexivity. Qed.

Lemma json_escape_step (acc : jstr) (c : N) (rest : jstr) :
  (c < 65536)%N -> json_string_body acc (unicode_escape c ++ rest) = json_string_body (c :: acc) rest.
Proof. intros Hc. apply json_body_u, hex4_escape, Hc. Qed.

Lemma json_body_plain (acc : jstr) (c : N) (rest : jstr) :
  c <> 34%N -> c <> 92%N -> (32 <= c)%N ->
  json_string_body acc (c :: rest) = json_string_body (c :: acc) rest.
Proof.
  intros H1 H2 H3. cbn [json_string_body].
  rewrite (proj2 (N.eqb_neq c 34) H1), (proj2 (N.eqb_neq c 92) H2).
  replace (c <? 32)%N with false by (symmetry; apply N.ltb_ge; exact H3). reflexivity.
Qed.

Lemma json_body_short (acc : jstr) (e d : N) (rest : jstr) :
  short_escape e = Some d ->
  json_string_body acc (92%N :: e :: rest) = json_string_body (d :: acc) rest.
Proof. intros H. simpl. rewrite H. reflexivity. Qed.

Ltac surrogate_bound H :=
  unfold is_high_surrogate, is_low_surrogate in H;
  apply andb_true_iff in H as [?%N.leb_le ?%N.leb_le].

Lemma json_string_body_quote (n : nat) : forall (s acc r : jstr), List.length s <= n ->
  json_string_body acc (quote_units s ++ 34%N :: r) = Some (rev acc ++ s, r).
Proof.
  induction n as [|n IH]; intros s acc r Hlen.
  { destruct s; [|simpl in Hlen; lia]. simpl. rewrite app_nil_r. reflexivity. }
  destruct s as [|c s].
  { simpl. rewrite app_nil_r. reflexivity. }
  simpl in Hlen. cbn [quote_units].
  assert (Hfin : forall (c' : N) (s' acc' : jstr),
            Some (rev (c' :: acc') ++ s', r) = Some (rev acc' ++ c' :: s', r))
    by (intros; simpl; rewrite <- app_assoc; reflexivity).
  destruct (is_high_surrogate c) eqn:Hh.
  - destruct s as [|d s].
    + rewrite json_escape_step by (surrogate_bound Hh; lia). simpl.
      reflexivity.
    + destruct (is_low_surrogate d) eqn:Hl.
      * pose proof Hh as Hh'. surrogate_bound Hh'. pose proof Hl as Hl'. surrogate_bound Hl'.
        cbn [app]. rewrite json_body_plain by lia. rewrite json_body_plain by lia.
        simpl in Hlen. rewrite IH by lia. simpl. rewrite <- !app_assoc. reflexivity.
      * rewrite <- app_assoc, json_escape_step by (surrogate_bound Hh; lia).
        rewrite IH by lia. apply Hfin.
  - destruct (is_low_surrogate c) eqn:Hl.
    + rewrite <- app_assoc, json_escape_step by (surrogate_bound Hl; lia).
      rewrite IH by lia. apply Hfin.
    + rewrite <- app_assoc, quote_unit_spec.
      destruct (N.eqb_spec c 8) as [->|H8];
        [simpl; rewrite IH by lia; apply Hfin|].
      destruct (N.eqb_spec c 9) as [->|H9];
        [simpl; rewrite IH by lia; apply Hfin|].
      destruct (N.eqb_spec c 10) as [->|H10];
        [simpl; rewrite IH by lia; apply Hfin|].
      destruct (N.eqb_spec c 12) as [->|H12];
        [simpl; rewrite IH by lia; apply Hfin|].
      destruct (N.eqb_spec c 13) as [->|H13];
        [simpl; rewrite IH by lia; apply Hfin|].
      destruct (N.eqb_spec c 34) as [->|H34];
        [simpl; rewrite IH by lia; apply Hfin|].
      destruct (N.eqb_spec c 92) as [->|H92];
        [simpl; rewrite IH by lia; apply Hfin|].
      destruct (N.ltb_spec c 32) as [Hlt|Hge].
      * rewrite json_escape_step by lia. rewrite IH by lia. apply Hfin.
      * cbn [app]. rewrite json_body_plain by assumption. rewrite IH by lia. apply Hfin.
Qed.

Lemma json_value_quote (f : nat) (s rest : jstr) :
  json_value (S f) (json_quote s ++ rest) = Some (JStr s, rest).
Proof.
  unfold json_quote. rewrite <- app_comm_cons, <- app_assoc. cbn [app].
  simpl. rewrite json_string_body_quote with (n := List.length s) by lia. reflexivity.
Qed.

Lemma json_value_metaval (f : nat) (v : metaval) (rest : jstr) :
  json_value (S f) (stringify_metaval v ++ rest) = Some (metaval_js v, rest).
Proof. destruct v as [s|[|]]; [apply json_value_quote|reflexivity|reflexivity]. Qed.

Lemma obj_set_fresh (acc : obj) (k : jstr) (v : jsval) :
  ~ In k (map fst acc) -> obj_set acc k v = acc ++ [(k, v)].
Proof.
  induction acc as [|[k' v'] acc IH]; simpl; intros H; [reflexivity|].
  rewrite jstr_eqb_neq by (intros ->; apply H; left; reflexivity).
  rewrite IH by (intros Hin; apply H; right; exact Hin). reflexivity.
Qed.

Lemma json_members_step (f : nat) (acc : obj) (k : jstr) (v : metaval) (r : jstr) :
  json_members (S (S f)) acc (json_member (k, v) ++ r) =
  match skip_json_ws r with
  | 44%N :: r4 => json_members (S f) (obj_set acc k (metaval_js v)) r4
  | 125%N :: r4 => Some (JObj (obj_set acc k (metaval_js v)), r4)
  | _ => None
  end.
Proof.
  unfold json_member, json_quote. cbn [fst snd].
  rewrite <- !app_assoc. cbn [app]. rewrite <- !app_assoc. cbn [app].
  cbn [json_members skip_json_ws json_ws N.eqb Pos.eqb orb].
  rewrite json_string_body_quote with (n := List.length k) by lia. cbn [rev app].
  cbn [skip_json_ws json_ws N.eqb Pos.eqb orb].
  rewrite json_value_metaval. reflexivity.
Qed.

Lemma json_members_ok (o : list (jstr * metaval)) : forall acc f rest,
  o <> [] -> List.length o <= f -> NoDup (map fst acc ++ map fst o) ->
  json_members (S f) acc (join [44%N] (map json_member o) ++ 125%N :: rest)
  = Some (JObj (acc ++ meta_obj o), rest).
Proof.
  induction o as [|[k v] o IH]; intros acc f rest Hne Hlen Hnd; [congruence|].
  destruct f as [|f]; [simpl in Hlen; lia|].
  assert (Hfresh : ~ In k (map fst acc)).
  { cbn [map fst] in Hnd. apply NoDup_remove_2 in Hnd.
    intros Hin. apply Hnd. apply in_or_app. left. exact Hin. }
  assert (Hnd' : NoDup (map fst (acc ++ [(k, metaval_js v)]) ++ map fst o)).
  { rewrite map_app, <- app_assoc. exact Hnd. }
  destruct o as [|y o].
  - change (join [44%N] (map json_member [(k, v)])) with (json_member (k, v)).
    rewrite json_members_step. cbn [skip_json_ws json_ws N.eqb Pos.eqb orb].
    rewrite obj_set_fresh by exact Hfresh. reflexivity.
  - change (join [44%N] (map json_member ((k, v) :: y :: o)))
      with (json_member (k, v) ++ [44%N] ++ join [44%N] (map json_member (y :: o))).
    rewrite <- !app_assoc. rewrite json_members_step. cbn [app skip_json_ws json_ws N.eqb Pos.eqb orb].
    rewrite obj_set_fresh by exact Hfresh.
    simpl in Hlen.
    rewrite IH by (try discriminate; simpl; lia || exact Hnd').
    rewrite <- app_assoc. reflexivity.
Qed.

Lemma json_stringify_eq (o : list (jstr * metaval)) :
  json_stringify o = [123%N] ++ join [44%N] (map json_member o) ++ [125%N].
Proof. unfold json_stringify. do 3 f_equal. apply map_ext. intros [k v]. reflexivity. Qed.

Lemma length_join_ge (sep : jstr) (xs : list jstr) :
  (forall x, In x xs -> x <> []) -> List.length xs <= List.length (join sep xs).
Proof.
  induction xs as [|x [|y xs] IH]; intros H; [simpl; lia| |].
  - destruct x; [exfalso; apply (H []); simpl; auto|simpl; lia].
  - change (join sep (x :: y :: xs)) with (x ++ sep ++ join sep (y :: xs)).
    rewrite !length_app.
    assert (Hx : x <> []) by (apply H; simpl; auto).
    assert (IH' := IH (fun z Hz => H z (or_intror Hz))).
    destruct x; [congruence|]. cbn [List.length] in *. lia.
Qed.

Lemma json_parse_stringify (o : list (jstr * metaval)) :
  o <> [] -> NoDup (map fst o) -> json_parse (json_stringify o) = Some (JObj (meta_obj o)).
Proof.
  intros Hne Hnd. rewrite json_stringify_eq. unfold json_parse.
  assert (HJ : exists J', join [44%N] (map json_member o) = 34%N :: J').
  { destruct o as [|[k v] [|y o]]; [congruence| |]; eexists; reflexivity. }
  assert (Hlen : List.length o <= List.length (join [44%N] (map json_member o))).
  { rewrite <- (length_map json_member o). apply length_join_ge.
    intros x Hx. apply in_map_iff in Hx as [[k v] [<- _]]. discriminate. }
  remember (List.length ([123%N] ++ join [44%N] (map json_member o) ++ [125%N])) as n eqn:Hn.
  rewrite !length_app in Hn. cbn [List.length] in Hn.
  destruct n as [|[|f]]; [lia|lia|].
  destruct HJ as [J' HJ]. rewrite HJ.
  cbn [app json_value skip_json_ws json_ws N.eqb Pos.eqb orb].
  change (34%N :: J' ++ [125%N]) with ((34%N :: J') ++ [125%N]). rewrite <- HJ.
  rewrite (json_members_ok o [] (S f) []) by (try exact Hne; try exact Hnd; lia).
  reflexivity.
Qed.

Lemma line_free_app (a b : jstr) : line_free (a ++ b) = line_free a && line_free b.
Proof. unfold line_free. apply forallb_app. Qed.

Lemma hex_digit_not_term (n : N) : (n < 16)%N -> is_line_term (hex_digit n) = false.
Proof.
  intros H. unfold hex_digit, is_line_term.
  destruct (N.ltb_spec n 10);
    repeat rewrite (proj2 (N.eqb_neq _ _)) by lia; reflexivity.
Qed.

Lemma line_free_unicode_escape (c : N) : line_free (unicode_escape c) = true.
Proof.
  unfold unicode_escape, line_free. cbn [forallb].
  rewrite !hex_digit_not_term by (apply N.mod_lt; discriminate). reflexivity.
Qed.

Lemma line_free_quote_unit (c : N) :
  negb ((c =? 8232) || (c =? 8233))%N = true -> line_free (quote_unit c) = true.
Proof.
  intros Hc. rewrite quote_unit_spec.
  destruct (N.eqb_spec c 8); [reflexivity|].
  destruct (N.eqb_spec c 9); [reflexivity|].
  destruct (N.eqb_spec c 10); [reflexivity|].
  destruct (N.eqb_spec c 12); [reflexivity|].
  destruct (N.eqb_spec c 13); [reflexivity|].
  destruct (N.eqb_spec c 34); [reflexivity|].
  destruct (N.eqb_spec c 92); [reflexivity|].
  destruct (N.ltb_spec c 32); [apply line_free_unicode_escape|].
  unfold line_free, is_line_term. cbn [forallb].
  destruct (N.eqb_spec c 8232), (N.eqb_spec c 8233); try discriminate Hc.
  rewrite (proj2 (N.eqb_neq c 10)), (proj2 (N.eqb_neq c 13)) by lia. reflexivity.
Qed.

Lemma surrogate_not_term (c : N) :
  is_high_surrogate c = true \/ is_low_surrogate c = true -> is_line_term c = false.
Proof.
  unfold is_high_surrogate, is_low_surrogate, is_line_term.
  intros [H|H]; apply andb_true_iff in H as [H1%N.leb_le H2%N.leb_le];
    repeat rewrite (proj2 (N.eqb_neq _ _)) by lia; reflexivity.
Qed.

Lemma line_free_quote_units (n : nat) : forall s : jstr,
  List.length s <= n -> ls_free s = true -> line_free (quote_units s) = true.
Proof.
  induction n as [|n IH]; intros s Hlen Hs.
  - destruct s; [reflexivity|simpl in Hlen; lia].
  - destruct s as [|c s]; [reflexivity|].
    unfold ls_free in Hs. cbn [forallb] in Hs. apply andb_true_iff in Hs as [Hc Hs].
    fold (ls_free s) in Hs. cbn [List.length] in Hlen.
    cbn [quote_units].
    destruct (is_high_surrogate c) eqn:Hh.
    + destruct s as [|d s'].
      * apply line_free_unicode_escape.
      * unfold ls_free in Hs. cbn [forallb] in Hs. apply andb_true_iff in Hs as [Hd Hs'].
        fold (ls_free s') in Hs'. cbn [List.length] in Hlen.
        destruct (is_low_surrogate d) eqn:Hl.
        -- unfold line_free. cbn [forallb].
           rewrite !surrogate_not_term by auto. cbn [negb andb].
           apply IH; [lia|exact Hs'].
        -- rewrite line_free_app, line_free_unicode_escape. apply IH; [simpl; lia|].
           unfold ls_free. cbn [forallb]. rewrite Hd. exact Hs'.
    + destruct (is_low_surrogate c) eqn:Hl.
      * rewrite line_free_app, line_free_unicode_escape. apply IH; [lia|exact Hs].
      * rewrite line_free_app, line_free_quote_unit by exact Hc. apply IH; [lia|exact Hs].
Qed.

Lemma line_free_json_quote (s : jstr) : ls_free s = true -> line_free (json_quote s) = true.
Proof.
  intros Hs. unfold json_quote. change (line_free ([34%N] ++ quote_units s ++ [34%N]) = true).
  rewrite !line_free_app, (line_free_quote_units (List.length s) s) by (auto; lia). reflexivity.
Qed.

Lemma line_free_join (sep : jstr) (xs : list jstr) :
  line_free sep = true -> forallb line_free xs = true -> line_free (join sep xs) = true.
Proof.
  intros Hsep. induction xs as [|x [|y xs] IH]; intros H; [reflexivity| |].
  - simpl in H. rewrite andb_true_r in H. exact H.
  - change (join sep (x :: y :: xs)) with (x ++ sep ++ join sep (y :: xs)).
    cbn [forallb] in H. apply andb_true_iff in H as [Hx H].
    rewrite !line_free_app, Hx, Hsep, IH by exact H. reflexivity.
Qed.

Lemma line_free_json_stringify (o : list (jstr * metaval)) :
  meta_strings_ok o = true -> line_free (json_stringify o) = true.
Proof.
  intros H. rewrite json_stringify_eq, !line_free_app.
  rewrite line_free_join; [reflexivity|reflexivity|].
  unfold meta_strings_ok in H. rewrite forallb_forall in H. apply forallb_forall.
  intros x Hx. apply in_map_iff in Hx as [[k v] [<- Hin]].
  apply H in Hin. cbn [fst snd] in Hin. apply andb_true_iff in Hin as [Hk Hv].
  unfold json_member. cbn [fst snd]. rewrite !line_free_app, line_free_json_quote by exact Hk.
  destruct v as [s|[|]]; [|reflexivity|reflexivity].
  cbn [stringify_metaval]. rewrite line_free_json_quote by exact Hv. reflexivity.
Qed.

Lemma drop_ws_app_stop (y w : jstr) (c : N) :
  is_ws c = false -> exists t, drop_ws (y ++ c :: w) = t ++ c :: w.
Proof.
  intros Hc. induction y as [|a y IH].
  - exists []. simpl. rewrite Hc. reflexivity.
  - simpl. destruct (is_ws a); [exact IH|]. exists (a :: y). reflexivity.
Qed.

Lemma jstr_eqb_length (a b : jstr) : jstr_eqb a b = true -> List.length a = List.length b.
Proof. intros H. apply jstr_eqb_eq in H. subst. reflexivity. Qed.

Lemma tail_not_ok (y : jstr) : comment_tail_ok true (y ++ 125%N :: u " -->") = false.
Proof.
  unfold comment_tail_ok. destruct (drop_ws_app_stop y (u " -->") 125%N eq_refl) as [t Ht].
  rewrite Ht. destruct (jstr_eqb _ _) eqn:E; [|reflexivity].
  apply jstr_eqb_length in E. rewrite length_app in E. simpl in E. lia.
Qed.

Lemma lazy_brace_meta (y : jstr) : forall acc,
  line_free y = true ->
  lazy_brace true acc (y ++ 125%N :: u " -->") = Some (rev acc ++ y ++ [125%N], []).
Proof.
  induction y as [|c y IH]; intros acc Hy.
  - reflexivity.
  - unfold line_free in Hy. cbn [forallb] in Hy. apply andb_true_iff in Hy as [Hc Hy].
    cbn [app lazy_brace]. rewrite tail_not_ok, andb_false_r.
    apply negb_true_iff in Hc. rewrite Hc. rewrite IH by exact Hy.
    cbn [rev]. rewrite <- app_assoc. reflexivity.
Qed.

Lemma METADATA_meta_comment (o : list (jstr * metaval)) :
  meta_strings_ok o = true -> METADATA_REGEX (meta_comment o) = Some (json_stringify o).
Proof.
  intros Ho. pose proof (line_free_json_stringify o Ho) as Hl.
  unfold METADATA_REGEX, meta_comment, comment_regex.
  rewrite json_stringify_eq in *. rewrite !line_free_app in Hl.
  apply andb_true_iff in Hl as [_ Hl]. apply andb_true_iff in Hl as [Hl _].
  set (X := join [44%N] (map json_member o)).
  rewrite <- !app_assoc. cbn [app].
  change (u "<!-- " ++ 123%N :: X ++ 125%N :: u " -->")
    with (60%N :: 33%N :: 45%N :: 45%N :: 32%N :: 123%N :: X ++ 125%N :: u " -->").
  change (prefixb (u "<!--") (60%N :: 33%N :: 45%N :: 45%N :: ?r)) with true.
  cbn iota beta. cbn [skipn drop_ws]. change (is_ws 32) with true. change (is_ws 123) with false.
  cbn iota beta. cbn [drop_ws]. change (is_ws 123) with false. cbn iota beta.
  cbn [prefixb List.length skipn drop_ws]. change (is_ws 123) with false. cbn iota beta.
  rewrite lazy_brace_meta by exact Hl. reflexivity.
Qed.

Lemma read_meta_comment (o : list (jstr * metaval)) :
  o <> [] -> NoDup (map fst o) -> meta_strings_ok o = true ->
  read_meta (Some (meta_comment o)) = Some (meta_obj o).
Proof.
  intros Hne Hnd Ho. unfold read_meta. rewrite METADATA_meta_comment by exact Ho.
  rewrite json_parse_stringify by assumption. reflexivity.
Qed.


Section RoundTrip.

Variable nanoid : nat -> jstr.
Variable now : jstr.

Lemma runs_app st ls1 st1 ls2 st2 :
  runs nanoid now st ls1 st1 -> runs nanoid now st1 ls2 st2 -> runs nanoid now st (ls1 ++ ls2) st2.
Proof. intros H1 H2 rest. rewrite <- app_assoc, H1, H2. reflexivity. Qed.

Lemma runs_nil st : runs nanoid now st [] st.
Proof. intros rest. reflexivity. Qed.

Lemma step_app b ls1 ls2 s1 s2 p1 p2 :
  step_from nanoid now b ls1 s1 p1 -> step_from nanoid now true ls2 s2 p2 ->
  step_from nanoid now b (ls1 ++ ls2) (s1 ++ s2) (p1 ++ p2).
Proof.
  intros H1 H2 st a c Hs Ht.
  destruct (H1 st a c Hs Ht) as (st1 & Hr1 & Hs1 & Ht1).
  destruct (H2 st1 _ _ Hs1 (fun _ => Ht1)) as (st2 & Hr2 & Hs2 & Ht2).
  exists st2. split; [exact (runs_app _ _ _ _ _ Hr1 Hr2)|]. rewrite !app_assoc. auto.
Qed.

Lemma step_nil : step_from nanoid now true [] [] [].
Proof. intros st a c Hs Ht. exists st. rewrite !app_nil_r. split; [apply runs_nil|auto]. Qed.

Lemma step_weaken b ls s p : step_from nanoid now false ls s p -> step_from nanoid now b ls s p.
Proof. intros H st a c Hs _. apply (H st a c Hs). discriminate. Qed.

Lemma step_flat_map {A : Type} (f : A -> list jstr) (g : A -> list (jsval * jstr * jsval)) (xs : list A) :
  (forall x, In x xs -> step_from nanoid now true (f x) [] (g x)) ->
  step_from nanoid now true (flat_map f xs) [] (flat_map g xs).
Proof.
  induction xs as [|x xs IH]; intros H; [apply step_nil|].
  cbn [flat_map]. change (@nil (jsval * jsval * jsval * jsval))
    with (@nil (jsval * jsval * jsval * jsval) ++ []).
  apply step_app; [apply H; left; reflexivity|]. apply IH. intros y Hy. apply H. right. exact Hy.
Qed.

End RoundTrip.

Lemma length_drop_ws (s : jstr) : drop_ws s = s \/ List.length (drop_ws s) < List.length s.
Proof.
  induction s as [|c s IH]; simpl; [auto|].
  destruct (is_ws c); [right; destruct IH as [->|IH]; simpl; lia|left; reflexivity].
Qed.

Lemma trim_fixed_drop_ws (n : jstr) : trim n = n -> drop_ws n = n.
Proof.
  intros H. destruct (length_drop_ws n) as [E|E]; [exact E|].
  exfalso. unfold trim in H. apply (f_equal (@List.length N)) in H.
  rewrite length_rev in H.
  destruct (length_drop_ws (rev (drop_ws n))) as [E2|E2];
    [rewrite E2, length_rev in H|rewrite length_rev in E2]; lia.
Qed.

Lemma line_free_drop_ws (s : jstr) : line_free s = true -> line_free (drop_ws s) = true.
Proof.
  induction s as [|c s IH]; simpl; [auto|]. intros H.
  unfold line_free in H. cbn [forallb] in H. apply andb_true_iff in H as [Hc H].
  destruct (is_ws c); [apply IH; exact H|]. unfold line_free. cbn [forallb]. rewrite Hc. exact H.
Qed.

Lemma hm_set (o : option jstr) :
  set_name_ok o = true ->
  heading_match 1 (u "# " ++ or_empty o) = Some (match o with Some n => JStr n | None => JUndef end).
Proof.
  destruct o as [[|c n]|]; [discriminate| |reflexivity].
  intros H. cbn [set_name_ok] in H. apply andb_true_iff in H as [Ht Hl].
  apply jstr_eqb_eq in Ht. pose proof (trim_fixed_drop_ws _ Ht) as Hd.
  unfold heading_match, heading_regex. cbn [or_empty].
  change (u "# " ++ c :: n) with (35%N :: 32%N :: c :: n).
  cbn [repeat prefixb N.eqb Pos.eqb andb skipn]. change (is_ws 32) with true.
  cbv iota beta. change (drop_ws (32%N :: c :: n)) with (drop_ws (c :: n)). rewrite Hd.
  change (forallb (fun c0 : N => negb (is_line_term c0)) (c :: n)) with (line_free (c :: n)).
  rewrite Hl. cbn [andb]. rewrite Ht. reflexivity.
Qed.

Lemma hm_session (nm : jstr) :
  line_free nm = true ->
  heading_match 1 (u "## " ++ nm) = None /\ exists v, heading_match 2 (u "## " ++ nm) = Some v.
Proof.
  intros Hl. change (u "## " ++ nm) with (35%N :: 35%N :: 32%N :: nm). split; [reflexivity|].
  unfold heading_match, heading_regex.
  cbn [repeat prefixb N.eqb Pos.eqb andb skipn]. change (is_ws 32) with true.
  cbv iota beta. change (drop_ws (32%N :: nm)) with (drop_ws nm).
  pose proof (line_free_drop_ws nm Hl) as Hd. unfold line_free in Hd. rewrite Hd.
  cbn [andb]. eexists. reflexivity.
Qed.

Lemma hm_prompt (nm : jstr) :
  line_free nm = true ->
  heading_match 1 (u "### " ++ nm) = None /\ heading_match 2 (u "### " ++ nm) = None /\
  exists v, heading_match 3 (u "### " ++ nm) = Some v.
Proof.
  intros Hl. change (u "### " ++ nm) with (35%N :: 35%N :: 35%N :: 32%N :: nm).
  split; [reflexivity|]. split; [reflexivity|].
  unfold heading_match, heading_regex.
  cbn [repeat prefixb N.eqb Pos.eqb andb skipn]. change (is_ws 32) with true.
  cbv iota beta. change (drop_ws (32%N :: nm)) with (drop_ws nm).
  pose proof (line_free_drop_ws nm Hl) as Hd. unfold line_free in Hd. rewrite Hd.
  cbn [andb]. eexists. reflexivity.
Qed.

Lemma nodupb_NoDup (xs : list jstr) : nodupb xs = true -> NoDup xs.
Proof.
  induction xs as [|x xs IH]; simpl; intros H; [constructor|].
  apply andb_true_iff in H as [Hx H]. constructor; [|exact (IH H)].
  intros Hin. apply negb_true_iff in Hx.
  assert (E2 : existsb (jstr_eqb x) xs = true) by (apply existsb_exists; exists x; split; [exact Hin|apply jstr_eqb_refl]).
  congruence.
Qed.

Lemma map_fst_opt_field (k : jstr) (o : option jstr) :
  map fst (opt_field k o) = if ostr_truthy o then [k] else [].
Proof. destruct o as [[|c s]|]; reflexivity. Qed.

Lemma set_meta_keys (s : PromptSet) : NoDup (map fst (set_meta s)).
Proof.
  apply nodupb_NoDup. unfold set_meta. rewrite !map_app, !map_fst_opt_field.
  destruct (ps_collapsed s), (ostr_truthy (ps_folderLink s)), (ostr_truthy (Some (ps_created s)));
    reflexivity.
Qed.

Lemma session_meta_keys (se : Session) : NoDup (map fst (session_meta se)).
Proof. apply nodupb_NoDup. unfold session_meta. destruct (se_collapsed se) as [[|]|]; reflexivity. Qed.

Lemma prompt_meta_keys (p : Prompt) : NoDup (map fst (prompt_meta p)).
Proof.
  apply nodupb_NoDup. unfold prompt_meta. rewrite !map_app, !map_fst_opt_field.
  destruct (ostr_truthy (Some _)), (ostr_truthy (pm_updated _)), (ostr_truthy (pm_folderLink _)),
    (ostr_truthy (pm_claudeSessionId _)), (ostr_truthy (pm_claudeMessageId _)),
    (ostr_truthy (pm_executedAt _)), (ostr_truthy (pm_responsePreview _)); reflexivity.
Qed.

Lemma meta_strings_ok_app (a b : list (jstr * metaval)) :
  meta_strings_ok (a ++ b) = meta_strings_ok a && meta_strings_ok b.
Proof. unfold meta_strings_ok. apply forallb_app. Qed.

Lemma meta_strings_opt_field (k : jstr) (o : option jstr) :
  ls_free k = true -> ostr_ls_free o = true -> meta_strings_ok (opt_field k o) = true.
Proof.
  intros Hk Ho. destruct o as [[|c s]|]; try reflexivity.
  cbn [opt_field ostr_truthy]. unfold meta_strings_ok. cbn [forallb fst snd].
  rewrite Hk. cbn [ostr_ls_free] in Ho. rewrite Ho. reflexivity.
Qed.

Lemma set_meta_strings (s : PromptSet) : set_ok s = true -> meta_strings_ok (set_meta s) = true.
Proof.
  unfold set_ok. intros H. repeat rewrite andb_true_iff in H. destruct H as [[[[_ _] Hid] Hcr] Hfl].
  unfold set_meta. rewrite !meta_strings_ok_app.
  rewrite !meta_strings_opt_field by (first [reflexivity | assumption]).
  unfold meta_strings_ok at 1. cbn [forallb fst snd]. rewrite Hid.
  destruct (ps_collapsed s); reflexivity.
Qed.

Lemma session_meta_strings (se : Session) : session_ok se = true -> meta_strings_ok (session_meta se) = true.
Proof.
  unfold session_ok. intros H. apply andb_true_iff in H as [_ Hid].
  unfold session_meta. rewrite meta_strings_ok_app.
  unfold meta_strings_ok at 1. cbn [forallb fst snd]. rewrite Hid.
  destruct (se_collapsed se) as [[|]|]; reflexivity.
Qed.

Lemma prompt_meta_strings (p : Prompt) : prompt_ok p = true -> meta_strings_ok (prompt_meta p) = true.
Proof.
  unfold prompt_ok. intros H. repeat rewrite andb_true_iff in H.
  destruct H as [[[[[_ _] Hid] Hcr] Hopt] _].
  cbn [forallb] in Hopt. repeat rewrite andb_true_iff in Hopt.
  destruct Hopt as [H1 [H2 [H3 [H4 [H5 [H6 _]]]]]].
  unfold prompt_meta. rewrite !meta_strings_ok_app.
  rewrite !meta_strings_opt_field by (first [reflexivity | assumption]).
  unfold meta_strings_ok at 1. cbn [forallb fst snd]. rewrite Hid.
  destruct (pm_status (p_metadata p)); reflexivity.
Qed.

Lemma set_meta_lookup (s : PromptSet) :
  obj_get (meta_obj (set_meta s)) (u "id") = JStr (ps_id s) /\
  obj_get (meta_obj (set_meta s)) (u "active") = JBool (ps_active s) /\
  obj_get (meta_obj (set_meta s)) (u "collapsed") = if ps_collapsed s then JBool true else JUndef.
Proof.
  destruct s as [id nm act col cr fl]. unfold set_meta. cbn [ps_id ps_active ps_collapsed ps_folderLink ps_created].
  split; [reflexivity|]. split; [reflexivity|].
  destruct col; [reflexivity|]. destruct fl as [[|c f]|], cr as [|c' cr]; reflexivity.
Qed.

Lemma set_view_the_set (i n a c cr fl : jsval) :
  set_view [(u "id", i); (u "name", n); (u "active", a); (u "collapsed", c);
            (u "created", cr); (u "folderLink", fl)] = (i, n, a, c).
Proof. reflexivity. Qed.

Lemma prompt_status_the_meta (i n s si st cr up fl cs cm ex rp : jsval) :
  obj_get [(u "id", i); (u "name", n); (u "setId", s); (u "sessionId", si); (u "status", st);
           (u "created", cr); (u "updated", up); (u "folderLink", fl); (u "claudeSessionId", cs);
           (u "claudeMessageId", cm); (u "executedAt", ex); (u "responsePreview", rp)] (u "status") = st.
Proof. reflexivity. Qed.

Lemma prompt_meta_lookup (p : Prompt) :
  obj_get (meta_obj (prompt_meta p)) (u "id") = JStr (p_id p) /\
  obj_get (meta_obj (prompt_meta p)) (u "status") = JStr (status_string (pm_status (p_metadata p))).
Proof. split; reflexivity. Qed.

Lemma line_free_meta_comment (o : list (jstr * metaval)) :
  meta_strings_ok o = true -> line_free (meta_comment o) = true.
Proof.
  intros H. unfold meta_comment. rewrite !line_free_app, line_free_json_stringify by exact H.
  reflexivity.
Qed.

Lemma line_free_nl_free (s : jstr) : line_free s = true -> forallb (fun c => negb (is_nl c)) s = true.
Proof.
  unfold line_free. rewrite !forallb_forall. intros H c Hc. specialize (H c Hc).
  unfold is_line_term in H. unfold is_nl. destruct (c =? 10)%N; [discriminate|reflexivity].
Qed.

Section RoundTripSteps.

Variable nanoid : nat -> jstr.
Variable now : jstr.

Lemma v20_line_plain (st : V20State) (l : jstr) (next : option jstr) :
  plain_line l = true -> v20_line nanoid now st l next = (push_line st l, false).
Proof.
  unfold plain_line. intros H.
  destruct (heading_match 1 l) eqn:H1; [discriminate|].
  destruct (heading_match 2 l) eqn:H2; [discriminate|].
  destruct (heading_match 3 l) eqn:H3; [discriminate|].
  apply negb_true_iff in H.
  unfold v20_line. destruct (read_meta next); rewrite H1, H2, H3, H;
    unfold push_line, with_buf; destruct (v_prompt st); reflexivity.
Qed.

Lemma runs_plain (st : V20State) (l : jstr) :
  plain_line l = true -> runs nanoid now st [l] (push_line st l).
Proof.
  intros H rest. cbn [app v20_loop]. rewrite v20_line_plain by exact H. reflexivity.
Qed.

Lemma save_shape (st : V20State) :
  pending_ok st -> exists bf, saveCurrentPrompt st =
    mkV20 (v_sets st) (v_sessions st) (held_prompts st) (v_setId st) (v_sessionId st) None bf
      (v_next st).
Proof.
  unfold held_prompts, pending_ok. intros H.
  destruct st as [s1 s2 s3 s4 s5 [[pid md]|] b n]; cbn [v_prompt] in H; unfold saveCurrentPrompt;
    cbn [v_prompt v_sets v_sessions v_prompts v_setId v_sessionId v_buf v_next].
  - rewrite H. eexists. reflexivity.
  - eexists. reflexivity.
Qed.

Lemma held_no_pending (st : V20State) : v_prompt st = None -> held_prompts st = v_prompts st.
Proof. intros H. unfold held_prompts, saveCurrentPrompt. rewrite H. reflexivity. Qed.

Lemma trim_blank_lines_snoc (buf : list jstr) (b : jstr) :
  blank b = true -> trim_blank_lines (buf ++ [b]) = trim_blank_lines buf.
Proof.
  intros Hb. unfold trim_blank_lines. rewrite rev_app_distr. cbn [rev app drop_blank].
  rewrite Hb. reflexivity.
Qed.

Lemma step_blank : step_from nanoid now true [[]] [] [].
Proof.
  intros st a c [Hv [Hp Hg]] Ht. exists (push_line st []).
  split; [apply runs_plain; reflexivity|]. rewrite !app_nil_r.
  unfold push_line, sim. destruct (v_prompt st) as [[pid md]|] eqn:E;
    [|exact (conj (conj Hv (conj Hp Hg)) (Ht eq_refl))].
  unfold with_buf. cbn [v_sets v_prompt v_setId].
  refine (conj (conj Hv (conj _ _)) (Ht eq_refl)).
  - rewrite <- Hp. unfold held_prompts, saveCurrentPrompt. cbn [v_prompt]. rewrite E.
    unfold pending_ok in Hg. rewrite E in Hg. rewrite Hg.
    cbn [v_prompts v_buf]. rewrite trim_blank_lines_snoc by reflexivity. reflexivity.
  - unfold pending_ok in *. cbn [v_prompt]. rewrite E in *. exact Hg.
Qed.

Lemma with_buf_same (st : V20State) : with_buf st (v_buf st) = st.
Proof. destruct st. reflexivity. Qed.

Lemma runs_content (ls : list jstr) : forallb plain_line ls = true ->
  forall st, v_prompt st <> None -> runs nanoid now st ls (with_buf st (v_buf st ++ ls)).
Proof.
  induction ls as [|l ls IH]; intros H st Hp.
  - rewrite app_nil_r, with_buf_same. apply runs_nil.
  - cbn [forallb] in H. apply andb_true_iff in H as [Hl H].
    change (l :: ls) with ([l] ++ ls). eapply runs_app; [apply runs_plain, Hl|].
    unfold push_line. destruct (v_prompt st) as [x|] eqn:E; [|congruence].
    replace (with_buf st (v_buf st ++ [l] ++ ls))
      with (with_buf (with_buf st (v_buf st ++ [l])) (v_buf (with_buf st (v_buf st ++ [l])) ++ ls)).
    + apply (IH H). unfold with_buf. cbn [v_prompt]. congruence.
    + unfold with_buf. cbn [v_sets v_sessions v_prompts v_setId v_sessionId v_prompt v_buf v_next].
      rewrite <- app_assoc. reflexivity.
Qed.

End RoundTripSteps.

Lemma count_hashes_deep (k : nat) (rest : jstr) : count_hashes (repeat 35%N k ++ 32%N :: rest) = k.
Proof. induction k as [|k IH]; [reflexivity|]. cbn [repeat app count_hashes]. rewrite IH. reflexivity. Qed.

Lemma nth_deep (k : nat) (rest : jstr) : nth k (repeat 35%N k ++ 32%N :: rest) 0%N = 32%N.
Proof. induction k as [|k IH]; [reflexivity|]. exact IH. Qed.

Lemma deep_heading_reflect (l : jstr) : deep_heading_line l -> deep_heading_lineb l = true.
Proof.
  intros (k & rest & Hk & ->). unfold deep_heading_lineb.
  rewrite count_hashes_deep, nth_deep. apply andb_true_iff. split; [apply Nat.leb_le; exact Hk|reflexivity].
Qed.

Lemma trim_blank_lines_id (ls : list jstr) :
  blank (hd [] ls) = false -> blank (last ls []) = false -> trim_blank_lines ls = ls.
Proof.
  intros Hh Hl. destruct ls as [|l ls']; [discriminate|].
  assert (Hne : l :: ls' <> []) by discriminate.
  destruct (exists_last Hne) as [init [z E]]. rewrite E in Hl. rewrite last_last in Hl.
  unfold trim_blank_lines. rewrite E at 1. rewrite rev_app_distr. cbn [rev app drop_blank].
  rewrite Hl. cbn [rev]. rewrite rev_involutive, <- E.
  cbn [drop_blank]. cbn [hd] in Hh. rewrite Hh. reflexivity.
Qed.

Lemma content_lines_ok (c : jstr) : content_ok c = true ->
  let lines := match c with [] => [] | _ :: _ => split_nl (promoteContentHeadings c) end in
  forallb plain_line lines = true /\
  demoteContentHeadings (join [10%N] (trim_blank_lines lines)) = c.
Proof.
  intros H. unfold content_ok in H. apply andb_true_iff in H as [Hdeep H].
  assert (Hdp : demoteContentHeadings (promoteContentHeadings c) = c).
  { apply demote_promote_id. intros line Hin Hd. apply deep_heading_reflect in Hd.
    rewrite forallb_forall in Hdeep. specialize (Hdeep line Hin). rewrite Hd in Hdeep. discriminate. }
  destruct c as [|x c']; [split; reflexivity|]. cbv zeta.
  repeat rewrite andb_true_iff in H. destruct H as [[Hpl Hh] Hl].
  apply negb_true_iff in Hh, Hl.
  split; [exact Hpl|]. rewrite trim_blank_lines_id by assumption.
  rewrite join_split_nl. exact Hdp.
Qed.

Lemma render_prompt_lines (p : Prompt) : prompt_ok p = true ->
  split_nl (render_prompt p) =
  [u "### " ++ or_empty (pm_name (p_metadata p)); meta_comment (prompt_meta p)]
  ++ match p_content p with [] => [] | _ :: _ => split_nl (promoteContentHeadings (p_content p)) end.
Proof.
  intros Hok. pose proof (prompt_meta_strings p Hok) as Hms.
  unfold prompt_ok in Hok. repeat rewrite andb_true_iff in Hok.
  destruct Hok as [[[[[_ Hname] _] _] _] _].
  unfold render_prompt. rewrite app_assoc. cbn [app]. rewrite split_nl_app.
  rewrite (split_nl_free (u "### " ++ or_empty (pm_name (p_metadata p)))).
  2:{ rewrite forallb_app, (line_free_nl_free _ Hname). reflexivity. }
  pose proof (line_free_nl_free _ (line_free_meta_comment _ Hms)) as Hm.
  destruct (p_content p) as [|x c].
  - rewrite app_nil_r, split_nl_free by exact Hm. reflexivity.
  - cbn [app]. rewrite split_nl_app, split_nl_free by exact Hm. reflexivity.
Qed.

Lemma held_pending (st : V20State) (pid : jsval) (md : obj) :
  v_prompt st = Some (pid, md) -> truthy pid = true ->
  held_prompts st = v_prompts st ++
    [mkParsedPrompt pid (demoteContentHeadings (join [10%N] (trim_blank_lines (v_buf st)))) md].
Proof. intros E H. unfold held_prompts, saveCurrentPrompt. rewrite E, H. reflexivity. Qed.

Lemma status_truthy (s : PromptStatus) : truthy (JStr (status_string s)) = true.
Proof. destruct s; reflexivity. Qed.

Section RoundTripHeadings.

Variable nanoid : nat -> jstr.
Variable now : jstr.

Lemma step_set_heading (s : PromptSet) : set_ok s = true ->
  step_from nanoid now false [u "# " ++ or_empty (ps_name s); meta_comment (set_meta s)]
    [typed_set_view s] [].
Proof.
  intros Hok st a c [Hv [Hp Hg]] _.
  pose proof Hok as Hok'. unfold set_ok in Hok'. repeat rewrite andb_true_iff in Hok'.
  destruct Hok' as [[[[Hid Hname] _] _] _].
  assert (Hread : read_meta (Some (meta_comment (set_meta s))) = Some (meta_obj (set_meta s))).
  { apply read_meta_comment; [discriminate|apply set_meta_keys|apply set_meta_strings, Hok]. }
  pose proof (hm_set _ Hname) as Hh1.
  destruct (save_shape st Hg) as [bf Hsc].
  destruct (set_meta_lookup s) as [Lid [Lact Lcol]].
  eexists. split.
  - intros rest. cbn [app v20_loop hd_error].
    unfold v20_line. rewrite Hread, Hh1. cbv beta iota zeta. rewrite Hsc.
    cbn [v_sets v_sessions v_prompts v_setId v_sessionId v_prompt v_buf v_next].
    reflexivity.
  - unfold sim. cbn [v_sets v_prompt v_setId].
    rewrite held_no_pending by reflexivity. cbn [v_prompts]. rewrite app_nil_r.
    rewrite map_app, Hv. cbn [map]. rewrite set_view_the_set, Lid, Lact, Lcol.
    unfold js_or. cbn [truthy]. rewrite Hid. unfold typed_set_view.
    split; [split; [|split; [exact Hp|exact I]]|exact Hid].
    destruct (ps_collapsed s); reflexivity.
Qed.


Lemma step_session_heading (se : Session) : session_ok se = true ->
  step_from nanoid now true [u "## " ++ or_empty (se_name se); meta_comment (session_meta se)] [] [].
Proof.
  intros Hok st a c [Hv [Hp Hg]] Ht. specialize (Ht eq_refl).
  pose proof Hok as Hok'. unfold session_ok in Hok'. apply andb_true_iff in Hok' as [Hname _].
  assert (Hread : read_meta (Some (meta_comment (session_meta se))) = Some (meta_obj (session_meta se))).
  { apply read_meta_comment; [discriminate|apply session_meta_keys|apply session_meta_strings, Hok]. }
  destruct (hm_session _ Hname) as [Hh1 [v Hh2]].
  destruct (save_shape st Hg) as [bf Hsc].
  eexists. split.
  - intros rest. cbn [app v20_loop hd_error].
    unfold v20_line. rewrite Hread, Hh1, Hh2. cbv beta iota zeta. rewrite Hsc.
    unfold ensureSet.
    cbn [v_sets v_sessions v_prompts v_setId v_sessionId v_prompt v_buf v_next].
    rewrite Ht. cbv beta iota zeta.
    cbn [v_sets v_sessions v_prompts v_setId v_sessionId v_prompt v_buf v_next].
    reflexivity.
  - unfold sim. cbn [v_sets v_prompt v_setId].
    rewrite held_no_pending by reflexivity. cbn [v_prompts]. rewrite !app_nil_r.
    split; [split; [exact Hv|split; [exact Hp|exact I]]|exact Ht].
Qed.

Lemma step_prompt (p : Prompt) : prompt_ok p = true ->
  step_from nanoid now true (split_nl (render_prompt p)) [] [typed_prompt_view p].
Proof.
  intros Hok st a c [Hv [Hp Hg]] Ht. specialize (Ht eq_refl).
  pose proof Hok as Hok'. unfold prompt_ok in Hok'. repeat rewrite andb_true_iff in Hok'.
  destruct Hok' as [[[[[Hid Hname] _] _] _] Hcont].
  rewrite render_prompt_lines by exact Hok.
  destruct (content_lines_ok _ Hcont) as [Hpl Hdem].
  set (lines := match p_content p with [] => [] | _ :: _ => split_nl (promoteContentHeadings (p_content p)) end) in *.
  assert (Hread : read_meta (Some (meta_comment (prompt_meta p))) = Some (meta_obj (prompt_meta p))).
  { apply read_meta_comment; [discriminate|apply prompt_meta_keys|apply prompt_meta_strings, Hok]. }
  destruct (hm_prompt _ Hname) as [Hh1 [Hh2 [v Hh3]]].
  destruct (save_shape st Hg) as [bf Hsc].
  destruct (prompt_meta_lookup p) as [Lid Lst].
  eexists. split.
  - eapply runs_app.
    + intros rest. cbn [app v20_loop hd_error].
      unfold v20_line. rewrite Hread, Hh1, Hh2, Hh3. cbv beta iota zeta. rewrite Hsc.
      unfold ensureSet.
      cbn [v_sets v_sessions v_prompts v_setId v_sessionId v_prompt v_buf v_next].
      rewrite Ht. cbv beta iota zeta.
      cbn [v_sets v_sessions v_prompts v_setId v_sessionId v_prompt v_buf v_next].
      reflexivity.
    + apply runs_content; [exact Hpl|]. cbn [v_prompt]. discriminate.
  - unfold sim, with_buf.
    cbn [v_sets v_sessions v_prompts v_setId v_sessionId v_prompt v_buf v_next].
    rewrite Lid, Lst. unfold js_or. rewrite status_truthy. cbn [truthy]. rewrite Hid.
    erewrite held_pending by (first [reflexivity|exact Hid]).
    cbn [v_prompts v_buf app]. rewrite map_app, Hp. cbn [map].
    unfold prompt_view at 1. cbn [pp_id pp_content pp_metadata].
    rewrite prompt_status_the_meta.
    split; [split; [rewrite app_nil_r; exact Hv|split; [|exact Hid]]|exact Ht].
    unfold typed_prompt_view. repeat f_equal. exact Hdem.
Qed.

End RoundTripHeadings.

Lemma flat_map_flat_map {A B C : Type} (f : A -> list B) (g : B -> list C) (l : list A) :
  flat_map g (flat_map f l) = flat_map (fun x => flat_map g (f x)) l.
Proof. induction l as [|x l IH]; simpl; [reflexivity|]. rewrite flat_map_app, IH. reflexivity. Qed.

Lemma map_flat_map' {A B C : Type} (f : B -> C) (g : A -> list B) (l : list A) :
  map f (flat_map g l) = flat_map (fun x => map f (g x)) l.
Proof. induction l as [|x l IH]; simpl; [reflexivity|]. rewrite map_app, IH. reflexivity. Qed.

Lemma flat_map_map_comp {A B C : Type} (f : B -> list C) (g : A -> B) (l : list A) :
  flat_map f (map g l) = flat_map (fun x => f (g x)) l.
Proof. induction l as [|x l IH]; simpl; [reflexivity|]. rewrite IH. reflexivity. Qed.

Lemma map_as_flat_map {A B : Type} (f : A -> B) (l : list A) :
  map f l = flat_map (fun x => [f x]) l.
Proof. induction l as [|x l IH]; simpl; [reflexivity|]. rewrite IH. reflexivity. Qed.

Lemma prompt_ok_set_setId (p : Prompt) (v : jstr) : prompt_ok (set_prompt_setId p v) = prompt_ok p.
Proof. reflexivity. Qed.

Lemma bucket_ok (dsid : jstr) (d : PromptDocument) (sid : jstr) (key : option jstr) :
  forallb prompt_ok (d_prompts d) = true -> forall q, In q (bucket dsid d sid key) -> prompt_ok q = true.
Proof.
  intros H q Hq. rewrite forallb_forall in H. unfold bucket in Hq.
  apply in_app_or in Hq as [Hq|Hq].
  - apply filter_In in Hq as [Hq _]. apply filter_In in Hq as [Hq _]. exact (H q Hq).
  - destruct key; [destruct Hq|]. destruct (jstr_eqb sid dsid); [|destruct Hq].
    apply in_map_iff in Hq as [q' [<- Hq']]. unfold orphanPrompts in Hq'.
    apply filter_In in Hq' as [Hq' _]. rewrite prompt_ok_set_setId. exact (H q' Hq').
Qed.

Lemma sessionsById_in (d : PromptDocument) (k : jstr) (se : Session) :
  sessionsById d k = Some se -> In se (d_sessions d).
Proof. unfold sessionsById. intros H. apply find_some in H as [H _]. apply in_rev. exact H. Qed.

Section RoundTripBlocks.

Variable nanoid : nat -> jstr.
Variable now : jstr.

Lemma step_prompts (p : Prompt) (ps : list Prompt) :
  forallb prompt_ok (p :: ps) = true ->
  step_from nanoid now true (split_nl (join (u "~~") (map render_prompt (p :: ps))))
    [] (map typed_prompt_view (p :: ps)).
Proof.
  intros H. cbn [forallb] in H. apply andb_true_iff in H as [Hp H].
  cbn [map]. rewrite split_nl_join_blank.
  change (@nil (jsval * jsval * jsval * jsval)) with (@nil (jsval * jsval * jsval * jsval) ++ []).
  change (typed_prompt_view p :: map typed_prompt_view ps)
    with ([typed_prompt_view p] ++ map typed_prompt_view ps).
  apply step_app; [apply step_prompt, Hp|].
  rewrite flat_map_map_comp, map_as_flat_map.
  apply step_flat_map. intros q Hq.
  change ([] :: split_nl (render_prompt q)) with ([[]] ++ split_nl (render_prompt q)).
  change [typed_prompt_view q] with ([] ++ [typed_prompt_view q]).
  change (@nil (jsval * jsval * jsval * jsval)) with (@nil (jsval * jsval * jsval * jsval) ++ []).
  apply step_app; [apply step_blank|]. apply step_prompt.
  rewrite forallb_forall in H. exact (H q Hq).
Qed.

Lemma step_group (dsid : jstr) (d : PromptDocument) (sid : jstr) (key : option jstr) :
  forallb prompt_ok (d_prompts d) = true -> forallb session_ok (d_sessions d) = true ->
  step_from nanoid now true (flat_map split_nl (render_group dsid d sid key))
    [] (map typed_prompt_view (bucket dsid d sid key)).
Proof.
  intros Hps Hses. pose proof (bucket_ok dsid d sid key Hps) as Hb.
  unfold render_group. destruct (bucket dsid d sid key) as [|p ps] eqn:Eb; [apply step_nil|].
  assert (Hall : forallb prompt_ok (p :: ps) = true) by (apply forallb_forall; exact Hb).
  assert (Hgrp := step_prompts p ps Hall).
  destruct key as [k|].
  2:{ cbn [app flat_map]. rewrite app_nil_r. exact Hgrp. }
  destruct (ostr_truthy (Some k)); [|cbn [app flat_map]; rewrite app_nil_r; exact Hgrp].
  destruct (sessionsById d k) as [se|] eqn:Es; [|cbn [app flat_map]; rewrite app_nil_r; exact Hgrp].
  assert (Hse : session_ok se = true).
  { rewrite forallb_forall in Hses. apply Hses. exact (sessionsById_in d k se Es). }
  pose proof Hse as Hse'. unfold session_ok in Hse'. apply andb_true_iff in Hse' as [Hname Hid].
  cbn [app flat_map]. rewrite app_nil_r.
  rewrite (split_nl_free (u "## " ++ or_empty (se_name se))).
  2:{ rewrite forallb_app, (line_free_nl_free _ Hname). reflexivity. }
  rewrite split_nl_app, (split_nl_free (meta_comment (session_meta se))), split_nl_nil.
  2:{ apply line_free_nl_free, line_free_meta_comment, session_meta_strings, Hse. }
  change ([u "## " ++ or_empty (se_name se)] ++ ([meta_comment (session_meta se)] ++ [[]])
          ++ split_nl (join (u "~~") (map render_prompt (p :: ps))))
    with ([u "## " ++ or_empty (se_name se); meta_comment (session_meta se)] ++ [[]]
          ++ split_nl (join (u "~~") (map render_prompt (p :: ps)))).
  change (@nil (jsval * jsval * jsval * jsval))
    with (@nil (jsval * jsval * jsval * jsval) ++ [] ++ []).
  change (map typed_prompt_view (p :: ps)) with ([] ++ [] ++ map typed_prompt_view (p :: ps)).
  apply step_app; [apply step_session_heading, Hse|].
  apply step_app; [apply step_blank|exact Hgrp].
Qed.

End RoundTripBlocks.

Lemma set_name_line_free (o : option jstr) : set_name_ok o = true -> line_free (or_empty o) = true.
Proof.
  destruct o as [[|c n]|]; cbn [set_name_ok or_empty]; try discriminate; [|reflexivity].
  intros H. apply andb_true_iff in H as [_ H]. exact H.
Qed.

Lemma set_ok_name (s : PromptSet) : set_ok s = true -> line_free (or_empty (ps_name s)) = true.
Proof.
  unfold set_ok. intros H. repeat rewrite andb_true_iff in H. destruct H as [[[[_ H] _] _] _].
  apply set_name_line_free, H.
Qed.

Section RoundTripSets.
Variable nanoid : nat -> jstr.
Variable now : jstr.

Lemma step_set_block (dsid snow : jstr) (d : PromptDocument) (s : PromptSet) (b : jstr) :
  set_ok s = true ->
  forallb prompt_ok (d_prompts d) = true -> forallb session_ok (d_sessions d) = true ->
  render_set dsid d s = Some b ->
  step_from nanoid now false (split_nl b) [typed_set_view s]
    (map typed_prompt_view (flat_map (bucket dsid d (ps_id s)) (sessionIds dsid d (ps_id s)))).
Proof.
  intros Hs Hps Hses Hr. unfold render_set in Hr.
  destruct (set_prompts dsid d (ps_id s)); [discriminate|].
  assert (Hb : b = join [10%N] ([u "# " ++ or_empty (ps_name s); meta_comment (set_meta s) ++ [10%N]]
               ++ flat_map (render_group dsid d (ps_id s)) (sessionIds dsid d (ps_id s)))) by congruence.
  rewrite Hb.
  rewrite split_nl_join by discriminate.
  rewrite flat_map_app. cbn [flat_map]. rewrite app_nil_r.
  rewrite (split_nl_free (u "# " ++ or_empty (ps_name s))).
  2:{ rewrite forallb_app, (line_free_nl_free _ (set_ok_name s Hs)). reflexivity. }
  rewrite split_nl_app, (split_nl_free (meta_comment (set_meta s))), split_nl_nil.
  2:{ apply line_free_nl_free, line_free_meta_comment, set_meta_strings, Hs. }
  rewrite flat_map_flat_map, map_flat_map'.
  change ([u "# " ++ or_empty (ps_name s)] ++ ([meta_comment (set_meta s)] ++ [[]])
          ++ flat_map (fun x => flat_map split_nl (render_group dsid d (ps_id s) x)) (sessionIds dsid d (ps_id s)))
    with ([u "# " ++ or_empty (ps_name s); meta_comment (set_meta s)] ++ [[]]
          ++ flat_map (fun x => flat_map split_nl (render_group dsid d (ps_id s) x)) (sessionIds dsid d (ps_id s))).
  change [typed_set_view s] with ([typed_set_view s] ++ [] ++ []).
  match goal with |- step_from _ _ _ _ _ ?P => change P with ([] ++ [] ++ P) end.
  apply (step_app nanoid now false [u "# " ++ or_empty (ps_name s); meta_comment (set_meta s)]);
    [apply step_set_heading, Hs|].
  apply (step_app nanoid now true [[]]); [apply step_blank|].
  apply step_flat_map. intros k _. apply step_group; assumption.
Qed.

End RoundTripSets.

Section RoundTripDoc.
Variable nanoid : nat -> jstr.
Variable now : jstr.

Lemma step_flat_map_sets {A : Type} (f : A -> list jstr) (h : A -> list (jsval * jsval * jsval * jsval))
    (g : A -> list (jsval * jstr * jsval)) (xs : list A) :
  (forall x, In x xs -> step_from nanoid now true (f x) (h x) (g x)) ->
  step_from nanoid now true (flat_map f xs) (flat_map h xs) (flat_map g xs).
Proof.
  induction xs as [|x xs IH]; intros H; [apply step_nil|].
  cbn [flat_map]. apply step_app; [apply H; left; reflexivity|].
  apply IH. intros y Hy. apply H. right. exact Hy.
Qed.

Lemma step_blocks (dsid snow : jstr) (d : PromptDocument) (t : PromptSet) (b : jstr)
    (bs : list (PromptSet * jstr)) :
  forallb prompt_ok (d_prompts d) = true -> forallb session_ok (d_sessions d) = true ->
  (forall t' b', In (t', b') ((t, b) :: bs) -> set_ok t' = true /\ render_set dsid d t' = Some b') ->
  step_from nanoid now false (split_nl (join (u "~~") (map snd ((t, b) :: bs))))
    (map (fun sb => typed_set_view (fst sb)) ((t, b) :: bs))
    (map typed_prompt_view
       (flat_map (fun sb => flat_map (bucket dsid d (ps_id (fst sb))) (sessionIds dsid d (ps_id (fst sb))))
          ((t, b) :: bs))).
Proof.
  intros Hps Hses Hall. cbn [map]. rewrite split_nl_join_blank.
  cbn [flat_map fst]. rewrite map_app.
  change (typed_set_view t :: map (fun sb => typed_set_view (fst sb)) bs)
    with ([typed_set_view t] ++ map (fun sb => typed_set_view (fst sb)) bs).
  destruct (Hall t b (or_introl eq_refl)) as [Ht Hr].
  apply step_app; [apply (step_set_block nanoid now dsid snow); assumption|].
  rewrite flat_map_map_comp, map_flat_map', (map_as_flat_map (fun sb => typed_set_view (fst sb))).
  apply step_flat_map_sets. intros [t' b'] Hin. cbn [snd fst].
  destruct (Hall t' b' (or_intror Hin)) as [Ht' Hr'].
  change ([] :: split_nl b') with ([[]] ++ split_nl b').
  change [typed_set_view t'] with ([] ++ [typed_set_view t']).
  match goal with |- step_from _ _ _ _ _ ?P => change P with ([] ++ P) end.
  apply step_app; [apply step_blank|].
  apply step_weaken. apply (step_set_block nanoid now dsid snow); assumption.
Qed.

End RoundTripDoc.

Lemma blocks_rendered (dsid snow : jstr) (d : PromptDocument) :
  flat_map (fun sb => flat_map (bucket dsid d (ps_id (fst sb))) (sessionIds dsid d (ps_id (fst sb))))
    (set_blocks dsid snow d) = rendered_prompts dsid snow d.
Proof.
  unfold set_blocks, rendered_prompts. rewrite flat_map_flat_map.
  induction (setsToWrite dsid snow d) as [|s ss IH]; [reflexivity|].
  cbn [flat_map]. rewrite IH. f_equal. unfold render_set.
  destruct (set_prompts dsid d (ps_id s)); cbn [flat_map fst]; [reflexivity|].
  rewrite app_nil_r. reflexivity.
Qed.

Lemma blocks_sets (dsid snow : jstr) (d : PromptDocument) :
  map fst (set_blocks dsid snow d) =
  filter (fun s => match set_prompts dsid d (ps_id s) with [] => false | _ :: _ => true end)
    (setsToWrite dsid snow d).
Proof.
  unfold set_blocks.
  induction (setsToWrite dsid snow d) as [|s ss IH]; [reflexivity|].
  cbn [flat_map filter]. rewrite map_app, IH. unfold render_set.
  destruct (set_prompts dsid d (ps_id s)); reflexivity.
Qed.

Lemma canonical_parts (d : PromptDocument) : canonical_doc d = true ->
  forallb set_ok (d_sets d) = true /\ forallb session_ok (d_sessions d) = true
  /\ forallb prompt_ok (d_prompts d) = true
  /\ nodupb (map ps_id (d_sets d)) = true /\ nodupb (map se_id (d_sessions d)) = true
  /\ (forall p, In p (d_prompts d) ->
        exists s, In s (d_sets d) /\ pm_setId (p_metadata p) = Some (ps_id s))
  /\ (forall p k, In p (d_prompts d) -> session_key p = Some k ->
        exists se, In se (d_sessions d) /\ se_id se = k /\ pm_setId (p_metadata p) = Some (se_setId se))
  /\ (forall s, In s (d_sets d) ->
        exists p, In p (d_prompts d) /\ pm_setId (p_metadata p) = Some (ps_id s))
  /\ (d_sets d <> [] -> existsb ps_active (d_sets d) = true).
Proof.
  unfold canonical_doc. intros H. repeat rewrite andb_true_iff in H.
  destruct H as [[[[[[[[H1 H2] H3] H4] H5] H6] H7] H8] H9].
  rewrite forallb_forall in H6, H7, H8.
  repeat split; try assumption.
  - intros p Hp. specialize (H6 p Hp). apply existsb_exists in H6 as [s [Hs E]].
    apply ostr_eqb_eq in E. eauto.
  - intros p k Hp Hk. specialize (H7 p Hp). rewrite Hk in H7.
    apply existsb_exists in H7 as [se [Hse E]]. apply andb_true_iff in E as [E1 E2].
    apply jstr_eqb_eq in E1. apply ostr_eqb_eq in E2. eauto.
  - intros s Hs. specialize (H8 s Hs). apply existsb_exists in H8 as [p [Hp E]].
    apply ostr_eqb_eq in E. eauto.
  - intros Hne. destruct (d_sets d); [congruence|exact H9].
Qed.

Lemma set_ok_id (s : PromptSet) : set_ok s = true -> ostr_truthy (Some (ps_id s)) = true.
Proof.
  unfold set_ok. intros H. repeat rewrite andb_true_iff in H. destruct H as [[[[H _] _] _] _].
  destruct (ps_id s); [discriminate|reflexivity].
Qed.

Lemma canonical_orphans (dsid : jstr) (d : PromptDocument) : canonical_doc d = true -> orphanPrompts d = [].
Proof.
  intros H. destruct (canonical_parts d H) as [Hsets [_ [_ [_ [_ [Hin _]]]]]].
  unfold orphanPrompts. apply filter_none. intros p Hp.
  destruct (Hin p Hp) as [s [Hs E]]. rewrite E.
  rewrite forallb_forall in Hsets. rewrite (set_ok_id s (Hsets s Hs)). reflexivity.
Qed.

Lemma canonical_setsToWrite (dsid snow : jstr) (d : PromptDocument) :
  canonical_doc d = true -> setsToWrite dsid snow d = d_sets d.
Proof.
  intros H. unfold setsToWrite. rewrite (canonical_orphans dsid d H). apply app_nil_r.
Qed.

Lemma canonical_blocks_sets (dsid snow : jstr) (d : PromptDocument) :
  canonical_doc d = true -> map fst (set_blocks dsid snow d) = d_sets d.
Proof.
  intros H. rewrite blocks_sets, (canonical_setsToWrite dsid snow d H).
  destruct (canonical_parts d H) as [Hsets [_ [_ [_ [_ [_ [_ [Hhas _]]]]]]]].
  apply forallb_filter_id. apply forallb_forall. intros s Hs.
  destruct (Hhas s Hs) as [p [Hp E]].
  rewrite set_prompts_filter.
  assert (Hf : In p (filter (set_pred (ps_id s)) (d_prompts d))).
  { apply filter_In. split; [exact Hp|]. unfold set_pred. rewrite E.
    rewrite forallb_forall in Hsets. rewrite (set_ok_id s (Hsets s Hs)).
    cbn [ostr_eqb andb]. apply jstr_eqb_refl. }
  destruct (filter (set_pred (ps_id s)) (d_prompts d)); [destruct Hf|reflexivity].
Qed.

Lemma canonical_block (dsid snow : jstr) (d : PromptDocument) (t : PromptSet) (b : jstr) :
  canonical_doc d = true -> In (t, b) (set_blocks dsid snow d) ->
  set_ok t = true /\ render_set dsid d t = Some b.
Proof.
  intros H Hin. apply in_set_blocks in Hin as [Ht Hr].
  rewrite (canonical_setsToWrite dsid snow d H) in Ht.
  destruct (canonical_parts d H) as [Hsets _]. rewrite forallb_forall in Hsets. auto.
Qed.

Lemma file_meta_header (B : jstr) :
  FILE_META_REGEX (file_header ++ 10%N :: B) = Some (u "{'version':'2.0'}", 10%N :: 10%N :: B).
Proof. reflexivity. Qed.

Lemma json_parse_version : json_parse (u "{'version':'2.0'}") = Some (JObj [(u "version", JStr (u "2.0"))]).
Proof. vm_compute. reflexivity. Qed.

Lemma drop_ws_snoc_hash (x : jstr) : drop_ws (x ++ [35%N]) <> [].
Proof.
  induction x as [|c x IH]; cbn [app drop_ws]; [discriminate|].
  destruct (is_ws c); [exact IH|discriminate].
Qed.

Lemma blank_hash (s : jstr) : blank (35%N :: s) = false.
Proof.
  unfold blank, trim. change (drop_ws (35%N :: s)) with (35%N :: s). cbn [rev].
  destruct (drop_ws (rev s ++ [35%N])) as [|c l] eqn:E; [exfalso; exact (drop_ws_snoc_hash _ E)|].
  cbn [rev]. destruct (rev l ++ [c]) eqn:E2; [|reflexivity].
  apply app_eq_nil in E2 as [_ E2]. discriminate.
Qed.

Lemma heading_any (l : jstr) : heading_match 1 l <> None -> any_heading l = true.
Proof.
  unfold heading_match, any_heading. destruct (heading_regex 1 l); [reflexivity|].
  destruct (empty_heading_regex 1 l) eqn:E; [|congruence]. intros _.
  destruct (heading_regex 2 l), (heading_regex 3 l); reflexivity.
Qed.

Lemma split_render_set (dsid : jstr) (d : PromptDocument) (s : PromptSet) (b : jstr) :
  set_ok s = true -> render_set dsid d s = Some b ->
  exists rest, split_nl b = (u "# " ++ or_empty (ps_name s)) :: meta_comment (set_meta s) :: rest.
Proof.
  intros Hs Hr. unfold render_set in Hr.
  destruct (set_prompts dsid d (ps_id s)); [discriminate|].
  assert (Hb : b = join [10%N] ([u "# " ++ or_empty (ps_name s); meta_comment (set_meta s) ++ [10%N]]
               ++ flat_map (render_group dsid d (ps_id s)) (sessionIds dsid d (ps_id s)))) by congruence.
  rewrite Hb, split_nl_join by discriminate.
  rewrite flat_map_app. cbn [flat_map]. rewrite app_nil_r.
  rewrite (split_nl_free (u "# " ++ or_empty (ps_name s))).
  2:{ rewrite forallb_app, (line_free_nl_free _ (set_ok_name s Hs)). reflexivity. }
  rewrite split_nl_app, (split_nl_free (meta_comment (set_meta s))), split_nl_nil.
  2:{ apply line_free_nl_free, line_free_meta_comment, set_meta_strings, Hs. }
  eexists. reflexivity.
Qed.

Lemma render_set_hash (dsid : jstr) (d : PromptDocument) (s : PromptSet) (b : jstr) :
  render_set dsid d s = Some b -> exists r, b = 35%N :: r.
Proof.
  intros Hr. unfold render_set in Hr.
  destruct (set_prompts dsid d (ps_id s)); [discriminate|].
  assert (Hb : b = join [10%N] ([u "# " ++ or_empty (ps_name s); meta_comment (set_meta s) ++ [10%N]]
               ++ flat_map (render_group dsid d (ps_id s)) (sessionIds dsid d (ps_id s)))) by congruence.
  destruct (join_cons_prefix [10%N] (u "# " ++ or_empty (ps_name s))
    ((meta_comment (set_meta s) ++ [10%N])
     :: flat_map (render_group dsid d (ps_id s)) (sessionIds dsid d (ps_id s)))) as [r Hj].
  assert (Hj' : join [10%N] ([u "# " ++ or_empty (ps_name s); meta_comment (set_meta s) ++ [10%N]]
               ++ flat_map (render_group dsid d (ps_id s)) (sessionIds dsid d (ps_id s)))
               = (u "# " ++ or_empty (ps_name s)) ++ r) by exact Hj.
  rewrite Hb, Hj'. eexists. reflexivity.
Qed.

Lemma set_view_active (xs : list obj) (ys : list PromptSet) :
  map set_view xs = map typed_set_view ys -> existsb ps_active ys = true ->
  existsb (fun s => truthy (obj_get s (u "active"))) xs = true.
Proof.
  revert ys. induction xs as [|x xs IH]; intros [|y ys]; cbn [map existsb]; try discriminate.
  intros E Ha. injection E as _ _ Hact _ E2. rewrite Hact. cbn [truthy].
  destruct (ps_active y); [reflexivity|]. cbn [orb] in *. exact (IH ys E2 Ha).
Qed.

Lemma ensure_active_id (xs : list obj) : existsb (fun s => truthy (obj_get s (u "active"))) xs = true ->
  ensure_active xs = xs.
Proof. destruct xs as [|x xs]; [reflexivity|]. unfold ensure_active. intros ->. reflexivity. Qed.

Lemma set_ok_name_ok (s : PromptSet) : set_ok s = true -> set_name_ok (ps_name s) = true.
Proof.
  unfold set_ok. intros H. repeat rewrite andb_true_iff in H. destruct H as [[[[_ H] _] _] _]. exact H.
Qed.

Lemma sim_init : sim v20_init [] [].
Proof. split; [reflexivity|split; [reflexivity|exact I]]. Qed.

Lemma run_doc (nanoid : nat -> jstr) (now : jstr) (ls : list jstr) svs pvs :
  step_from nanoid now false ls svs pvs ->
  exists st, v20_loop nanoid now v20_init ls = st /\ sim st svs pvs.
Proof.
  intros H. destruct (H v20_init [] [] sim_init) as [st [Hr [Hs _]]]; [discriminate|].
  exists st. split; [|exact Hs].
  specialize (Hr []). rewrite app_nil_r in Hr. exact Hr.
Qed.

Lemma save_sets (st : V20State) : pending_ok st -> v_sets (saveCurrentPrompt st) = v_sets st.
Proof. intros H. destruct (save_shape st H) as [bf ->]. reflexivity. Qed.

Lemma split_nl_snoc_nl (x : jstr) : split_nl (x ++ [10%N]) = split_nl x ++ [[]].
Proof. apply split_nl_app. Qed.

Lemma serialize_text_form (dsid snow : jstr) (d : PromptDocument) :
  exists T, fst (serialize dsid snow d)
    = file_header ++ 10%N :: join (u "~~") (map snd (set_blocks dsid snow d)) ++ T
    /\ (T = [] \/ T = [10%N]).
Proof.
  destruct (serialize_text_shape dsid snow d) as [E|E]; rewrite E; cbn [join].
  - exists []. rewrite app_nil_r. split; [reflexivity|left; reflexivity].
  - exists [10%N]. rewrite <- !app_assoc. split; [reflexivity|right; reflexivity].
Qed.

Lemma parse_serialize_views (nanoid : nat -> jstr) (now dsid snow : jstr) (d : PromptDocument) :
  canonical_doc d = true ->
  exists d', parse nanoid now (fst (serialize dsid snow d)) = Ok d'
    /\ map set_view (pd_sets d') = map typed_set_view (d_sets d)
    /\ map prompt_view (pd_prompts d') = map typed_prompt_view (rendered_prompts dsid snow d).
Proof.
  intros H. destruct (serialize_text_form dsid snow d) as [T [Et HT]]. rewrite Et.
  pose proof (canonical_blocks_sets dsid snow d H) as Hsets.
  pose proof (blocks_rendered dsid snow d) as Hrend.
  unfold parse, extract_file_meta. rewrite file_meta_header, json_parse_version.
  cbv beta iota zeta.
  destruct (set_blocks dsid snow d) as [|[t b] bs] eqn:Eb.
  - cbn [map] in Hsets. cbn [flat_map] in Hrend. rewrite <- Hrend, <- Hsets.
    cbn [map join app].
    destruct HT as [-> | ->]; eexists; (split; [reflexivity|split; reflexivity]).
  - destruct (canonical_block dsid snow d t b H) as [Ht Hr]; [rewrite Eb; left; reflexivity|].
    destruct (render_set_hash dsid d t b Hr) as [r0 Hb0].
    set (B := join (u "~~") (map snd ((t, b) :: bs))).
    assert (HB : exists X, B = 35%N :: X).
    { unfold B. cbn [map snd]. destruct (join_cons_prefix (u "~~") b (map snd bs)) as [r Hj].
      rewrite Hj, Hb0. eexists. reflexivity. }
    destruct HB as [X HX].
    assert (Hc : drop_newlines (10%N :: 10%N :: B ++ T) = B ++ T) by (rewrite HX; reflexivity).
    rewrite Hc.
    assert (Hbl : blank (B ++ T) = false) by (rewrite HX; apply blank_hash).
    rewrite Hbl.
    destruct (canonical_parts d H) as [_ [Hses [Hps [_ [_ [_ [_ [_ Hact]]]]]]]].
    assert (Hstep := step_blocks nanoid now dsid snow d t b bs Hps Hses).
    assert (Hall : forall t' b', In (t', b') ((t, b) :: bs) -> set_ok t' = true /\ render_set dsid d t' = Some b').
    { intros t' b' Hin. apply (canonical_block dsid snow d); [exact H|rewrite Eb; exact Hin]. }
    specialize (Hstep Hall). fold B in Hstep.
    assert (Hlines : exists T', split_nl (B ++ T) = split_nl B ++ T'
                      /\ step_from nanoid now true T' [] []).
    { destruct HT as [-> | ->].
      - exists []. rewrite !app_nil_r. split; [reflexivity|apply step_nil].
      - exists [[]]. split; [apply split_nl_snoc_nl|apply step_blank]. }
    destruct Hlines as [T' [Hl HT']].
    assert (Hdet : detectV20Format (B ++ T) = true).
    { unfold detectV20Format. rewrite Hl. unfold B. cbn [map snd]. rewrite split_nl_join_blank.
      destruct (split_render_set dsid d t b Ht Hr) as [rest ->].
      cbn [app detect_pairs]. rewrite heading_any.
      - rewrite METADATA_meta_comment by (apply set_meta_strings, Ht). reflexivity.
      - rewrite (hm_set _ (set_ok_name_ok t Ht)). discriminate. }
    rewrite Hdet. unfold parseV20Format. rewrite Hl.
    destruct (run_doc nanoid now (split_nl B ++ T') _ _ (step_app nanoid now false _ _ _ _ _ _ Hstep HT'))
      as [st [Hrun [Hv [Hp Hpend]]]].
    rewrite Hrun. eexists. split; [reflexivity|]. cbn [pd_sets pd_prompts].
    rewrite save_sets by exact Hpend.
    rewrite !app_nil_r in Hv, Hp.
    rewrite <- Hsets, map_map. rewrite <- Hrend.
    split; [|exact Hp].
    rewrite ensure_active_id; [exact Hv|].
    apply (set_view_active _ (d_sets d)).
    + rewrite Hv, <- Hsets, map_map. reflexivity.
    + apply Hact. rewrite <- Hsets. discriminate.
Qed.

Lemma flat_map_app_perm {A B : Type} (f g : A -> list B) (xs : list A) :
  Permutation (flat_map (fun x => f x ++ g x) xs) (flat_map f xs ++ flat_map g xs).
Proof.
  induction xs as [|x xs IH]; cbn [flat_map]; [reflexivity|].
  rewrite IH. rewrite <- !app_assoc. apply Permutation_app_head.
  rewrite !app_assoc. apply Permutation_app_tail. apply Permutation_app_comm.
Qed.

Lemma flat_map_single {A B : Type} (q : A -> bool) (p : B) (xs : list A) :
  List.length (filter q xs) = 1 -> flat_map (fun x => if q x then [p] else []) xs = [p].
Proof.
  induction xs as [|x xs IH]; cbn [filter flat_map]; [discriminate|].
  destruct (q x); cbn [List.length app].
  - intros H. injection H as H. destruct (filter q xs) eqn:E; [|discriminate].
    assert (Hz : flat_map (fun x => if q x then [p] else []) xs = []).
    { clear IH. induction xs as [|y ys IHy]; [reflexivity|]. cbn [filter] in E. cbn [flat_map].
      destruct (q y); [discriminate|]. apply IHy, E. }
    rewrite Hz. reflexivity.
  - exact IH.
Qed.

Lemma perm_partition {A B : Type} (f : A -> B -> bool) (xs : list A) (P : list B) :
  (forall p, In p P -> List.length (filter (fun x => f x p) xs) = 1) ->
  Permutation (flat_map (fun x => filter (f x) P) xs) P.
Proof.
  induction P as [|p P IH]; intros H.
  - clear H. induction xs as [|x xs IHx]; [reflexivity|]. exact IHx.
  - assert (E : flat_map (fun x => filter (f x) (p :: P)) xs
                = flat_map (fun x => (if f x p then [p] else []) ++ filter (f x) P) xs).
    { apply flat_map_ext. intros x. cbn [filter]. destruct (f x p); reflexivity. }
    rewrite E, flat_map_app_perm, flat_map_single by (apply H; left; reflexivity).
    cbn [app]. apply perm_skip. apply IH. intros q Hq. apply H. right. exact Hq.
Qed.

Lemma filter_flat_map {A B : Type} (q : B -> bool) (g : A -> list B) (xs : list A) :
  filter q (flat_map g xs) = flat_map (fun x => filter q (g x)) xs.
Proof. induction xs as [|x xs IH]; cbn [flat_map]; [reflexivity|]. rewrite filter_app, IH. reflexivity. Qed.

Lemma flat_map_filter_skip {A B : Type} (q : A -> bool) (g : A -> list B) (xs : list A) :
  (forall x, In x xs -> q x = false -> g x = []) -> flat_map g xs = flat_map g (filter q xs).
Proof.
  induction xs as [|x xs IH]; intros H; [reflexivity|]. cbn [flat_map filter].
  destruct (q x) eqn:E; cbn [flat_map].
  - rewrite IH; [reflexivity|]. intros y Hy. apply H. right. exact Hy.
  - rewrite (H x (or_introl eq_refl) E). apply IH. intros y Hy. apply H. right. exact Hy.
Qed.

Lemma filter_unique {A : Type} (key : A -> jstr) (xs : list A) (x0 : A) :
  nodupb (map key xs) = true -> In x0 xs ->
  filter (fun x => jstr_eqb (key x) (key x0)) xs = [x0].
Proof.
  induction xs as [|x xs IH]; intros Hn Hin; [destruct Hin|].
  cbn [map nodupb] in Hn. apply andb_true_iff in Hn as [Hx Hn].
  assert (Hnot : forall y, In y xs -> jstr_eqb (key y) (key x) = false).
  { intros y Hy. destruct (jstr_eqb (key y) (key x)) eqn:E; [|reflexivity].
    apply jstr_eqb_eq in E. exfalso. apply negb_true_iff in Hx.
    assert (Hex : existsb (jstr_eqb (key x)) (map key xs) = true).
    { apply existsb_exists. exists (key y). split; [apply in_map, Hy|]. rewrite E. apply jstr_eqb_refl. }
    congruence. }
  cbn [filter]. destruct Hin as [<-|Hin].
  - rewrite jstr_eqb_refl. f_equal. apply filter_none. exact Hnot.
  - destruct (jstr_eqb (key x) (key x0)) eqn:E.
    + apply jstr_eqb_eq in E. specialize (Hnot x0 Hin).
      rewrite E, jstr_eqb_refl in Hnot. discriminate.
    + apply IH; assumption.
Qed.

Lemma jstr_eqb_sym (a b : jstr) : jstr_eqb a b = jstr_eqb b a.
Proof.
  destruct (jstr_eqb a b) eqn:E; destruct (jstr_eqb b a) eqn:E2; try reflexivity.
  - apply jstr_eqb_eq in E. subst. rewrite jstr_eqb_refl in E2. discriminate.
  - apply jstr_eqb_eq in E2. subst. rewrite jstr_eqb_refl in E. discriminate.
Qed.

Lemma canonical_bucket (dsid : jstr) (d : PromptDocument) (sid : jstr) (key : option jstr) :
  canonical_doc d = true -> bucket dsid d sid key = filter (bucket_pred sid key) (d_prompts d).
Proof.
  intros H. rewrite bucket_filter, (canonical_orphans dsid d H).
  destruct key; [apply app_nil_r|]. destruct (jstr_eqb sid dsid); apply app_nil_r.
Qed.

Lemma home_set (d : PromptDocument) (p : Prompt) :
  canonical_doc d = true -> In p (d_prompts d) ->
  exists s0, In s0 (d_sets d) /\ pm_setId (p_metadata p) = Some (ps_id s0)
    /\ forall sid key, bucket_pred sid key p = jstr_eqb (ps_id s0) sid && ostr_eqb (session_key p) key.
Proof.
  intros H Hp. destruct (canonical_parts d H) as [Hsets [_ [_ [_ [_ [Hin _]]]]]].
  destruct (Hin p Hp) as [s0 [Hs0 E]]. exists s0. split; [exact Hs0|split; [exact E|]].
  intros sid key. unfold bucket_pred. rewrite E.
  rewrite forallb_forall in Hsets. rewrite (set_ok_id s0 (Hsets s0 Hs0)). reflexivity.
Qed.

Lemma in_bucket (dsid : jstr) (d : PromptDocument) (sid : jstr) (key : option jstr) (p : Prompt) :
  canonical_doc d = true -> In p (d_prompts d) -> bucket_pred sid key p = true ->
  bucket dsid d sid key <> [].
Proof.
  intros H Hp Hb. rewrite (canonical_bucket dsid d sid key H).
  assert (Hf : In p (filter (bucket_pred sid key) (d_prompts d))) by (apply filter_In; auto).
  destruct (filter _ _); [destruct Hf|discriminate].
Qed.

Lemma count_session_key (dsid : jstr) (d : PromptDocument) (p : Prompt) (s0 : PromptSet) :
  canonical_doc d = true -> In p (d_prompts d) -> In s0 (d_sets d) ->
  pm_setId (p_metadata p) = Some (ps_id s0) ->
  (forall sid key, bucket_pred sid key p = jstr_eqb (ps_id s0) sid && ostr_eqb (session_key p) key) ->
  List.length (filter (fun k => ostr_eqb (session_key p) k) (sessionIds dsid d (ps_id s0))) = 1.
Proof.
  intros H Hp Hs0 Eset Hpred. unfold sessionIds. rewrite filter_app, length_app, filter_flat_map.
  destruct (session_key p) as [k|] eqn:Ek.
  - destruct (canonical_parts d H) as [_ [_ [_ [_ [Hnd [_ [Hses _]]]]]]].
    destruct (Hses p k Hp Ek) as [se0 [Hse0 [Eid Eset']]].
    rewrite Eset in Eset'. injection Eset' as Eset'.
    rewrite (flat_map_filter_skip (fun se => jstr_eqb (se_id se) (se_id se0))).
    2:{ intros se _ Hne. destruct (jstr_eqb (se_setId se) (ps_id s0)); [|reflexivity].
        destruct (bucket dsid d (ps_id s0) (Some (se_id se))); [reflexivity|].
        cbn [filter ostr_eqb]. rewrite <- Eid, jstr_eqb_sym, Hne. reflexivity. }
    rewrite (filter_unique se_id (d_sessions d) se0 Hnd Hse0). cbn [flat_map].
    rewrite <- Eset', jstr_eqb_refl.
    destruct (bucket dsid d (ps_id s0) (Some (se_id se0))) eqn:Eb.
    + exfalso. refine (in_bucket dsid d (ps_id s0) (Some (se_id se0)) p H Hp _ Eb).
      rewrite Hpred, jstr_eqb_refl, <- Eid. cbn [andb ostr_eqb]. apply jstr_eqb_refl.
    + destruct (bucket dsid d (ps_id s0) None); cbn [filter ostr_eqb app];
        rewrite <- Eid, jstr_eqb_refl; reflexivity.
  - destruct (bucket dsid d (ps_id s0) None) eqn:Eb.
    + exfalso. refine (in_bucket dsid d (ps_id s0) None p H Hp _ Eb).
      rewrite Hpred, jstr_eqb_refl. reflexivity.
    + cbn [filter ostr_eqb List.length].
      rewrite flat_map_ext_in with (g := fun _ => []);
        [induction (d_sessions d) as [|x xs IH]; [reflexivity|exact IH]|].
      intros se _. destruct (jstr_eqb (se_setId se) (ps_id s0)); [|reflexivity].
      destruct (bucket dsid d (ps_id s0) (Some (se_id se))); reflexivity.
Qed.

Lemma filter_map_pair {A B C : Type} (q : A * B -> C -> bool) (a : A) (ks : list B) (p : C) :
  filter (fun sk => q sk p) (map (pair a) ks) = map (pair a) (filter (fun k => q (a, k) p) ks).
Proof.
  induction ks as [|k ks IH]; cbn [map filter]; [reflexivity|].
  destruct (q (a, k) p); cbn [map]; rewrite IH; reflexivity.
Qed.

Lemma canonical_set_prompts (dsid : jstr) (d : PromptDocument) (s : PromptSet) :
  canonical_doc d = true -> In s (d_sets d) -> set_prompts dsid d (ps_id s) <> [].
Proof.
  intros H Hs. destruct (canonical_parts d H) as [Hsets [_ [_ [_ [_ [_ [_ [Hhas _]]]]]]]].
  destruct (Hhas s Hs) as [p [Hp E]].
  rewrite set_prompts_filter.
  assert (Hf : In p (filter (set_pred (ps_id s)) (d_prompts d))).
  { apply filter_In. split; [exact Hp|]. unfold set_pred. rewrite E.
    rewrite forallb_forall in Hsets. rewrite (set_ok_id s (Hsets s Hs)).
    cbn [ostr_eqb andb]. apply jstr_eqb_refl. }
  destruct (filter (set_pred (ps_id s)) (d_prompts d)); [destruct Hf|discriminate].
Qed.

Lemma rendered_perm (dsid snow : jstr) (d : PromptDocument) :
  canonical_doc d = true -> Permutation (rendered_prompts dsid snow d) (d_prompts d).
Proof.
  intros H. unfold rendered_prompts. rewrite (canonical_setsToWrite dsid snow d H).
  set (pairs := flat_map (fun s => map (pair s) (sessionIds dsid d (ps_id s))) (d_sets d)).
  replace (flat_map _ (d_sets d))
    with (flat_map (fun sk => filter (bucket_pred (ps_id (fst sk)) (snd sk)) (d_prompts d)) pairs).
  2:{ unfold pairs. rewrite flat_map_flat_map. apply flat_map_ext_in. intros s Hs.
      destruct (set_prompts dsid d (ps_id s)) eqn:E;
        [exfalso; exact (canonical_set_prompts dsid d s H Hs E)|].
      rewrite flat_map_map_comp. apply flat_map_ext_in. intros k _. cbn [fst snd].
      symmetry. apply canonical_bucket, H. }
  apply perm_partition. intros p Hp.
  destruct (home_set d p H Hp) as [s0 [Hs0 [Eset Hpred]]].
  destruct (canonical_parts d H) as [_ [_ [_ [Hnd _]]]].
  unfold pairs. rewrite filter_flat_map.
  rewrite (flat_map_filter_skip (fun s => jstr_eqb (ps_id s) (ps_id s0))).
  2:{ intros s _ Hne. apply filter_none. intros sk Hsk. apply in_map_iff in Hsk as [k [<- _]].
      cbn [fst snd]. rewrite Hpred, jstr_eqb_sym, Hne. reflexivity. }
  rewrite (filter_unique ps_id (d_sets d) s0 Hnd Hs0). cbn [flat_map]. rewrite app_nil_r.
  rewrite (filter_map_pair (fun sk p => bucket_pred (ps_id (fst sk)) (snd sk) p)), length_map.
  cbn [fst snd].
  rewrite (filter_ext (fun k => bucket_pred (ps_id s0) k p) (fun k => ostr_eqb (session_key p) k)).
  2:{ intros k. rewrite Hpred, jstr_eqb_refl. reflexivity. }
  apply (count_session_key dsid d p s0 H Hp Hs0 Eset Hpred).
Qed.

(** C1 (corrected): for a document in canonical shape (see
    [canonical_doc]), parsing the serialized text gives back the sets in
    order, with their ids, names, active and collapsed flags, and the
    prompts with their ids, contents and statuses; the prompts come back
    in the order of [rendered_prompts] (grouped by set, then by session),
    which is a permutation of the prompts of the document. *)
Theorem parse_serialize_roundtrip (nanoid : nat -> jstr) (now dsid snow : jstr) (d : PromptDocument) :
  canonical_doc d = true ->
  exists d', parse nanoid now (fst (serialize dsid snow d)) = Ok d'
    /\ map set_view (pd_sets d') = map typed_set_view (d_sets d)
    /\ map prompt_view (pd_prompts d') = map typed_prompt_view (rendered_prompts dsid snow d)
    /\ Permutation (rendered_prompts dsid snow d) (d_prompts d).
Proof.
  intros H. destruct (parse_serialize_views nanoid now dsid snow d H) as [d' [Hp [Hs Hq]]].
  exists d'. split; [exact Hp|split; [exact Hs|split; [exact Hq|]]].
  apply rendered_perm, H.
Qed.

Lemma parse_serialize_roundtrip_witness :
  canonical_doc c1_doc = true /\
  exists d', parse sample_ids [] (fst (serialize (u "D") [] c1_doc)) = Ok d'
    /\ map set_view (pd_sets d') = map typed_set_view (d_sets c1_doc)
    /\ map prompt_view (pd_prompts d') = map typed_prompt_view (rendered_prompts (u "D") [] c1_doc)
    /\ Permutation (rendered_prompts (u "D") [] c1_doc) (d_prompts c1_doc).
Proof.
  split; [vm_compute; reflexivity|].
  apply (parse_serialize_roundtrip sample_ids [] (u "D") [] c1_doc). vm_compute. reflexivity.
Defined.

(* ------------------------------------------------------------------ *)
(** ** Further properties of the parser and serializer *)

Lemma v20_loop_inv (nanoid : nat -> jstr) (now : jstr) (P : V20State -> Prop) :
  (forall st l nx, P st -> P (fst (v20_line nanoid now st l nx))) ->
  forall lines st, P st -> P (v20_loop nanoid now st lines).
Proof.
  intros Hstep.
  assert (forall n lines st, List.length lines <= n -> P st -> P (v20_loop nanoid now st lines))
    as H; [|intros lines st; apply (H (List.length lines)); lia].
  induction n as [|n IH]; intros [|l rest] st Hlen Hst; cbn [v20_loop]; auto;
    cbn [List.length] in Hlen; [lia|].
  specialize (Hstep st l (hd_error rest) Hst).
  destruct (v20_line nanoid now st l (hd_error rest)) as [st' [|]]; cbn [fst] in Hstep.
  - destruct rest as [|l' rest']; [exact Hstep|].
    apply IH; [cbn [List.length] in Hlen; lia|exact Hstep].
  - apply IH; [lia|exact Hstep].
Qed.

Lemma set_ids_app (a b : list obj) : set_ids (a ++ b) = set_ids a ++ set_ids b.
Proof. apply map_app. Qed.

Lemma prompt_refs_mono (sets sessions sets' sessions' : list obj) (md : obj) :
  prompt_refs_ok sets sessions md -> prompt_refs_ok (sets ++ sets') (sessions ++ sessions') md.
Proof.
  intros [H1 H2]. split.
  - rewrite set_ids_app. apply in_or_app. auto.
  - intros Ht. destruct (H2 Ht) as (s & Hs & Hid & Hset).
    exists s. split; [apply in_or_app; auto|auto].
Qed.

Lemma v20_refs_init : v20_refs v20_init.
Proof.
  repeat split; cbn; try contradiction; try discriminate.
Qed.

Lemma save_refs (nanoid : nat -> jstr) (now : jstr) (st : V20State) :
  v20_refs st -> v20_refs (saveCurrentPrompt st).
Proof.
  intros H. unfold saveCurrentPrompt.
  destruct (v_prompt st) as [[pid md]|] eqn:Ep; [|exact H].
  destruct (truthy pid); [|exact H].
  destruct H as (H1 & H2 & H3 & H4 & H5).
  unfold v20_refs; cbn [v_prompts v_sets v_sessions v_prompt v_setId v_sessionId].
  split; [|split; [|split; [|split]]]; auto; try discriminate.
  intros p Hp. apply in_app_or in Hp as [Hp|[<-|[]]]; [auto|].
  cbn [pp_metadata]. exact (H3 pid md Ep).
Qed.

Section V20Refs.

Variable nanoid : nat -> jstr.
Variable now : jstr.
Hypothesis nanoid_nonempty : forall k, nanoid k <> [].

Lemma nanoid_truthy (k : nat) : truthy (JStr (nanoid k)) = true.
Proof. cbn. destruct (nanoid k) eqn:E; [exact (False_ind _ (nanoid_nonempty k E))|reflexivity]. Qed.

Lemma js_or_nanoid_truthy (a : jsval) (k : nat) : truthy (js_or a (JStr (nanoid k))) = true.
Proof. unfold js_or. destruct (truthy a) eqn:E; [exact E|apply nanoid_truthy]. Qed.

Lemma ensureSet_refs (st : V20State) :
  v20_refs st ->
  let '(sid, st') := ensureSet nanoid now st in
  v20_refs st' /\ sid = v_setId st' /\ truthy sid = true
  /\ v_sessions st' = v_sessions st /\ v_sessionId st' = v_sessionId st
  /\ exists extra, v_sets st' = v_sets st ++ extra.
Proof.
  intros H. unfold ensureSet. destruct (truthy (v_setId st)) eqn:Et.
  { split; [exact H|split; [reflexivity|split; [exact Et|split; [reflexivity|split; [reflexivity|]]]]].
    exists []. rewrite app_nil_r. reflexivity. }
  destruct H as (H1 & H2 & H3 & H4 & H5).
  split; [|split; [reflexivity|split; [apply nanoid_truthy|split; [reflexivity|split; [reflexivity|eexists; reflexivity]]]]].
  unfold v20_refs; cbn [v_prompts v_sets v_sessions v_prompt v_setId v_sessionId].
  split; [|split; [|split; [|split]]].
  - intros p Hp. rewrite <- (app_nil_r (v_sessions st)). apply prompt_refs_mono. auto.
  - intros s Hs. rewrite set_ids_app. apply in_or_app. auto.
  - intros pid md Hp. rewrite <- (app_nil_r (v_sessions st)). apply prompt_refs_mono. eauto.
  - intros _. rewrite set_ids_app. apply in_or_app. right. left. reflexivity.
  - intros Hs. destruct (H5 Hs) as [Hc _]. congruence.
Qed.

Lemma v20_line_refs (st0 : V20State) (line : jstr) (next : option jstr) :
  v20_refs st0 -> v20_refs (fst (v20_line nanoid now st0 line next)).
Proof.
  intros H0. pose proof (save_refs nanoid now st0 H0) as Hs.
  unfold v20_line.
  destruct (match read_meta next with Some o => (o, true) | None => ([], false) end) as [md skip].
  destruct (heading_match 1 line) as [name|].
  { set (st := saveCurrentPrompt st0) in *. clearbody st.
    destruct Hs as (H1 & H2 & H3 & H4 & H5).
    unfold v20_refs; cbn [fst v_prompts v_sets v_sessions v_prompt v_setId v_sessionId].
    split; [|split; [|split; [|split]]].
    - intros p Hp. rewrite <- (app_nil_r (v_sessions st)). apply prompt_refs_mono. auto.
    - intros s Hs. rewrite set_ids_app. apply in_or_app. auto.
    - intros pid md' Hp. rewrite <- (app_nil_r (v_sessions st)). apply prompt_refs_mono. eauto.
    - intros _. rewrite set_ids_app. apply in_or_app. right. left. reflexivity.
    - discriminate. }
  destruct (heading_match 2 line) as [name|].
  { set (st1 := saveCurrentPrompt st0) in *. clearbody st1.
    set (st2 := mkV20 (v_sets st1) (v_sessions st1) (v_prompts st1) (v_setId st1)
                  (v_sessionId st1) (v_prompt st1) (v_buf st1) (S (v_next st1))).
    assert (H2r : v20_refs st2) by exact Hs.
    pose proof (ensureSet_refs st2 H2r) as He.
    destruct (ensureSet nanoid now st2) as [setId st] eqn:Ee.
    destruct He as (Hr & Hsid & Htr & _ & _ & _).
    destruct Hr as (H1 & H2 & H3 & H4 & H5).
    unfold v20_refs; cbn [fst v_prompts v_sets v_sessions v_prompt v_setId v_sessionId].
    split; [|split; [|split; [|split]]].
    - intros p Hp. rewrite <- (app_nil_r (v_sets st)). apply prompt_refs_mono. auto.
    - intros s Hs'. apply in_app_or in Hs' as [Hs'|[<-|[]]]; [auto|].
      cbn. subst setId. apply H4. exact Htr.
    - intros pid md' Hp. rewrite <- (app_nil_r (v_sets st)). apply prompt_refs_mono. eauto.
    - exact H4.
    - intros _. split; [congruence|].
      exists [(u "id", js_or (obj_get md (u "id")) (JStr (nanoid (v_next st1))));
              (u "name", name); (u "setId", setId);
              (u "collapsed", obj_get md (u "collapsed"))].
      split; [apply in_or_app; right; left; reflexivity|].
      split; [reflexivity|]. cbn. exact Hsid. }
  destruct (heading_match 3 line) as [name|].
  { set (st1 := saveCurrentPrompt st0) in *. clearbody st1.
    set (st2 := mkV20 (v_sets st1) (v_sessions st1) (v_prompts st1) (v_setId st1)
                  (v_sessionId st1) (v_prompt st1) (v_buf st1) (S (v_next st1))).
    assert (H2r : v20_refs st2) by exact Hs.
    pose proof (ensureSet_refs st2 H2r) as He.
    destruct (ensureSet nanoid now st2) as [setId st] eqn:Ee.
    destruct He as (Hr & Hsid & Htr & _ & _ & _).
    destruct Hr as (H1 & H2 & H3 & H4 & H5).
    unfold v20_refs; cbn [fst v_prompts v_sets v_sessions v_prompt v_setId v_sessionId].
    split; [|split; [|split; [|split]]]; auto.
    intros pid md' Hp. injection Hp as <- <-. split.
    - cbn. subst setId. apply H4. exact Htr.
    - cbn. unfold js_or. destruct (truthy (v_sessionId st)) eqn:Ets; [|discriminate].
      intros _. destruct (H5 eq_refl) as (_ & s & Hin & Hid & Hset).
      exists s. split; [exact Hin|]. split; [exact Hid|]. exact (eq_trans Hset (eq_sym Hsid)). }
  destruct (dash_rule (trim line)); [exact H0|].
  destruct (v_prompt st0) eqn:Ep; [|exact H0].
  destruct H0 as (H1 & H2 & H3 & H4 & H5).
  unfold v20_refs; cbn [fst v_prompts v_sets v_sessions v_prompt v_setId v_sessionId].
  split; [|split; [|split; [|split]]]; auto.
  intros pid md' Hp. apply (H3 pid md'). rewrite Ep. exact Hp.
Qed.

Lemma ensure_active_ids (sets : list obj) : set_ids (ensure_active sets) = set_ids sets.
Proof.
  destruct sets as [|s0 rest]; [reflexivity|]. unfold ensure_active.
  destruct (existsb _ _); [reflexivity|].
  cbn [set_ids map]. rewrite obj_get_set_ne by reflexivity. reflexivity.
Qed.

(** The references [parseV20Format] returns are consistent: every prompt
    belongs to one of the returned sets, every session belongs to one of
    the returned sets, and a prompt with a session names a returned
    session of the same set.  This needs [nanoid] to return non-empty
    ids, which it does. *)
Theorem parseV20Format_refs (content : jstr) :
  let '(sets, sessions, prompts, _) := parseV20Format nanoid now content in
  (forall p, In p prompts -> In (obj_get (pp_metadata p) (u "setId")) (set_ids sets))
  /\ (forall s, In s sessions -> In (obj_get s (u "setId")) (set_ids sets))
  /\ (forall p, In p prompts -> truthy (obj_get (pp_metadata p) (u "sessionId")) = true ->
      exists s, In s sessions
        /\ obj_get s (u "id") = obj_get (pp_metadata p) (u "sessionId")
        /\ obj_get s (u "setId") = obj_get (pp_metadata p) (u "setId")).
Proof.
  unfold parseV20Format.
  pose proof (save_refs nanoid now _
    (v20_loop_inv nanoid now v20_refs (v20_line_refs) (split_nl content) v20_init v20_refs_init))
    as (H1 & H2 & _).
  set (st := saveCurrentPrompt (v20_loop nanoid now v20_init (split_nl content))) in *.
  rewrite ensure_active_ids.
  split; [|split].
  - intros p Hp. exact (proj1 (H1 p Hp)).
  - exact H2.
  - intros p Hp. exact (proj2 (H1 p Hp)).
Qed.

End V20Refs.

Lemma id_default_cases (nanoid : nat -> jstr) (o : obj) (k : nat) (o0 : obj) (n2 : nat) :
  (if truthy (obj_get o (u "id")) then (o, k)
   else (obj_set o (u "id") (JStr (nanoid k)), S k)) = (o0, n2) ->
  truthy (obj_get o0 (u "id")) = true \/ exists k', obj_get o0 (u "id") = JStr (nanoid k').
Proof.
  destruct (truthy (obj_get o (u "id"))) eqn:E; intros H; injection H as <- _.
  - left. exact E.
  - right. exists k. rewrite obj_get_set, jstr_eqb_refl. reflexivity.
Qed.

Lemma v10_segment_shape (nanoid : nat -> jstr) (now : jstr) (fm : jsval) (dsid : jstr)
    (sets : list obj) (prompts : list ParsedPrompt) (n : nat) (seg : jstr) r :
  v10_segment nanoid now fm dsid (sets, prompts, n) seg = Ok r ->
  r = (sets, prompts, n)
  \/ exists extra md pc n', r = (sets ++ extra, prompts ++ [mkParsedPrompt (obj_get md (u "id")) pc md], n')
     /\ (obj_get md (u "setId") = JStr dsid \/ In (obj_get md (u "setId")) (set_ids (sets ++ extra)))
     /\ (truthy (obj_get md (u "id")) = true \/ exists k, obj_get md (u "id") = JStr (nanoid k)).
Proof.
  unfold v10_segment. cbv beta iota zeta.
  repeat (match goal with
          | |- context [match ?x with _ => _ end] => destruct x eqn:?
          end; cbv beta iota zeta); intros H; try discriminate;
  injection H as <-; [left; reflexivity|..]; right.
  all: match goal with
       | E : (if truthy (obj_get ?o (u "id")) then _ else _) = (?o0, _) |- _ =>
           pose proof (id_default_cases nanoid _ _ _ _ E) as Hid
       end.
  - exists [], (obj_set o0 (u "setId") (obj_get o1 (u "id"))), j0, n2.
    rewrite app_nil_r. split; [reflexivity|]. split.
    + right. rewrite obj_get_set, jstr_eqb_refl. apply find_some in Heqo1 as [Hin _].
      exact (in_map (fun s => obj_get s (u "id")) _ _ Hin).
    + rewrite obj_get_set_ne by reflexivity. exact Hid.
  - eexists [_], (obj_set o0 (u "setId") (JStr (nanoid n2))), j0, (S n2).
    split; [reflexivity|]. split.
    + right. rewrite obj_get_set, jstr_eqb_refl. rewrite set_ids_app. apply in_or_app.
      right. left. reflexivity.
    + rewrite obj_get_set_ne by reflexivity. exact Hid.
  - exists [], (obj_set o0 (u "setId") (JStr dsid)), j0, n2.
    rewrite app_nil_r. split; [reflexivity|]. split.
    + left. rewrite obj_get_set, jstr_eqb_refl. reflexivity.
    + rewrite obj_get_set_ne by reflexivity. exact Hid.
Qed.

Lemma v10_loop_shape (nanoid : nat -> jstr) (now : jstr) (fm : jsval) (dsid : jstr) (segs : list jstr) :
  forall sets prompts n r,
  In (JStr dsid) (set_ids sets) ->
  (forall p, In p prompts ->
     pp_id p = obj_get (pp_metadata p) (u "id")
     /\ In (obj_get (pp_metadata p) (u "setId")) (set_ids sets)
     /\ (truthy (pp_id p) = true \/ exists k, pp_id p = JStr (nanoid k))) ->
  v10_loop nanoid now fm dsid (sets, prompts, n) segs = Ok r ->
  In (JStr dsid) (set_ids (fst (fst r)))
  /\ (forall p, In p (snd (fst r)) ->
     pp_id p = obj_get (pp_metadata p) (u "id")
     /\ In (obj_get (pp_metadata p) (u "setId")) (set_ids (fst (fst r)))
     /\ (truthy (pp_id p) = true \/ exists k, pp_id p = JStr (nanoid k))).
Proof.
  induction segs as [|seg segs IH]; intros sets prompts n r Hd Hp; cbn [v10_loop].
  { intros H; injection H as <-. split; assumption. }
  destruct (v10_segment nanoid now fm dsid (sets, prompts, n) seg) as [r1|e] eqn:E; [|discriminate].
  apply v10_segment_shape in E as [->|(extra & md & pc & n' & -> & Hset & Hid)].
  { apply IH; assumption. }
  apply IH.
  - rewrite set_ids_app. apply in_or_app. left. exact Hd.
  - intros p Hin. apply in_app_or in Hin as [Hin|[<-|[]]].
    + destruct (Hp p Hin) as (H1 & H2 & H3). split; [exact H1|]. split; [|exact H3].
      rewrite set_ids_app. apply in_or_app. left. exact H2.
    + cbn [pp_id pp_metadata]. split; [reflexivity|]. split; [|exact Hid].
      destruct Hset as [Hset|Hset]; [|exact Hset].
      rewrite Hset, set_ids_app. apply in_or_app. left. exact Hd.
Qed.

Lemma parseV10Format_shape (nanoid : nat -> jstr) (now content : jstr) (fm : jsval) sets prompts n :
  parseV10Format nanoid now content fm = Ok (sets, prompts, n) ->
  forall p, In p prompts ->
     pp_id p = obj_get (pp_metadata p) (u "id")
     /\ In (obj_get (pp_metadata p) (u "setId")) (set_ids sets)
     /\ (truthy (pp_id p) = true \/ exists k, pp_id p = JStr (nanoid k)).
Proof.
  unfold parseV10Format.
  destruct (v10_loop _ _ _ _ _ _) as [[[sets' prompts'] n']|e] eqn:E; [|discriminate].
  intros H; injection H as <- <- <-.
  apply v10_loop_shape in E as [_ H]; [|left; reflexivity|intros p []].
  cbn [fst snd] in H. rewrite ensure_active_ids. exact H.
Qed.

(** On the v1.0 path every prompt [parseV10Format] returns names, in its
    [setId], one of the sets it returns: the default set, the set of its
    group found by name, or the set made for that group. *)
Theorem parseV10Format_prompt_sets (nanoid : nat -> jstr) (now content : jstr) (fm : jsval) sets prompts n :
  parseV10Format nanoid now content fm = Ok (sets, prompts, n) ->
  forall p, In p prompts -> In (obj_get (pp_metadata p) (u "setId")) (set_ids sets).
Proof.
  intros H p Hp. exact (proj1 (proj2 (parseV10Format_shape nanoid now content fm sets prompts n H p Hp))).
Qed.

Lemma save_ids (st : V20State) : v20_ids st -> v20_ids (saveCurrentPrompt st).
Proof.
  intros H. unfold saveCurrentPrompt.
  destruct (v_prompt st) as [[pid md]|] eqn:Ep; [|exact H].
  destruct (truthy pid) eqn:Et; [|exact H].
  destruct H as [H1 H2].
  split; cbn [v_prompts v_prompt]; [|discriminate].
  intros p Hp. apply in_app_or in Hp as [Hp|[<-|[]]]; [auto|].
  split; [exact Et|]. cbn [pp_id pp_metadata]. symmetry. exact (H2 pid md Ep).
Qed.

Lemma v20_line_ids (nanoid : nat -> jstr) (now : jstr) (st0 : V20State) (line : jstr) (next : option jstr) :
  v20_ids st0 -> v20_ids (fst (v20_line nanoid now st0 line next)).
Proof.
  intros H0. pose proof (save_ids st0 H0) as Hs.
  unfold v20_line.
  destruct (match read_meta next with Some o => (o, true) | None => ([], false) end) as [md skip].
  destruct (heading_match 1 line) as [name|]; [exact Hs|].
  destruct (heading_match 2 line) as [name|].
  { set (st1 := saveCurrentPrompt st0) in *. clearbody st1.
    unfold ensureSet. destruct (truthy _); exact Hs. }
  destruct (heading_match 3 line) as [name|].
  { set (st1 := saveCurrentPrompt st0) in *. clearbody st1.
    unfold ensureSet. destruct (truthy _); cbn [fst];
      (split; [exact (proj1 Hs)|intros pid md' Hp; injection Hp as <- <-; reflexivity]). }
  destruct (dash_rule (trim line)); [exact H0|].
  destruct (v_prompt st0) eqn:Ep; [|exact H0].
  destruct H0 as [H1 H2]. split; [exact H1|]. cbn [fst v_prompt].
  intros pid md' Hp. apply H2. rewrite Ep. exact Hp.
Qed.

Lemma parseV20Format_ids (nanoid : nat -> jstr) (now content : jstr) :
  forall p, In p (snd (fst (parseV20Format nanoid now content))) -> prompt_id_ok p.
Proof.
  unfold parseV20Format. cbn [fst snd].
  apply save_ids. apply v20_loop_inv; [apply v20_line_ids|].
  split; [intros p []|discriminate].
Qed.

Section ParsedIds.

Variable nanoid : nat -> jstr.
Variable now : jstr.
Hypothesis nanoid_nonempty : forall k, nanoid k <> [].

Lemma nanoid_truthy' (k : nat) : truthy (JStr (nanoid k)) = true.
Proof. cbn. destruct (nanoid k) eqn:E; [exact (False_ind _ (nanoid_nonempty k E))|reflexivity]. Qed.

Lemma savePrompt_ids (js : jstr) (ls : list jstr) (ps : list ParsedPrompt) (n : nat) :
  (forall p, In p ps -> prompt_id_ok p) ->
  forall p, In p (fst (savePrompt nanoid js ls ps n)) -> prompt_id_ok p.
Proof.
  intros H. unfold savePrompt. destruct (json_parse js) as [v|]; [|exact H].
  destruct (truthy (obj_get (as_obj v) (u "id"))) eqn:Et; cbn [fst];
    intros p Hp; apply in_app_or in Hp as [Hp|[<-|[]]]; auto;
    (split; [|reflexivity]); cbn [pp_id].
  - exact Et.
  - rewrite obj_get_set, jstr_eqb_refl. apply nanoid_truthy'.
Qed.

Lemma v11_line_ids (st : V11State) (line : jstr) :
  (forall p, In p (w_prompts st) -> prompt_id_ok p) ->
  forall p, In p (w_prompts (v11_line nanoid now st line)) -> prompt_id_ok p.
Proof.
  intros H. unfold v11_line.
  destruct (V11_SET_REGEX (trim line)) as [cap|].
  { assert (H1 : forall p, In p (w_prompts (if pending st then
          match w_json st with
          | Some js => let '(ps, n) := savePrompt nanoid js (w_buf st) (w_prompts st) (w_next st) in
                       mkV11 (w_sets st) ps None false [] n
          | None => st end else st)) -> prompt_id_ok p).
    { destruct (pending st); [|exact H]. destruct (w_json st) as [js|]; [|exact H].
      pose proof (savePrompt_ids js (w_buf st) (w_prompts st) (w_next st) H) as Hs.
      destruct (savePrompt nanoid js (w_buf st) (w_prompts st) (w_next st)). exact Hs. }
    destruct (json_parse cap); exact H1. }
  destruct (V11_PROMPT_REGEX (trim line)) as [cap|].
  { destruct (pending st); [|exact H]. destruct (w_json st) as [js|]; [|exact H].
    pose proof (savePrompt_ids js (w_buf st) (w_prompts st) (w_next st) H) as Hs.
    destruct (savePrompt nanoid js (w_buf st) (w_prompts st) (w_next st)). exact Hs. }
  destruct (dash_rule (trim line)); [exact H|]. destruct (w_inPrompt st); exact H.
Qed.

Lemma parseV11Format_ids (content : jstr) :
  forall p, In p (snd (fst (parseV11Format nanoid now content))) -> prompt_id_ok p.
Proof.
  unfold parseV11Format.
  assert (H : forall ls st, (forall p, In p (w_prompts st) -> prompt_id_ok p) ->
            forall p, In p (w_prompts (fold_left (v11_line nanoid now) ls st)) -> prompt_id_ok p).
  { induction ls as [|l ls IH]; intros st Hst; [exact Hst|]. apply IH. apply v11_line_ids. exact Hst. }
  specialize (H (split_nl content) (mkV11 [] [] None false [] 0) (fun p Hp => False_ind _ Hp)).
  set (st := fold_left (v11_line nanoid now) (split_nl content) (mkV11 [] [] None false [] 0)) in *.
  destruct (pending st); [|exact H]. destruct (w_json st) as [js|]; [|exact H].
  pose proof (savePrompt_ids js (w_buf st) (w_prompts st) (w_next st) H) as Hs.
  destruct (savePrompt nanoid js (w_buf st) (w_prompts st) (w_next st)). exact Hs.
Qed.

(** Every prompt [parse] returns has an id that is a non-empty value and
    is the id of its metadata, whichever format the file has: the id of
    the metadata comment or heading when it has one, a fresh [nanoid]
    otherwise.  This needs [nanoid] to return non-empty ids, which it
    does. *)
Theorem parse_prompt_ids (text : jstr) (d : ParsedDocument) :
  parse nanoid now text = Ok d ->
  forall p, In p (pd_prompts d) -> truthy (pp_id p) = true /\ pp_id p = obj_get (pp_metadata p) (u "id").
Proof.
  unfold parse. destruct (extract_file_meta text) as [fm content].
  destruct (blank content).
  { intros H; injection H as <-. intros p []. }
  destruct (detectV20Format content).
  { pose proof (parseV20Format_ids nanoid now content) as Hi.
    destruct (parseV20Format nanoid now content) as [[[a b] c] k].
    intros H; injection H as <-. exact Hi. }
  destruct (includes content (u "<!-- set:")).
  { pose proof (parseV11Format_ids content) as Hi.
    destruct (parseV11Format nanoid now content) as [[a c] k].
    intros H; injection H as <-. exact Hi. }
  destruct (parseV10Format nanoid now content fm) as [[[a c] k]|e] eqn:E; [|discriminate].
  intros H; injection H as <-. cbn [pd_prompts]. intros p Hp.
  destruct (parseV10Format_shape nanoid now content fm a c k E p Hp) as (H1 & _ & [H3|[k' H3]]).
  - split; assumption.
  - split; [rewrite H3; apply nanoid_truthy'|exact H1].
Qed.

End ParsedIds.

Lemma prefixb_split (p s : jstr) : prefixb p s = true -> s = p ++ skipn (List.length p) s.
Proof.
  revert s. induction p as [|a p IH]; intros [|b s]; cbn; try discriminate; auto.
  intros H. apply andb_true_iff in H as [Hab H]. apply N.eqb_eq in Hab. subst b.
  f_equal. exact (IH s H).
Qed.

Lemma replace_line_prefix_hit (pat rep line : jstr) :
  prefixb pat line = true -> replace_line_prefix pat rep line = rep ++ skipn (List.length pat) line.
Proof. unfold replace_line_prefix. intros ->. reflexivity. Qed.

Lemma replace_line_prefix_miss (pat rep line : jstr) :
  prefixb pat line = false -> replace_line_prefix pat rep line = line.
Proof. unfold replace_line_prefix. intros ->. reflexivity. Qed.

Lemma promote_line_cases (line : jstr) :
  (exists x, promote_line line = u "###### " ++ x)
  \/ (exists x, promote_line line = u "##### " ++ x)
  \/ (exists x, promote_line line = u "#### " ++ x)
  \/ (promote_line line = line /\ prefixb (u "# ") line = false
      /\ prefixb (u "## ") line = false /\ prefixb (u "### ") line = false).
Proof.
  unfold promote_line.
  destruct (prefixb (u "### ") line) eqn:E3.
  { rewrite (replace_line_prefix_hit _ _ _ E3).
    generalize (skipn (List.length (u "### ")) line) as x. intros x.
    left. exists x. reflexivity. }
  rewrite (replace_line_prefix_miss _ _ _ E3).
  destruct (prefixb (u "## ") line) eqn:E2.
  { rewrite (replace_line_prefix_hit _ _ _ E2).
    generalize (skipn (List.length (u "## ")) line) as x. intros x.
    right; left. exists x. reflexivity. }
  rewrite (replace_line_prefix_miss _ _ _ E2).
  destruct (prefixb (u "# ") line) eqn:E1.
  { rewrite (replace_line_prefix_hit _ _ _ E1). right; right; left. eexists. reflexivity. }
  rewrite (replace_line_prefix_miss _ _ _ E1). right; right; right. auto.
Qed.

Lemma promote_line_no_heading (line : jstr) :
  prefixb (u "# ") (promote_line line) = false
  /\ prefixb (u "## ") (promote_line line) = false
  /\ prefixb (u "### ") (promote_line line) = false.
Proof.
  destruct (promote_line_cases line) as [[x ->]|[[x ->]|[[x ->]|(-> & H1 & H2 & H3)]]];
    auto.
Qed.

(** After [promoteContentHeadings] no line (in the sense of the [m] flag)
    begins with [# ], [## ] or [### ]: every such prefix has been
    rewritten to four, five or six [#], and the three replacements never
    recreate one. *)
Theorem promote_no_structural_prefix (c : jstr) :
  forall line, In line (js_lines (promoteContentHeadings c)) ->
  prefixb (u "# ") line = false /\ prefixb (u "## ") line = false
  /\ prefixb (u "### ") line = false.
Proof.
  unfold promoteContentHeadings, js_lines.
  destruct (split_on is_line_term c) as [[l ls] ts] eqn:Hs.
  pose proof (split_replace_bol' (u "### ") (u "###### ") _ _ _ _ eq_refl Hs) as H1.
  pose proof (split_replace_bol' (u "## ") (u "##### ") _ _ _ _ eq_refl H1) as H2.
  pose proof (split_replace_bol' (u "# ") (u "#### ") _ _ _ _ eq_refl H2) as H3.
  rewrite H3, !map_map. intros line [<-|Hin].
  - exact (promote_line_no_heading l).
  - apply in_map_iff in Hin as (x & <- & _). exact (promote_line_no_heading x).
Qed.

Lemma take_while_split (p : N -> bool) (s : jstr) : s = take_while p s ++ skipn (List.length (take_while p s)) s.
Proof. induction s as [|c s IH]; cbn; [reflexivity|]. destruct (p c); cbn; [f_equal; exact IH|reflexivity]. Qed.

Lemma take_while_all (p : N -> bool) (s : jstr) : forallb p (take_while p s) = true.
Proof. induction s as [|c s IH]; cbn; [reflexivity|]. destruct (p c) eqn:E; cbn; [rewrite E; exact IH|reflexivity]. Qed.

Lemma take_while_stop (p : N -> bool) (r t : jstr) :
  forallb p r = true -> (match t with c :: _ => p c = false | [] => True end) ->
  take_while p (r ++ t) = r.
Proof.
  intros Hr Ht. induction r as [|c r IH]; cbn.
  - destruct t as [|c t]; [reflexivity|]. cbn. rewrite Ht. reflexivity.
  - cbn in Hr. apply andb_true_iff in Hr as [Hc Hr]. rewrite Hc. f_equal. exact (IH Hr).
Qed.

Lemma skipn_length_app (a b : jstr) : skipn (List.length a) (a ++ b) = b.
Proof. induction a as [|c a IH]; cbn; [reflexivity|exact IH]. Qed.

Lemma folder_link_tail_some (r t : jstr) :
  folder_link_tail r = Some t -> exists post, r = t ++ post /\ folder_link_tail t = Some t.
Proof.
  unfold folder_link_tail.
  destruct r as [|y1 [|y2 [|y3 [|y4 [|h1 [|m1 [|m2 [|h2 [|d1 [|d2 [|h3 rest]]]]]]]]]]];
    try discriminate.
  destruct (forallb is_digit _ && forallb (N.eqb 45) _) eqn:Ec; [|discriminate].
  pose proof (take_while_split folder_run_char rest) as Hsplit.
  pose proof (take_while_all folder_run_char rest) as Hall.
  destruct (take_while folder_run_char rest) as [|r0 run] eqn:Et; [discriminate|].
  set (after := skipn (List.length (r0 :: run)) rest) in *. clearbody after.
  assert (Hsl : exists sl post, after = sl ++ post
                 /\ (match after with c :: _ => if (c =? 47)%N then [47%N] else [] | [] => [] end) = sl
                 /\ (sl = [] \/ sl = [47%N])).
  { destruct after as [|c post].
    - exists [], []. auto.
    - destruct (c =? 47)%N eqn:E47.
      + apply N.eqb_eq in E47. subst c. exists [47%N], post. auto.
      + exists [], (c :: post). auto. }
  destruct Hsl as (sl & post & Hafter & -> & Hsl).
  intros H; injection H as <-. exists post. split.
  { rewrite Hsplit, Hafter. cbn. rewrite <- !app_assoc. reflexivity. }
  cbn [app]. rewrite Ec.
  change (r0 :: run ++ sl) with ((r0 :: run) ++ sl).
  assert (Hstop : match sl with c :: _ => folder_run_char c = false | [] => True end)
    by (destruct Hsl as [->| ->]; [exact I|reflexivity]).
  rewrite (take_while_stop folder_run_char (r0 :: run) sl Hall Hstop).
  rewrite skipn_length_app. destruct Hsl as [->| ->]; reflexivity.
Qed.

Lemma folder_link_at_some (s m : jstr) :
  folder_link_at s = Some m ->
  exists post, s = m ++ post /\ folder_link_at m = Some m /\ prefixb (u "scratch/") m = true.
Proof.
  unfold folder_link_at. destruct (prefixb (u "scratch/") s) eqn:Ep; [|discriminate].
  destruct (folder_link_tail (skipn 8 s)) as [t|] eqn:Et; [|discriminate].
  intros H; injection H as <-.
  apply folder_link_tail_some in Et as (post & Hs & Ht).
  exists post. split; [|split].
  - rewrite (prefixb_split _ _ Ep). change (List.length (u "scratch/")) with 8.
    rewrite Hs, app_assoc. reflexivity.
  - cbn - [folder_link_tail]. rewrite Ht. reflexivity.
  - exact (prefixb_app (u "scratch/") t).
Qed.

Lemma folder_link_search_some (s m : jstr) :
  folder_link_search s = Some m ->
  exists pre post, s = pre ++ m ++ post /\ folder_link_at m = Some m
                   /\ prefixb (u "scratch/") m = true.
Proof.
  induction s as [|c s IH]; cbn [folder_link_search].
  - destruct (folder_link_at []) as [m'|] eqn:E; [|discriminate].
    intros H; injection H as <-. apply folder_link_at_some in E as (post & Hs & H1 & H2).
    exists [], post. auto.
  - destruct (folder_link_at (c :: s)) as [m'|] eqn:E.
    + intros H; injection H as <-. apply folder_link_at_some in E as (post & Hs & H1 & H2).
      exists [], post. auto.
    + intros H. destruct (IH H) as (pre & post & Hs & H1 & H2).
      exists (c :: pre), post. rewrite Hs. auto.
Qed.

(** The link [detectFolderLink] finds is a piece of the content that
    begins with [scratch/]. *)
Theorem detectFolderLink_infix (content m : jstr) :
  detectFolderLink content = Some m ->
  (exists pre post, content = pre ++ m ++ post) /\ prefixb (u "scratch/") m = true.
Proof.
  intros H. destruct (folder_link_search_some content m H) as (pre & post & Hs & _ & Hp).
  split; [exists pre, post; exact Hs|exact Hp].
Qed.

(** Detecting a folder link in a link [detectFolderLink] returned gives
    that link back. *)
Theorem detectFolderLink_idem (content m : jstr) :
  detectFolderLink content = Some m -> detectFolderLink m = Some m.
Proof.
  intros H. destruct (folder_link_search_some content m H) as (_ & _ & _ & Hat & _).
  unfold detectFolderLink. destruct m as [|c m'].
  - cbn [folder_link_search]. rewrite Hat. reflexivity.
  - cbn [folder_link_search]. rewrite Hat. reflexivity.
Qed.

Lemma detectFolderLink_infix_witness :
  detectFolderLink (u "see scratch/2024-01-15-auth-bug/notes.md") = Some (u "scratch/2024-01-15-auth-bug/")
  /\ ((exists pre post, u "see scratch/2024-01-15-auth-bug/notes.md" = pre ++ u "scratch/2024-01-15-auth-bug/" ++ post)
      /\ prefixb (u "scratch/") (u "scratch/2024-01-15-auth-bug/") = true).
Proof.
  assert (H : detectFolderLink (u "see scratch/2024-01-15-auth-bug/notes.md") = Some (u "scratch/2024-01-15-auth-bug/"))
    by (vm_compute; reflexivity).
  split; [exact H|exact (detectFolderLink_infix _ _ H)].
Defined.

Lemma set_blocks_no_prompts (dsid now : jstr) (d : PromptDocument) :
  d_prompts d = [] -> set_blocks dsid now d = [].
Proof.
  intros Hp. unfold set_blocks.
  assert (Hr : forall s, render_set dsid d s = None).
  { intros s. unfold render_set, set_prompts, orphanPrompts. rewrite Hp. cbn.
    destruct (jstr_eqb (ps_id s) dsid); reflexivity. }
  induction (setsToWrite dsid now d) as [|s l IH]; cbn; [reflexivity|]. rewrite Hr. exact IH.
Qed.

(** A document without prompts is written as the file comment line and
    an empty line, whatever its sets and sessions, and [parse] reads that
    text back as a document without sets, sessions or prompts. *)
Theorem serialize_without_prompts (nanoid : nat -> jstr) (now dsid snow : jstr) (d : PromptDocument) :
  d_prompts d = [] ->
  fst (serialize dsid snow d) = file_header ++ [10%N]
  /\ snd (serialize dsid snow d) = []
  /\ exists fm, parse nanoid now (fst (serialize dsid snow d)) = Ok (mkParsedDocument fm [] [] [] true).
Proof.
  intros Hp.
  assert (Ht : fst (serialize dsid snow d) = file_header ++ [10%N]).
  { unfold serialize, serialize_text. cbn [fst]. rewrite set_blocks_no_prompts by exact Hp.
    rewrite Hp. cbn [map join]. rewrite orb_false_r.
    destruct (d_trailingNewline d); [|reflexivity]. reflexivity. }
  split; [exact Ht|split].
  - unfold serialize, prompts_after. cbn [snd]. rewrite Hp. reflexivity.
  - rewrite Ht. eexists. reflexivity.
Qed.

Lemma split_nl_lines_free (s : jstr) : forall l, In l (split_nl s) -> nl_free l = true.
Proof.
  induction s as [|c s IH]; intros l Hl.
  - rewrite split_nl_nil in Hl. destruct Hl as [<-|[]]. reflexivity.
  - rewrite split_nl_cons in Hl. destruct (is_nl c) eqn:Ec.
    + destruct Hl as [<-|Hl]; [reflexivity|exact (IH l Hl)].
    + destruct (split_nl_not_nil s) as (l0 & ls & E). rewrite E in Hl, IH. cbn [hd tl] in Hl.
      destruct Hl as [<-|Hl].
      * cbn. rewrite Ec. exact (IH l0 (or_introl eq_refl)).
      * exact (IH l (or_intror Hl)).
Qed.

Lemma drop_blank_suffix (ls : list jstr) : exists pre, ls = pre ++ drop_blank ls.
Proof.
  induction ls as [|l ls IH]; cbn; [exists []; reflexivity|].
  destruct (blank l).
  - destruct IH as [pre E]. exists (l :: pre). cbn. f_equal. exact E.
  - exists []. reflexivity.
Qed.

Lemma drop_blank_hd (ls : list jstr) : drop_blank ls = [] \/ blank (hd [] (drop_blank ls)) = false.
Proof.
  induction ls as [|l ls IH]; cbn; [left; reflexivity|].
  destruct (blank l) eqn:E; [exact IH|right; exact E].
Qed.

Lemma last_app_cons (pre t : list jstr) (x : jstr) :
  t <> [] -> last (pre ++ t) x = last t x.
Proof.
  intros Ht. induction pre as [|a pre IH]; [reflexivity|].
  cbn [app]. rewrite <- IH. destruct (pre ++ t) eqn:E; [|reflexivity].
  apply app_eq_nil in E as [_ E]. contradiction.
Qed.

Lemma trim_blank_lines_ends (ls : list jstr) :
  trim_blank_lines ls = []
  \/ (blank (hd [] (trim_blank_lines ls)) = false /\ blank (last (trim_blank_lines ls) []) = false).
Proof.
  unfold trim_blank_lines.
  pose proof (drop_blank_hd (rev ls)) as Hr0.
  set (r := drop_blank (rev ls)) in *. clearbody r.
  destruct (drop_blank_hd (rev r)) as [E|Hh]; [left; exact E|].
  destruct (drop_blank (rev r)) as [|t0 t] eqn:Et; [left; reflexivity|right].
  split; [exact Hh|].
  destruct (drop_blank_suffix (rev r)) as [pre Hpre]. rewrite Et in Hpre.
  rewrite <- (last_app_cons pre) by discriminate. rewrite <- Hpre.
  destruct Hr0 as [Er|Hr].
  - rewrite Er in Hpre. apply app_cons_not_nil in Hpre as [].
  - destruct r as [|r0 r']; [discriminate|]. cbn [rev]. rewrite last_last. exact Hr.
Qed.

Lemma drop_blank_incl (ls : list jstr) : forall x, In x (drop_blank ls) -> In x ls.
Proof.
  destruct (drop_blank_suffix ls) as [pre E]. intros x Hx. rewrite E. apply in_or_app. right. exact Hx.
Qed.

Lemma trim_blank_lines_incl (ls : list jstr) : forall x, In x (trim_blank_lines ls) -> In x ls.
Proof.
  intros x Hx. unfold trim_blank_lines in Hx.
  apply drop_blank_incl, in_rev, drop_blank_incl in Hx. rewrite <- in_rev in Hx. exact Hx.
Qed.

Lemma flat_map_split_nl_free (xs : list jstr) :
  (forall x, In x xs -> nl_free x = true) -> flat_map split_nl xs = xs.
Proof.
  induction xs as [|x xs IH]; intros H; [reflexivity|]. cbn [flat_map].
  rewrite split_nl_free by (apply H; left; reflexivity). cbn [app]. f_equal.
  apply IH. intros y Hy. apply H. right. exact Hy.
Qed.

Lemma join_trimmed (ls : list jstr) :
  (forall l, In l ls -> nl_free l = true) -> content_trimmed (join [10%N] (trim_blank_lines ls)).
Proof.
  intros H. unfold content_trimmed.
  destruct (trim_blank_lines_ends ls) as [E|[Hh Hl]]; [left; rewrite E; reflexivity|right].
  assert (Hne : trim_blank_lines ls <> []) by (intros E; rewrite E in Hh; discriminate).
  rewrite split_nl_join by exact Hne.
  rewrite flat_map_split_nl_free by (intros x Hx; apply H, trim_blank_lines_incl, Hx).
  split; assumption.
Qed.

Section V11Props.

Variable nanoid : nat -> jstr.
Variable now : jstr.

Lemma v11_line_shape (st : V11State) (line : jstr) :
  let r := v11_line nanoid now st line in
  (w_sets r = w_sets st \/ exists sd, w_sets r = w_sets st ++ [v11_set_defaults now sd])
  /\ (w_prompts r = w_prompts st
      \/ exists js, w_prompts r = fst (savePrompt nanoid js (w_buf st) (w_prompts st) (w_next st)))
  /\ (w_buf r = [] \/ w_buf r = w_buf st \/ w_buf r = w_buf st ++ [line]).
Proof.
  cbv zeta. unfold v11_line.
  repeat (match goal with
          | |- context [match ?x with _ => _ end] => destruct x eqn:?
          end); cbn [w_sets w_prompts w_buf];
  (split; [|split]);
  first [ left; reflexivity
        | right; left; reflexivity
        | right; right; reflexivity
        | right; eexists; reflexivity
        | right; eexists;
          match goal with H : savePrompt _ _ _ _ _ = _ |- _ => rewrite H; reflexivity end
        | idtac ].
Qed.

Lemma savePrompt_trimmed (js : jstr) (ls : list jstr) (ps : list ParsedPrompt) (n : nat) :
  (forall l, In l ls -> nl_free l = true) ->
  (forall p, In p ps -> content_trimmed (pp_content p)) ->
  forall p, In p (fst (savePrompt nanoid js ls ps n)) -> content_trimmed (pp_content p).
Proof.
  intros Hls Hps. unfold savePrompt. destruct (json_parse js) as [v|]; [|exact Hps].
  destruct (if truthy _ then _ else _) as [md n']. cbn [fst].
  intros p Hp. apply in_app_or in Hp as [Hp|[<-|[]]]; [auto|]. apply join_trimmed. exact Hls.
Qed.

Lemma v11_fold_inv (lines : list jstr) :
  (forall l, In l lines -> nl_free l = true) ->
  forall st,
  (forall l, In l (w_buf st) -> nl_free l = true) ->
  (forall p, In p (w_prompts st) -> content_trimmed (pp_content p)) ->
  let r := fold_left (v11_line nanoid now) lines st in
  (forall l, In l (w_buf r) -> nl_free l = true)
  /\ (forall p, In p (w_prompts r) -> content_trimmed (pp_content p)).
Proof.
  induction lines as [|line lines IH]; intros Hlines st Hb Hp; cbv zeta; [auto|].
  cbn [fold_left]. apply IH; [intros l Hl; apply Hlines; right; exact Hl| |].
  - destruct (v11_line_shape st line) as (_ & _ & [->|[->| ->]]); [intros _ []|exact Hb|].
    intros l Hl. apply in_app_or in Hl as [Hl|[<-|[]]]; [auto|]. apply Hlines. left. reflexivity.
  - destruct (v11_line_shape st line) as (_ & [->|[js ->]] & _); [exact Hp|].
    apply savePrompt_trimmed; assumption.
Qed.

(** The content of every prompt [parseV11Format] returns is empty or
    starts and ends with a line that is not blank: the blank lines
    around a prompt's text are dropped. *)
Theorem parseV11Format_contents_trimmed (content : jstr) :
  forall p, In p (snd (fst (parseV11Format nanoid now content))) -> content_trimmed (pp_content p).
Proof.
  unfold parseV11Format.
  destruct (v11_fold_inv (split_nl content) (split_nl_lines_free content)
              (mkV11 [] [] None false [] 0) (fun l H => False_ind _ H) (fun p H => False_ind _ H))
    as [Hb Hp].
  set (st := fold_left (v11_line nanoid now) (split_nl content) (mkV11 [] [] None false [] 0)) in *.
  destruct (pending st); [|exact Hp]. destruct (w_json st) as [js|]; [|exact Hp].
  pose proof (savePrompt_trimmed js (w_buf st) (w_prompts st) (w_next st) Hb Hp) as Hs.
  destruct (savePrompt nanoid js (w_buf st) (w_prompts st) (w_next st)). exact Hs.
Qed.

Hypothesis now_nonempty : now <> [].

Lemma v11_set_defaults_ok (sd : obj) : set_defaults_ok (v11_set_defaults now sd).
Proof.
  unfold set_defaults_ok, v11_set_defaults.
  assert (Hc : truthy (obj_get (if truthy (obj_get sd (u "created")) then sd
                                else obj_set sd (u "created") (JStr now)) (u "created")) = true).
  { destruct (truthy (obj_get sd (u "created"))) eqn:E; [exact E|].
    rewrite obj_get_set, jstr_eqb_refl. cbn. destruct now; [contradiction|reflexivity]. }
  set (sd1 := if truthy (obj_get sd (u "created")) then sd else _) in *. clearbody sd1.
  assert (Ha : obj_get (match obj_get sd1 (u "active") with
                        | JUndef => obj_set sd1 (u "active") (JBool false) | _ => sd1 end)
                 (u "active") <> JUndef
            /\ truthy (obj_get (match obj_get sd1 (u "active") with
                        | JUndef => obj_set sd1 (u "active") (JBool false) | _ => sd1 end)
                 (u "created")) = true).
  { destruct (obj_get sd1 (u "active")) eqn:E;
      try (split; [rewrite E; discriminate|exact Hc]).
    rewrite !obj_get_set, jstr_eqb_refl. split; [discriminate|exact Hc]. }
  set (sd2 := match obj_get sd1 (u "active") with JUndef => _ | _ => sd1 end) in *. clearbody sd2.
  destruct Ha as [Ha Hc2].
  destruct (obj_get sd2 (u "collapsed")) eqn:E;
    try (split; [exact Hc2|split; [exact Ha|rewrite E; discriminate]]).
  rewrite !obj_get_set, jstr_eqb_refl. cbn [jstr_eqb u]. split; [exact Hc2|split; [exact Ha|discriminate]].
Qed.

Lemma ensure_active_defaults (sets : list obj) :
  (forall s, In s sets -> set_defaults_ok s) -> forall s, In s (ensure_active sets) -> set_defaults_ok s.
Proof.
  intros H. destruct sets as [|s0 rest]; [intros s []|]. unfold ensure_active.
  destruct (existsb _ _); [exact H|].
  intros s [<-|Hs]; [|apply H; right; exact Hs].
  destruct (H s0 (or_introl eq_refl)) as (H1 & H2 & H3).
  unfold set_defaults_ok. rewrite !obj_get_set. cbn [jstr_eqb u].
  split; [exact H1|split; [discriminate|exact H3]].
Qed.

(** Every set [parseV11Format] returns has a creation time, and its
    [active] and [collapsed] fields are defined: the defaults fill in
    what the set comment leaves out.  The clock reads a non-empty time. *)
Theorem parseV11Format_set_defaults (content : jstr) :
  forall s, In s (fst (fst (parseV11Format nanoid now content))) -> set_defaults_ok s.
Proof.
  unfold parseV11Format.
  assert (H : forall lines st, (forall s, In s (w_sets st) -> set_defaults_ok s) ->
            forall s, In s (w_sets (fold_left (v11_line nanoid now) lines st)) -> set_defaults_ok s).
  { induction lines as [|line lines IH]; intros st Hst; [exact Hst|]. cbn [fold_left]. apply IH.
    destruct (v11_line_shape st line) as ([->|[sd ->]] & _ & _); [exact Hst|].
    intros s Hs. apply in_app_or in Hs as [Hs|[<-|[]]]; [auto|]. apply v11_set_defaults_ok. }
  specialize (H (split_nl content) (mkV11 [] [] None false [] 0) (fun s Hs => False_ind _ Hs)).
  set (st := fold_left (v11_line nanoid now) (split_nl content) (mkV11 [] [] None false [] 0)) in *.
  destruct (if pending st then _ else _) as [ps n]. cbn [fst].
  apply ensure_active_defaults. exact H.
Qed.

End V11Props.

(* ------------------------------------------------------------------ *)
(** ** Concrete runs of the further properties *)

Lemma parseV20Format_refs_witness :
  (forall k, sample_ids k <> []) /\
  let '(sets, sessions, prompts, _) :=
    parseV20Format sample_ids (u "t") (u "# S~<!-- {'id':'s'} -->~## G~<!-- {'id':'g'} -->~### P~<!-- {'id':'p'} -->~x") in
  (forall p, In p prompts -> In (obj_get (pp_metadata p) (u "setId")) (set_ids sets))
  /\ (forall s, In s sessions -> In (obj_get s (u "setId")) (set_ids sets))
  /\ (forall p, In p prompts -> truthy (obj_get (pp_metadata p) (u "sessionId")) = true ->
      exists s, In s sessions
        /\ obj_get s (u "id") = obj_get (pp_metadata p) (u "sessionId")
        /\ obj_get s (u "setId") = obj_get (pp_metadata p) (u "setId")).
Proof.
  split; [intros k; unfold sample_ids; simpl; discriminate|].
  apply (parseV20Format_refs sample_ids (u "t")). intros k; unfold sample_ids; simpl; discriminate.
Defined.

Lemma parse_prompt_ids_witness :
  (forall k, sample_ids k <> []) /\
  exists d, parse sample_ids (u "t") (u "# S~<!-- {'id':'s'} -->~### P~~x~### Q~<!-- {'id':'q'} -->~y") = Ok d
  /\ forall p, In p (pd_prompts d) -> truthy (pp_id p) = true /\ pp_id p = obj_get (pp_metadata p) (u "id").
Proof.
  split; [intros k; unfold sample_ids; simpl; discriminate|].
  destruct (parse sample_ids (u "t") (u "# S~<!-- {'id':'s'} -->~### P~~x~### Q~<!-- {'id':'q'} -->~y")) as [d|e] eqn:E.
  - exists d. split; [reflexivity|].
    refine (parse_prompt_ids sample_ids (u "t") _ _ d E).
    intros k; unfold sample_ids; simpl; discriminate.
  - vm_compute in E. discriminate.
Defined.

Lemma parseV10Format_prompt_sets_witness :
  exists sets prompts n,
  parseV10Format sample_ids (u "t") (u "<!-- prompt: {'id':'a','group':'g'} -->~One~---~Two") default_file_meta
    = Ok (sets, prompts, n)
  /\ forall p, In p prompts -> In (obj_get (pp_metadata p) (u "setId")) (set_ids sets).
Proof.
  destruct (parseV10Format sample_ids (u "t") (u "<!-- prompt: {'id':'a','group':'g'} -->~One~---~Two") default_file_meta)
    as [[[sets prompts] n]|e] eqn:E.
  - exists sets, prompts, n. split; [reflexivity|]. exact (parseV10Format_prompt_sets _ _ _ _ _ _ _ E).
  - vm_compute in E. discriminate.
Defined.

Lemma detectFolderLink_idem_witness :
  detectFolderLink (u "see scratch/2024-01-15-auth-bug/notes.md") = Some (u "scratch/2024-01-15-auth-bug/")
  /\ detectFolderLink (u "scratch/2024-01-15-auth-bug/") = Some (u "scratch/2024-01-15-auth-bug/").
Proof.
  assert (H : detectFolderLink (u "see scratch/2024-01-15-auth-bug/notes.md") = Some (u "scratch/2024-01-15-auth-bug/"))
    by (vm_compute; reflexivity).
  split; [exact H|exact (detectFolderLink_idem _ _ H)].
Defined.

Lemma serialize_without_prompts_witness :
  d_prompts (sample_doc [sample_set (u "A") true] [] []) = [] /\
  fst (serialize (u "D") (u "t") (sample_doc [sample_set (u "A") true] [] [])) = file_header ++ [10%N]
  /\ snd (serialize (u "D") (u "t") (sample_doc [sample_set (u "A") true] [] [])) = []
  /\ exists fm, parse sample_ids (u "t") (fst (serialize (u "D") (u "t") (sample_doc [sample_set (u "A") true] [] [])))
                = Ok (mkParsedDocument fm [] [] [] true).
Proof.
  split; [reflexivity|]. apply serialize_without_prompts. reflexivity.
Defined.

Lemma parseV11Format_set_defaults_witness :
  u "t" <> [] /\
  forall s, In s (fst (fst (parseV11Format sample_ids (u "t")
                              (u "<!-- set: {'id':'s','name':'S'} -->~<!-- prompt: {'id':'a'} -->~x"))))
            -> set_defaults_ok s.
Proof.
  split; [discriminate|]. apply parseV11Format_set_defaults. discriminate.
Defined.

Lemma promote_no_structural_prefix_witness :
  In (u "#### Title") (js_lines (promoteContentHeadings (u "# Title~text"))) /\
  (prefixb (u "# ") (u "#### Title") = false /\ prefixb (u "## ") (u "#### Title") = false
   /\ prefixb (u "### ") (u "#### Title") = false).
Proof.
  assert (H : In (u "#### Title") (js_lines (promoteContentHeadings (u "# Title~text"))))
    by (vm_compute; left; reflexivity).
  split; [exact H|exact (promote_no_structural_prefix _ _ H)].
Defined.

Lemma parseV11Format_contents_trimmed_witness :
  exists p, In p (snd (fst (parseV11Format sample_ids (u "t")
                              (u "<!-- set: {'id':'s'} -->~<!-- prompt: {'id':'a'} -->~~x~y~~"))))
  /\ pp_content p = u "x~y" /\ content_trimmed (pp_content p).
Proof.
  remember (snd (fst (parseV11Format sample_ids (u "t")
                        (u "<!-- set: {'id':'s'} -->~<!-- prompt: {'id':'a'} -->~~x~y~~"))))
    as ps eqn:E.
  destruct ps as [|p ps].
  - vm_compute in E. discriminate.
  - exists p. split; [left; reflexivity|split].
    + vm_compute in E. injection E as -> _. reflexivity.
    + apply (parseV11Format_contents_trimmed sample_ids (u "t")
               (u "<!-- set: {'id':'s'} -->~<!-- prompt: {'id':'a'} -->~~x~y~~")).
      rewrite <- E. left. reflexivity.
Defined.
